(** * Fine-Tuning DataSet Generator: the extraction pipeline

    A shallow embedding of the pipeline of the repository (the pager and the
    orchestrator of [Loader.tsx], the language-model client, the response
    parser, the section extractor and the section matcher of
    [services/geminiService.ts]) together with the properties its
    specification states about it.

    Modelling conventions.
    - A JavaScript string is the list of its UTF-16 code units ([jsstring]);
      [length], [substring], [trim], [includes] and the regular expressions
      of the source work on code units, as they do in JavaScript.
    - [toUpperCase] reads the string as code points and applies the full
      upper case mappings of the Unicode Character Database (version 14.0;
      later versions add mappings for code points that had none).
    - A JavaScript number that indexes a string is an integer ([Z]); a number
      read by [JSON.parse] is kept as its numeral, floating point evaluation
      lies outside the model, and [Number::toString] is a parameter.
    - An object read by [JSON.parse] keeps its members as the text lists
      them.
    - [await]ed calls are sequential: an asynchronous function is a
      computation in a state and exception monad over the state of the
      outside world. *)

From Stdlib Require Import String Ascii DecimalString.
From Stdlib Require Import List ZArith NArith Lia Bool Arith.
Import ListNotations.

Local Open Scope Z_scope.

(* ================================================================== *)
(** * JavaScript strings *)

Module JsString.

Definition code_unit := N.
Definition jsstring := list code_unit.

(** A string literal of the source (ASCII text). *)
Definition lit (s : string) : jsstring :=
  map N_of_ascii (list_ascii_of_string s).

Definition jslength (s : jsstring) : Z := Z.of_nat (length s).

(** [String.prototype.substring(start, end)]: both indices are clamped to
    [0 .. length] and swapped when [start > end]. *)
Definition clamp (len x : Z) : Z := Z.min (Z.max x 0) len.

Definition substring (s : jsstring) (start end_ : Z) : jsstring :=
  let len := jslength s in
  let a := clamp len start in
  let b := clamp len end_ in
  let from := Z.min a b in
  let to := Z.max a b in
  firstn (Z.to_nat (to - from)) (skipn (Z.to_nat from) s).

(** [WhiteSpace] and [LineTerminator] code units: what [trim] removes and
    what [\s] matches in a regular expression. *)
Definition is_white_space (c : code_unit) : bool :=
  ((9 <=? c) && (c <=? 13) || (c =? 32) || (c =? 160) || (c =? 5760)
   || (8192 <=? c) && (c <=? 8202) || (c =? 8232) || (c =? 8233)
   || (c =? 8239) || (c =? 8287) || (c =? 12288) || (c =? 65279))%N.

Fixpoint trimStart (s : jsstring) : jsstring :=
  match s with
  | c :: t => if is_white_space c then trimStart t else s
  | [] => []
  end.

Definition trimEnd (s : jsstring) : jsstring := rev (trimStart (rev s)).

Definition trim (s : jsstring) : jsstring := trimEnd (trimStart s).

Fixpoint startsWith (s prefix : jsstring) {struct prefix} : bool :=
  match prefix, s with
  | [], _ => true
  | p :: prefix', c :: s' => (c =? p)%N && startsWith s' prefix'
  | _ :: _, [] => false
  end.

Definition endsWith (s suffix : jsstring) : bool :=
  startsWith (rev s) (rev suffix).

Fixpoint includes (s needle : jsstring) : bool :=
  startsWith s needle
  || match s with
     | [] => false
     | _ :: t => includes t needle
     end.

(** ** [String.prototype.toUpperCase]

    The string is read as a sequence of code points, every code point is
    replaced by its full upper case mapping of the Unicode Character
    Database, and the result is written back in UTF-16.  The mapping has no
    context-dependent rule that is independent of the locale. *)

Definition is_leading_surrogate (c : code_unit) : bool :=
  ((55296 <=? c) && (c <=? 56319))%N.

Definition is_trailing_surrogate (c : code_unit) : bool :=
  ((56320 <=? c) && (c <=? 57343))%N.

(** A leading surrogate that is followed by a trailing one is one code
    point with it; any other code unit is a code point of its own. *)
Fixpoint StringToCodePoints (s : jsstring) : list N :=
  match s with
  | [] => []
  | c :: rest =>
      match rest with
      | d :: rest' =>
          if is_leading_surrogate c && is_trailing_surrogate d
          then ((c - 55296) * 1024 + (d - 56320) + 65536)%N
               :: StringToCodePoints rest'
          else c :: StringToCodePoints rest
      | [] => [c]
      end
  end.

Definition UTF16EncodeCodePoint (cp : N) : jsstring :=
  (if cp <? 65536 then [cp]
   else [55296 + (cp - 65536) / 1024; 56320 + (cp - 65536) mod 1024])%N.

Definition CodePointsToString (text : list N) : jsstring :=
  flat_map UTF16EncodeCodePoint text.

(** [case_run first count step upper]: the [count] code points [first],
    [first + step], ... have the upper case [upper], [upper + step], ... *)
Definition case_run (first : N) (count : nat) (step upper : N)
  : list (N * list N) :=
  map (fun i => (first + N.of_nat i * step, [upper + N.of_nat i * step])%N)
      (seq 0 count).

(** The code points whose upper case is a single other code point
    (UnicodeData.txt, version 14.0). *)
Definition simple_upper_case : list (N * list N) :=
  Eval cbv in concat
  [case_run 97 26 1 65; case_run 181 1 1 924; case_run 224 23 1 192;
   case_run 248 7 1 216; case_run 255 1 1 376; case_run 257 24 2 256;
   case_run 305 1 1 73; case_run 307 3 2 306; case_run 314 8 2 313;
   case_run 331 23 2 330; case_run 378 3 2 377; case_run 383 1 1 83;
   case_run 384 1 1 579; case_run 387 2 2 386; case_run 392 1 1 391;
   case_run 396 1 1 395; case_run 402 1 1 401; case_run 405 1 1 502;
   case_run 409 1 1 408; case_run 410 1 1 573; case_run 414 1 1 544;
   case_run 417 3 2 416; case_run 424 1 1 423; case_run 429 1 1 428;
   case_run 432 1 1 431; case_run 436 2 2 435; case_run 441 1 1 440;
   case_run 445 1 1 444; case_run 447 1 1 503; case_run 453 1 1 452;
   case_run 454 1 1 452; case_run 456 1 1 455; case_run 457 1 1 455;
   case_run 459 1 1 458; case_run 460 1 1 458; case_run 462 8 2 461;
   case_run 477 1 1 398; case_run 479 9 2 478; case_run 498 1 1 497;
   case_run 499 1 1 497; case_run 501 1 1 500; case_run 505 20 2 504;
   case_run 547 9 2 546; case_run 572 1 1 571; case_run 575 2 1 11390;
   case_run 578 1 1 577; case_run 583 5 2 582; case_run 592 1 1 11375;
   case_run 593 1 1 11373; case_run 594 1 1 11376; case_run 595 1 1 385;
   case_run 596 1 1 390; case_run 598 2 1 393; case_run 601 1 1 399;
   case_run 603 1 1 400; case_run 604 1 1 42923; case_run 608 1 1 403;
   case_run 609 1 1 42924; case_run 611 1 1 404; case_run 613 1 1 42893;
   case_run 614 1 1 42922; case_run 616 1 1 407; case_run 617 1 1 406;
   case_run 618 1 1 42926; case_run 619 1 1 11362; case_run 620 1 1 42925;
   case_run 623 1 1 412; case_run 625 1 1 11374; case_run 626 1 1 413;
   case_run 629 1 1 415; case_run 637 1 1 11364; case_run 640 1 1 422;
   case_run 642 1 1 42949; case_run 643 1 1 425; case_run 647 1 1 42929;
   case_run 648 1 1 430; case_run 649 1 1 580; case_run 650 2 1 433;
   case_run 652 1 1 581; case_run 658 1 1 439; case_run 669 1 1 42930;
   case_run 670 1 1 42928; case_run 837 1 1 921; case_run 881 2 2 880;
   case_run 887 1 1 886; case_run 891 3 1 1021; case_run 940 1 1 902;
   case_run 941 3 1 904; case_run 945 17 1 913; case_run 962 1 1 931;
   case_run 963 9 1 931; case_run 972 1 1 908; case_run 973 2 1 910;
   case_run 976 1 1 914; case_run 977 1 1 920; case_run 981 1 1 934;
   case_run 982 1 1 928; case_run 983 1 1 975; case_run 985 12 2 984;
   case_run 1008 1 1 922; case_run 1009 1 1 929; case_run 1010 1 1 1017;
   case_run 1011 1 1 895; case_run 1013 1 1 917; case_run 1016 1 1 1015;
   case_run 1019 1 1 1018; case_run 1072 32 1 1040;
   case_run 1104 16 1 1024; case_run 1121 17 2 1120;
   case_run 1163 27 2 1162; case_run 1218 7 2 1217; case_run 1231 1 1 1216;
   case_run 1233 48 2 1232; case_run 1377 38 1 1329;
   case_run 4304 43 1 7312; case_run 4349 3 1 7357; case_run 5112 6 1 5104;
   case_run 7296 1 1 1042; case_run 7297 1 1 1044; case_run 7298 1 1 1054;
   case_run 7299 2 1 1057; case_run 7301 1 1 1058; case_run 7302 1 1 1066;
   case_run 7303 1 1 1122; case_run 7304 1 1 42570;
   case_run 7545 1 1 42877; case_run 7549 1 1 11363;
   case_run 7566 1 1 42950; case_run 7681 75 2 7680;
   case_run 7835 1 1 7776; case_run 7841 48 2 7840; case_run 7936 8 1 7944;
   case_run 7952 6 1 7960; case_run 7968 8 1 7976; case_run 7984 8 1 7992;
   case_run 8000 6 1 8008; case_run 8017 4 2 8025; case_run 8032 8 1 8040;
   case_run 8048 2 1 8122; case_run 8050 4 1 8136; case_run 8054 2 1 8154;
   case_run 8056 2 1 8184; case_run 8058 2 1 8170; case_run 8060 2 1 8186;
   case_run 8112 2 1 8120; case_run 8126 1 1 921; case_run 8144 2 1 8152;
   case_run 8160 2 1 8168; case_run 8165 1 1 8172; case_run 8526 1 1 8498;
   case_run 8560 16 1 8544; case_run 8580 1 1 8579;
   case_run 9424 26 1 9398; case_run 11312 48 1 11264;
   case_run 11361 1 1 11360; case_run 11365 1 1 570;
   case_run 11366 1 1 574; case_run 11368 3 2 11367;
   case_run 11379 1 1 11378; case_run 11382 1 1 11381;
   case_run 11393 50 2 11392; case_run 11500 2 2 11499;
   case_run 11507 1 1 11506; case_run 11520 38 1 4256;
   case_run 11559 1 1 4295; case_run 11565 1 1 4301;
   case_run 42561 23 2 42560; case_run 42625 14 2 42624;
   case_run 42787 7 2 42786; case_run 42803 31 2 42802;
   case_run 42874 2 2 42873; case_run 42879 5 2 42878;
   case_run 42892 1 1 42891; case_run 42897 2 2 42896;
   case_run 42900 1 1 42948; case_run 42903 10 2 42902;
   case_run 42933 8 2 42932; case_run 42952 2 2 42951;
   case_run 42961 1 1 42960; case_run 42967 2 2 42966;
   case_run 42998 1 1 42997; case_run 43859 1 1 42931;
   case_run 43888 80 1 5024; case_run 65345 26 1 65313;
   case_run 66600 40 1 66560; case_run 66776 36 1 66736;
   case_run 66967 19 2 66928; case_run 66968 5 2 66929;
   case_run 66980 7 2 66941; case_run 66996 3 2 66957;
   case_run 67004 1 1 66965; case_run 68800 51 1 68736;
   case_run 71872 32 1 71840; case_run 93792 32 1 93760;
   case_run 125218 34 1 125184]%N.

(** The code points whose upper case is more than one code point (the
    unconditional mappings of SpecialCasing.txt, version 14.0). *)
Definition special_upper_case : list (N * list N) :=
  [(223, [83; 83]); (329, [700; 78]); (496, [74; 780]);
   (912, [921; 776; 769]); (944, [933; 776; 769]); (1415, [1333; 1362]);
   (7830, [72; 817]); (7831, [84; 776]); (7832, [87; 778]);
   (7833, [89; 778]); (7834, [65; 702]); (8016, [933; 787]);
   (8018, [933; 787; 768]); (8020, [933; 787; 769]);
   (8022, [933; 787; 834]); (8064, [7944; 921]); (8065, [7945; 921]);
   (8066, [7946; 921]); (8067, [7947; 921]); (8068, [7948; 921]);
   (8069, [7949; 921]); (8070, [7950; 921]); (8071, [7951; 921]);
   (8072, [7944; 921]); (8073, [7945; 921]); (8074, [7946; 921]);
   (8075, [7947; 921]); (8076, [7948; 921]); (8077, [7949; 921]);
   (8078, [7950; 921]); (8079, [7951; 921]); (8080, [7976; 921]);
   (8081, [7977; 921]); (8082, [7978; 921]); (8083, [7979; 921]);
   (8084, [7980; 921]); (8085, [7981; 921]); (8086, [7982; 921]);
   (8087, [7983; 921]); (8088, [7976; 921]); (8089, [7977; 921]);
   (8090, [7978; 921]); (8091, [7979; 921]); (8092, [7980; 921]);
   (8093, [7981; 921]); (8094, [7982; 921]); (8095, [7983; 921]);
   (8096, [8040; 921]); (8097, [8041; 921]); (8098, [8042; 921]);
   (8099, [8043; 921]); (8100, [8044; 921]); (8101, [8045; 921]);
   (8102, [8046; 921]); (8103, [8047; 921]); (8104, [8040; 921]);
   (8105, [8041; 921]); (8106, [8042; 921]); (8107, [8043; 921]);
   (8108, [8044; 921]); (8109, [8045; 921]); (8110, [8046; 921]);
   (8111, [8047; 921]); (8114, [8122; 921]); (8115, [913; 921]);
   (8116, [902; 921]); (8118, [913; 834]); (8119, [913; 834; 921]);
   (8124, [913; 921]); (8130, [8138; 921]); (8131, [919; 921]);
   (8132, [905; 921]); (8134, [919; 834]); (8135, [919; 834; 921]);
   (8140, [919; 921]); (8146, [921; 776; 768]); (8147, [921; 776; 769]);
   (8150, [921; 834]); (8151, [921; 776; 834]); (8162, [933; 776; 768]);
   (8163, [933; 776; 769]); (8164, [929; 787]); (8166, [933; 834]);
   (8167, [933; 776; 834]); (8178, [8186; 921]); (8179, [937; 921]);
   (8180, [911; 921]); (8182, [937; 834]); (8183, [937; 834; 921]);
   (8188, [937; 921]); (64256, [70; 70]); (64257, [70; 73]);
   (64258, [70; 76]); (64259, [70; 70; 73]); (64260, [70; 70; 76]);
   (64261, [83; 84]); (64262, [83; 84]); (64275, [1348; 1350]);
   (64276, [1348; 1333]); (64277, [1348; 1339]); (64278, [1358; 1350]);
   (64279, [1348; 1341])]%N.

Definition upper_case_mappings : list (N * list N) :=
  special_upper_case ++ simple_upper_case.

(** The upper case of a code point; a code point without a mapping is its
    own upper case. *)
Definition toUppercase (cp : N) : list N :=
  match find (fun mapping => (fst mapping =? cp)%N) upper_case_mappings with
  | Some (_, upper) => upper
  | None => [cp]
  end.

Arguments toUppercase : simpl never.

Definition toUpperCase (s : jsstring) : jsstring :=
  CodePointsToString (flat_map toUppercase (StringToCodePoints s)).

(** [s.replace(/^prefix\s*/, '')] for a literal [prefix]: the match is
    anchored at the start and [\s*] is greedy. *)
Definition replace_prefix_ws (prefix s : jsstring) : jsstring :=
  if startsWith s prefix then trimStart (skipn (length prefix) s) else s.

(** [s.replace(/\s*suffix$/, '')] for a literal [suffix] that begins with a
    code unit that is not white space: the leftmost match starts at the
    beginning of the white space that precedes the final [suffix]. *)
Definition replace_ws_suffix (suffix s : jsstring) : jsstring :=
  if endsWith s suffix
  then trimEnd (firstn (length s - length suffix) s)
  else s.

(** [Array.prototype.join] on strings. *)
Fixpoint join (sep : jsstring) (parts : list jsstring) : jsstring :=
  match parts with
  | [] => []
  | [p] => p
  | p :: rest => p ++ sep ++ join sep rest
  end.

(** The decimal numeral of a natural number, as a template literal prints
    it. *)
Definition decimal (n : N) : jsstring :=
  lit (NilEmpty.string_of_uint (N.to_uint n)).

Definition quote_mark : code_unit := 34%N.
Definition line_feed : code_unit := 10%N.

End JsString.
Import JsString.

(* ================================================================== *)
(** * The pager ([textToPages], Loader.tsx) *)

Module Pager.

(** The [for] loop of [textToPages], one iteration per unit of fuel:
    [i] is the loop index and [pages] the array built so far.  [None] means
    that the loop is still running when the fuel is used up. *)
Fixpoint textToPages_loop (fuel : nat) (text : jsstring) (chunkSize : Z)
                          (i : Z) (pages : list jsstring)
  : option (list jsstring) :=
  match fuel with
  | O => None
  | S fuel' =>
      if i <? jslength text
      then textToPages_loop fuel' text chunkSize (i + chunkSize)
             (pages ++ [substring text i (i + chunkSize)])
      else Some pages
  end.

Definition textToPages_fuel (fuel : nat) (text : jsstring) (chunkSize : Z)
  : option (list jsstring) :=
  textToPages_loop fuel text chunkSize 0 [].

(** With a positive chunk size the loop runs at most [length text] times. *)
Definition textToPages (text : jsstring) (chunkSize : Z)
  : option (list jsstring) :=
  textToPages_fuel (S (length text)) text chunkSize.

Definition PAGE_CHUNK_SIZE : Z := 10000.

End Pager.
Import Pager.

(* ================================================================== *)
(** * JSON values, [JSON.parse] and [JSON.stringify] *)

Module Json.

#[local] Set Warnings "-register-all".

(** A JSON value as [JSON.parse] builds it.  A number is kept as its
    numeral; the members of an object are kept in the order of the text. *)
Inductive JSON : Type :=
| JNull
| JBool (b : bool)
| JNum (numeral : jsstring)
| JStr (s : jsstring)
| JArr (elements : list JSON)
| JObj (members : list (jsstring * JSON)).

Definition isArray (v : JSON) : bool :=
  match v with JArr _ => true | _ => false end.

Definition is_string (v : JSON) : bool :=
  match v with JStr _ => true | _ => false end.

Inductive token : Type :=
| TLBracket | TRBracket | TLBrace | TRBrace | TComma | TColon
| TStr (s : jsstring) | TNum (numeral : jsstring)
| TTrue | TFalse | TNull.

Fixpoint jsstring_eqb (a b : jsstring) : bool :=
  match a, b with
  | [], [] => true
  | x :: a', y :: b' => (x =? y)%N && jsstring_eqb a' b'
  | _, _ => false
  end.

(** ** The lexical grammar *)

Definition is_json_ws (c : code_unit) : bool :=
  ((c =? 9) || (c =? 10) || (c =? 13) || (c =? 32))%N.

Definition is_digit (c : code_unit) : bool := ((48 <=? c) && (c <=? 57))%N.

Definition is_letter (c : code_unit) : bool :=
  ((97 <=? c) && (c <=? 122) || (65 <=? c) && (c <=? 90))%N.

(** The code units a number or a literal name is made of. *)
Definition is_word_char (c : code_unit) : bool :=
  (is_digit c || is_letter c || (c =? 43) || (c =? 45) || (c =? 46))%N.

Definition punctuator (c : code_unit) : option token :=
  (if c =? 91 then Some TLBracket
   else if c =? 93 then Some TRBracket
   else if c =? 123 then Some TLBrace
   else if c =? 125 then Some TRBrace
   else if c =? 44 then Some TComma
   else if c =? 58 then Some TColon
   else None)%N.

Fixpoint skip_digits (s : jsstring) : jsstring :=
  match s with
  | c :: t => if is_digit c then skip_digits t else s
  | [] => []
  end.

Definition is_nil (s : jsstring) : bool :=
  match s with [] => true | _ => false end.

(** [e] or [E], an optional sign, one digit or more. *)
Definition valid_exponent (s : jsstring) : bool :=
  match s with
  | [] => true
  | e :: t =>
      if ((e =? 101) || (e =? 69))%N then
        let t1 := match t with
                  | sg :: t' => if ((sg =? 43) || (sg =? 45))%N then t' else t
                  | [] => []
                  end in
        match t1 with
        | d :: t2 => is_digit d && is_nil (skip_digits t2)
        | [] => false
        end
      else false
  end.

Definition valid_fraction (s : jsstring) : bool :=
  match s with
  | p :: t =>
      if (p =? 46)%N then
        match t with
        | d :: t' => is_digit d && valid_exponent (skip_digits t')
        | [] => false
        end
      else valid_exponent s
  | [] => true
  end.

(** An optional minus sign; [0], or a digit other than [0] and any digits;
    an optional fraction; an optional exponent. *)
Definition valid_number (w : jsstring) : bool :=
  let w1 := match w with
            | m :: t => if (m =? 45)%N then t else w
            | [] => []
            end in
  match w1 with
  | d :: t =>
      if (d =? 48)%N then valid_fraction t
      else if is_digit d then valid_fraction (skip_digits t)
      else false
  | [] => false
  end.

Definition word_token (w : jsstring) : option token :=
  if jsstring_eqb w (lit "true") then Some TTrue
  else if jsstring_eqb w (lit "false") then Some TFalse
  else if jsstring_eqb w (lit "null") then Some TNull
  else if valid_number w then Some (TNum w)
  else None.

Definition unescape (c : code_unit) : option code_unit :=
  (if c =? 34 then Some 34
   else if c =? 92 then Some 92
   else if c =? 47 then Some 47
   else if c =? 98 then Some 8
   else if c =? 102 then Some 12
   else if c =? 110 then Some 10
   else if c =? 114 then Some 13
   else if c =? 116 then Some 9
   else None)%N.

Definition hex_value (c : code_unit) : option N :=
  (if is_digit c then Some (c - 48)
   else if (97 <=? c) && (c <=? 102) then Some (c - 87)
   else if (65 <=? c) && (c <=? 70) then Some (c - 55)
   else None)%N.

(** The lexer reads the text one code unit at a time. *)
Inductive lex_mode : Type :=
| LTop
| LWord (w : jsstring)
| LStr (acc : jsstring)
| LEsc (acc : jsstring)
| LHex (acc : jsstring) (digits : nat) (value : N).

Definition lex_state : Type := (lex_mode * list token)%type.

Definition lex_top (toks : list token) (c : code_unit) : option lex_state :=
  if is_json_ws c then Some (LTop, toks)
  else if (c =? 34)%N then Some (LStr [], toks)
  else match punctuator c with
       | Some t => Some (LTop, toks ++ [t])
       | None => if is_word_char c then Some (LWord [c], toks) else None
       end.

Definition lex_step (st : lex_state) (c : code_unit) : option lex_state :=
  let '(mode, toks) := st in
  match mode with
  | LTop => lex_top toks c
  | LWord w =>
      if is_word_char c then Some (LWord (w ++ [c]), toks)
      else match word_token w with
           | Some t => lex_top (toks ++ [t]) c
           | None => None
           end
  | LStr acc =>
      if (c =? 34)%N then Some (LTop, toks ++ [TStr acc])
      else if (c =? 92)%N then Some (LEsc acc, toks)
      else if (c <? 32)%N then None
      else Some (LStr (acc ++ [c]), toks)
  | LEsc acc =>
      match unescape c with
      | Some u => Some (LStr (acc ++ [u]), toks)
      | None => if (c =? 117)%N then Some (LHex acc 0 0%N, toks) else None
      end
  | LHex acc digits value =>
      match hex_value c with
      | Some d =>
          let value' := (16 * value + d)%N in
          if (digits =? 3)%nat then Some (LStr (acc ++ [value']), toks)
          else Some (LHex acc (S digits) value', toks)
      | None => None
      end
  end.

(** Once the lexer has failed it stays failed. *)
Definition lex_advance (st : option lex_state) (c : code_unit)
  : option lex_state :=
  match st with
  | Some s => lex_step s c
  | None => None
  end.

Definition lex_run (text : jsstring) (st : option lex_state)
  : option lex_state :=
  fold_left lex_advance text st.

Definition lex_finish (st : option lex_state) : option (list token) :=
  match st with
  | Some (LTop, toks) => Some toks
  | Some (LWord w, toks) =>
      match word_token w with
      | Some t => Some (toks ++ [t])
      | None => None
      end
  | _ => None
  end.

Definition lex (text : jsstring) : option (list token) :=
  lex_finish (lex_run text (Some (LTop, []))).

(** ** The syntactic grammar *)

Fixpoint parse_value (fuel : nat) (ts : list token) {struct fuel}
  : option (JSON * list token) :=
  match fuel with
  | O => None
  | S fuel' =>
      match ts with
      | TNull :: r => Some (JNull, r)
      | TTrue :: r => Some (JBool true, r)
      | TFalse :: r => Some (JBool false, r)
      | TNum n :: r => Some (JNum n, r)
      | TStr s :: r => Some (JStr s, r)
      | TLBracket :: TRBracket :: r => Some (JArr [], r)
      | TLBracket :: r =>
          match parse_elements fuel' r with
          | Some (vs, r') => Some (JArr vs, r')
          | None => None
          end
      | TLBrace :: TRBrace :: r => Some (JObj [], r)
      | TLBrace :: r =>
          match parse_members fuel' r with
          | Some (ms, r') => Some (JObj ms, r')
          | None => None
          end
      | _ => None
      end
  end
with parse_elements (fuel : nat) (ts : list token) {struct fuel}
  : option (list JSON * list token) :=
  match fuel with
  | O => None
  | S fuel' =>
      match parse_value fuel' ts with
      | Some (v, TComma :: r) =>
          match parse_elements fuel' r with
          | Some (vs, r') => Some (v :: vs, r')
          | None => None
          end
      | Some (v, TRBracket :: r) => Some ([v], r)
      | _ => None
      end
  end
with parse_members (fuel : nat) (ts : list token) {struct fuel}
  : option (list (jsstring * JSON) * list token) :=
  match fuel with
  | O => None
  | S fuel' =>
      match ts with
      | TStr k :: TColon :: r =>
          match parse_value fuel' r with
          | Some (v, TComma :: r') =>
              match parse_members fuel' r' with
              | Some (ms, r'') => Some ((k, v) :: ms, r'')
              | None => None
              end
          | Some (v, TRBrace :: r') => Some ([(k, v)], r')
          | _ => None
          end
      | _ => None
      end
  end.

(** [JSON.parse(text)]; [None] stands for the [SyntaxError] it throws.  A
    value of [n] tokens is parsed within [n] nested calls. *)
Definition JSON_parse (text : jsstring) : option JSON :=
  match lex text with
  | Some ts =>
      match parse_value (S (length ts)) ts with
      | Some (v, []) => Some v
      | _ => None
      end
  | None => None
  end.

(** ** Property access and conversion to a string *)

(** [obj[key]] on a parsed object: the last member of that name wins. *)
Fixpoint lookup (key : jsstring) (members : list (jsstring * JSON))
  : option JSON :=
  match members with
  | [] => None
  | (k, v) :: rest =>
      match lookup key rest with
      | Some v' => Some v'
      | None => if jsstring_eqb k key then Some v else None
      end
  end.

Definition get_property (v : JSON) (key : jsstring) : option JSON :=
  match v with
  | JObj members => lookup key members
  | _ => None
  end.

(** [!data] *)
Definition falsy (v : JSON) : bool :=
  match v with
  | JNull => true
  | JBool b => negb b
  | JStr s => is_nil s
  | _ => false
  end.

Section Numbers.

(** [Number::toString] of the double that a numeral denotes. *)
Variable NumberToString : jsstring -> jsstring.

(** [ToString(v)], the conversion a template literal applies, for a value
    read by [JSON.parse] in which no object that is converted has a member
    named toString: [Object.prototype.toString] gives [object Object] then,
    and [Array.prototype.join] converts the elements of an array.  (A member
    of that name is not a function, and the conversion of such an object
    throws a [TypeError].) *)
Fixpoint ToString (v : JSON) : jsstring :=
  match v with
  | JNull => lit "null"
  | JBool true => lit "true"
  | JBool false => lit "false"
  | JNum n => NumberToString n
  | JStr s => s
  | JArr elements =>
      join (lit ",")
           (map (fun e => match e with JNull => [] | _ => ToString e end)
                elements)
  | JObj _ => lit "[object Object]"
  end.

(** ** [JSON.stringify] *)

Definition hex_digit (d : N) : code_unit :=
  (if d <? 10 then 48 + d else 87 + d)%N.

Definition unicode_escape (c : code_unit) : jsstring :=
  [92; 117; hex_digit (c / 4096 mod 16); hex_digit (c / 256 mod 16);
   hex_digit (c / 16 mod 16); hex_digit (c mod 16)]%N.

Definition is_high_surrogate (c : code_unit) : bool :=
  ((55296 <=? c) && (c <=? 56319))%N.

Definition is_low_surrogate (c : code_unit) : bool :=
  ((56320 <=? c) && (c <=? 57343))%N.

Definition escape_unit (c : code_unit) : jsstring :=
  (if c =? 8 then [92; 98]
   else if c =? 9 then [92; 116]
   else if c =? 10 then [92; 110]
   else if c =? 12 then [92; 102]
   else if c =? 13 then [92; 114]
   else if c =? 34 then [92; 34]
   else if c =? 92 then [92; 92]
   else if c <? 32 then unicode_escape c
   else [c])%N.

(** The characters of [QuoteJSONString]: a surrogate pair is copied, a lone
    surrogate is escaped. *)
Fixpoint quote_units (s : jsstring) : jsstring :=
  match s with
  | [] => []
  | c :: t =>
      if is_high_surrogate c then
        match t with
        | d :: t' =>
            if is_low_surrogate d then c :: d :: quote_units t'
            else unicode_escape c ++ quote_units t
        | [] => unicode_escape c
        end
      else if is_low_surrogate c then unicode_escape c ++ quote_units t
      else escape_unit c ++ quote_units t
  end.

Definition QuoteJSONString (s : jsstring) : jsstring :=
  [quote_mark] ++ quote_units s ++ [quote_mark].

Fixpoint JSON_stringify (v : JSON) : jsstring :=
  match v with
  | JNull => lit "null"
  | JBool true => lit "true"
  | JBool false => lit "false"
  | JNum n => NumberToString n
  | JStr s => QuoteJSONString s
  | JArr elements =>
      lit "[" ++ join (lit ",") (map JSON_stringify elements) ++ lit "]"
  | JObj members =>
      lit "{"
      ++ join (lit ",")
           (map (fun m => QuoteJSONString (fst m) ++ lit ":"
                          ++ JSON_stringify (snd m)) members)
      ++ lit "}"
  end.

End Numbers.

End Json.
Import Json.

(* ================================================================== *)
(** * The response parser ([safeJsonParse], geminiService.ts) *)

Module ResponseParser.

Definition fence : jsstring := lit "```".
Definition fence_json : jsstring := lit "```json".

Definition sanitize (text : jsstring) : jsstring :=
  replace_ws_suffix fence
    (replace_prefix_ws fence
       (replace_prefix_ws fence_json (trim text))).

Definition safeJsonParse (text : jsstring) : JSON :=
  let sanitized := sanitize text in
  match JSON_parse sanitized with
  | Some v => v
  | None => JArr []
  end.

End ResponseParser.
Import ResponseParser.

(* ================================================================== *)
(** * Exceptions and the outside world *)

Module Effects.

(** What the [catch] clauses of the source tell apart in a thrown value:
    [instanceof TypeError], [instanceof OllamaConnectionError], any other
    [Error], or a value that is not an [Error] at all.  [err_message] is the
    text of its [message] property as a template literal prints it. *)
Inductive error_class : Type :=
| TypeError
| OllamaConnectionError
| OtherError
| NotAnError.

Record JsError : Type := mkJsError
  { err_class : error_class;
    err_message : jsstring }.

Inductive Outcome (A : Type) : Type :=
| Returned (a : A)
| Thrown (e : JsError).
Arguments Returned {A} a.
Arguments Thrown {A} e.

(** The request that [callOllama] posts. *)
Record OllamaRequest : Type := mkRequest
  { req_url : jsstring;
    req_model : jsstring;
    req_prompt : jsstring;
    req_stream : bool;
    req_format : option jsstring;
    req_temperature : jsstring;
    req_num_ctx : N }.

(** What the source reads of a [Response]: [ok], [status], and the results
    of [text()] and of [json()]. *)
Record Response : Type := mkResponse
  { ok : bool;
    status : N;
    text : Outcome jsstring;
    json : Outcome JSON }.

End Effects.
Import Effects.

(* ================================================================== *)
(** * The pipeline *)

Section Pipeline.

(** The state of everything outside the program, and [fetch] on it: the
    backend may answer each request as it likes. *)
Variable World : Type.
Variable fetch : World -> OllamaRequest -> Outcome Response * World.

(** An uploaded [File] and the decoder of Loader.tsx, which rests on the
    browser ([FileReader], [DOMParser], mammoth, pdf.js). *)
Variable File : Type.

Record FileContent : Type := mkFileContent
  { name : jsstring;
    content : jsstring }.

Variable readFileContent : File -> Outcome FileContent.

Variable NumberToString : jsstring -> jsstring.

(** ** Sequential computations that may throw *)

(** The program state that matters here: the world, and the requests sent
    to the backend so far, oldest first. *)
Record State : Type := mkState
  { world : World;
    calls : list OllamaRequest }.

Definition M (A : Type) : Type := State -> Outcome A * State.

Definition ret {A} (a : A) : M A := fun st => (Returned a, st).

Definition throw {A} (e : JsError) : M A := fun st => (Thrown e, st).

Definition bind {A B} (m : M A) (k : A -> M B) : M B :=
  fun st =>
    match m st with
    | (Returned a, st') => k a st'
    | (Thrown e, st') => (Thrown e, st')
    end.

Definition try_catch {A} (m : M A) (handler : JsError -> M A) : M A :=
  fun st =>
    match m st with
    | (Returned a, st') => (Returned a, st')
    | (Thrown e, st') => handler e st'
    end.

Notation "x <- m ;; k" := (bind m (fun x => k))
  (at level 61, m at next level, right associativity).

(** ** The language-model client ([callOllama]) *)

Definition OLLAMA_API_URL : jsstring := lit "http://127.0.0.1:11434/api/generate".
Definition OLLAMA_MODEL : jsstring := lit "gpt-oss:20b".

Definition nl : jsstring := [line_feed].
Definition dq : jsstring := [quote_mark].

Definition is_connection_error (e : JsError) : bool :=
  match err_class e with
  | OllamaConnectionError => true
  | _ => false
  end.

Definition connection_failed_message : jsstring :=
  lit "Connection Failed: Could not reach Ollama at " ++ OLLAMA_API_URL
  ++ lit "." ++ nl ++ nl
  ++ lit "POSSIBLE CAUSES & FIXES:" ++ nl
  ++ lit "1. Ollama is not running." ++ nl
  ++ lit "   -> Fix: Start Ollama in your terminal." ++ nl ++ nl
  ++ lit "2. CORS is blocking the browser request." ++ nl
  ++ lit "   -> Fix: Run one of these commands to allow browser access:"
  ++ nl ++ nl
  ++ lit "   Mac/Linux:" ++ nl
  ++ lit "   OLLAMA_ORIGINS=" ++ dq ++ lit "*" ++ dq ++ lit " ollama serve"
  ++ nl ++ nl
  ++ lit "   Windows (PowerShell):" ++ nl
  ++ lit "   $env:OLLAMA_ORIGINS=" ++ dq ++ lit "*" ++ dq
  ++ lit "; ollama serve" ++ nl ++ nl
  ++ lit "   Windows (Command Prompt):" ++ nl
  ++ lit "   set OLLAMA_ORIGINS=* && ollama serve" ++ nl ++ nl
  ++ lit "3. The model '" ++ OLLAMA_MODEL ++ lit "' is not pulled." ++ nl
  ++ lit "   -> Fix: Run: ollama pull " ++ OLLAMA_MODEL.

Definition invalid_response_format : JsError :=
  mkJsError OtherError (lit "Invalid response format from Ollama").

Definition ollama_request (prompt : jsstring) (jsonMode : bool)
  : OllamaRequest :=
  {| req_url := OLLAMA_API_URL;
     req_model := OLLAMA_MODEL;
     req_prompt := prompt;
     req_stream := false;
     req_format := if jsonMode then Some (lit "json") else None;
     req_temperature := lit "0.2";
     req_num_ctx := 4096 |}.

(** The [try] block of [callOllama], from the outcome of [fetch] on. *)
Definition callOllama_try (fetched : Outcome Response) : Outcome jsstring :=
  match fetched with
  | Thrown e => Thrown e
  | Returned response =>
      if negb (ok response) then
        match text response with
        | Thrown e => Thrown e
        | Returned errorText =>
            Thrown (mkJsError OtherError
                      (lit "Ollama API Error (" ++ decimal (status response)
                       ++ lit "): " ++ errorText))
        end
      else
        match json response with
        | Thrown e => Thrown e
        | Returned data =>
            if falsy data then Thrown invalid_response_format
            else match get_property data (lit "response") with
                 | Some (JStr s) => Returned s
                 | _ => Thrown invalid_response_format
                 end
        end
  end.

Definition isNetworkError (error : JsError) : bool :=
  match err_class error with
  | TypeError => true
  | NotAnError => false
  | _ => includes (err_message error) (lit "fetch")
         || includes (err_message error) (lit "Network")
  end.

(** The [catch] block of [callOllama]: what it throws for what it caught. *)
Definition callOllama_catch (error : JsError) : JsError :=
  if is_connection_error error then error
  else if isNetworkError error
       then mkJsError OllamaConnectionError connection_failed_message
       else mkJsError OtherError
              (lit "Failed to connect to Ollama: " ++ err_message error).

Definition callOllama (prompt : jsstring) (jsonMode : bool) : M jsstring :=
  fun st =>
    let request := ollama_request prompt jsonMode in
    let '(fetched, w) := fetch (world st) request in
    let st' := {| world := w; calls := calls st ++ [request] |} in
    match callOllama_try fetched with
    | Returned responseText => (Returned responseText, st')
    | Thrown error => (Thrown (callOllama_catch error), st')
    end.

(** ** The section extractor ([extractSectionsFromDocument]) *)

Definition sections_prompt (page : jsstring) : jsstring :=
  nl
  ++ lit "      Analyze the following page of a document. Identify and extract all distinct, self-contained logical sections or requirements from this text." ++ nl
  ++ lit "      Return a valid JSON array of strings, where each string is the exact text of a section you found." ++ nl
  ++ lit "      If no complete sections are found on this page, return an empty array []." ++ nl
  ++ nl
  ++ lit "      Document Page:" ++ nl
  ++ lit "      ---" ++ nl
  ++ lit "      " ++ page ++ nl
  ++ lit "      ---" ++ nl
  ++ lit "    ".

(** One iteration of the loop over the pages: the [try] statement. *)
Definition extract_page (page : jsstring) (allSections : list JSON)
  : M (list JSON) :=
  try_catch
    (responseText <- callOllama (sections_prompt page) true ;;
     let sectionsOnPage := safeJsonParse responseText in
     match sectionsOnPage with
     | JArr elements => ret (allSections ++ elements)
     | _ => ret allSections
     end)
    (fun error =>
       if is_connection_error error then throw error
       else ret allSections).

Fixpoint extract_loop (documentPages : list jsstring)
                      (allSections : list JSON) : M (list JSON) :=
  match documentPages with
  | [] => ret allSections
  | page :: rest =>
      allSections' <- extract_page page allSections ;;
      extract_loop rest allSections'
  end.

Definition extractSectionsFromDocument (documentPages : list jsstring)
  : M (list JSON) :=
  extract_loop documentPages [].

(** ** The section matcher ([findMatchingSection]) *)

Definition relevance_prompt (rfpSection : JSON) (page : jsstring)
  : jsstring :=
  nl
  ++ lit "      RFP Requirement: " ++ dq ++ ToString NumberToString rfpSection
  ++ dq ++ nl
  ++ lit "      " ++ nl
  ++ lit "      Proposal Text Snippet: " ++ dq ++ page ++ dq ++ nl
  ++ lit "      " ++ nl
  ++ lit "      Does the Proposal Text Snippet likely contain the specific answer to the RFP Requirement?" ++ nl
  ++ lit "      Respond with only " ++ dq ++ lit "YES" ++ dq ++ lit " or "
  ++ dq ++ lit "NO" ++ dq ++ lit "." ++ nl
  ++ lit "    ".

Definition extractionPrompt (rfpSection : JSON)
                            (combinedRelevantText : jsstring) : jsstring :=
  nl
  ++ lit "    You will be given a specific requirement from an RFP and a block of relevant text from a proposal." ++ nl
  ++ lit "    Your task is to extract the single, complete, and exact section from the proposal text that directly answers the RFP requirement." ++ nl
  ++ lit "    Return only the text of the proposal section, with no extra commentary." ++ nl
  ++ nl
  ++ lit "    RFP Requirement:" ++ nl
  ++ lit "    ---" ++ nl
  ++ lit "    " ++ ToString NumberToString rfpSection ++ nl
  ++ lit "    ---" ++ nl
  ++ nl
  ++ lit "    Relevant Proposal Text:" ++ nl
  ++ lit "    ---" ++ nl
  ++ lit "    " ++ combinedRelevantText ++ nl
  ++ lit "    ---" ++ nl
  ++ lit "  ".

Definition relevance_request (rfpSection : JSON) (page : jsstring)
  : OllamaRequest :=
  ollama_request (relevance_prompt rfpSection page) false.

(** The test of the relevance phase on the text of a response. *)
Definition says_yes (responseText : jsstring) : bool :=
  includes (toUpperCase (trim responseText)) (lit "YES").

(** One iteration of the relevance loop: the [try] statement. *)
Definition relevance_page (rfpSection : JSON) (page : jsstring)
                          (relevantPages : list jsstring)
  : M (list jsstring) :=
  try_catch
    (responseText <- callOllama (relevance_prompt rfpSection page) false ;;
     if says_yes responseText
     then ret (relevantPages ++ [page])
     else ret relevantPages)
    (fun error =>
       if is_connection_error error then throw error
       else ret relevantPages).

Fixpoint relevance_loop (rfpSection : JSON) (proposalPages : list jsstring)
                        (relevantPages : list jsstring)
  : M (list jsstring) :=
  match proposalPages with
  | [] => ret relevantPages
  | page :: rest =>
      relevantPages' <- relevance_page rfpSection page relevantPages ;;
      relevance_loop rfpSection rest relevantPages'
  end.

Definition page_separator : jsstring :=
  nl ++ nl ++ lit "---" ++ nl ++ nl.

(** [responseText.trim() || null] *)
Definition trimmed_or_null (responseText : jsstring) : option jsstring :=
  if is_nil (trim responseText) then None else Some (trim responseText).

Definition findMatchingSection (rfpSection : JSON)
                               (proposalPages : list jsstring)
  : M (option jsstring) :=
  relevantPages <- relevance_loop rfpSection proposalPages [] ;;
  if (length relevantPages =? 0)%nat then ret None
  else
    let combinedRelevantText := join page_separator relevantPages in
    try_catch
      (responseText <-
         callOllama (extractionPrompt rfpSection combinedRelevantText) false ;;
       ret (trimmed_or_null responseText))
      (fun error =>
         if is_connection_error error then throw error
         else ret None).

(** ** The orchestrator ([handleGenerateJsonl], Loader.tsx) *)

Record DocumentPair : Type := mkDocumentPair
  { id : Z;
    rfp : list File;
    proposal : option File }.

(** [p.rfp.length > 0 && p.proposal] *)
Definition is_complete (p : DocumentPair) : bool :=
  (0 <? length (rfp p))%nat
  && match proposal p with Some _ => true | None => false end.

Definition completedPairs (documentPairs : list DocumentPair)
  : list DocumentPair :=
  filter is_complete documentPairs.

Record Chunk : Type := mkChunk
  { rfp_section : JSON;
    proposal_section : jsstring }.

Definition lift {A} (o : Outcome A) : M A := fun st => (o, st).

(** [Promise.all(pair.rfp.map(readFileContent))]; of several failures the
    one of the earliest file is kept. *)
Fixpoint read_all (files : list File) : Outcome (list FileContent) :=
  match files with
  | [] => Returned []
  | file :: rest =>
      match readFileContent file, read_all rest with
      | Thrown e, _ => Thrown e
      | Returned _, Thrown e => Thrown e
      | Returned c, Returned cs => Returned (c :: cs)
      end
  end.

(** [readFileContent(pair.proposal!)]; reading the name of [null] is a
    [TypeError]. *)
Definition read_proposal (file : option File) : Outcome FileContent :=
  match file with
  | Some f => readFileContent f
  | None => Thrown (mkJsError TypeError
                      (lit "Cannot read properties of null (reading 'name')"))
  end.

Definition rfp_file_text (c : FileContent) : jsstring :=
  lit "--- RFP File: " ++ name c ++ lit " ---" ++ nl ++ content c.

(** [textToPages(..., PAGE_CHUNK_SIZE)]: the chunk size is positive, so the
    loop ends within the fuel of [textToPages]. *)
Definition pages_of (text : jsstring) : list jsstring :=
  match textToPages text PAGE_CHUNK_SIZE with
  | Some pages => pages
  | None => []
  end.

(** The loop over the sections of one pair. *)
Fixpoint match_sections (rfpSections : list JSON)
                        (proposalPages : list jsstring)
                        (allFinalChunks : list Chunk) : M (list Chunk) :=
  match rfpSections with
  | [] => ret allFinalChunks
  | rfpSection :: rest =>
      proposalSection <- findMatchingSection rfpSection proposalPages ;;
      match proposalSection with
      | Some answer =>
          if is_nil answer
          then match_sections rest proposalPages allFinalChunks
          else match_sections rest proposalPages
                 (allFinalChunks
                  ++ [{| rfp_section := rfpSection;
                         proposal_section := answer |}])
      | None => match_sections rest proposalPages allFinalChunks
      end
  end.

(** The body of the loop over the complete pairs. *)
Definition process_pair (pair : DocumentPair) (allFinalChunks : list Chunk)
  : M (list Chunk) :=
  rfpContents <- lift (read_all (rfp pair)) ;;
  let combinedRfpContent :=
    join (nl ++ nl) (map rfp_file_text rfpContents) in
  proposalContent <- lift (read_proposal (proposal pair)) ;;
  let rfpPages := pages_of combinedRfpContent in
  let proposalPages := pages_of (content proposalContent) in
  rfpSections <- extractSectionsFromDocument rfpPages ;;
  if (length rfpSections =? 0)%nat then ret allFinalChunks
  else match_sections rfpSections proposalPages allFinalChunks.

Fixpoint process_pairs (pairs : list DocumentPair)
                       (allFinalChunks : list Chunk) : M (list Chunk) :=
  match pairs with
  | [] => ret allFinalChunks
  | current :: rest =>
      allFinalChunks' <- process_pair current allFinalChunks ;;
      process_pairs rest allFinalChunks'
  end.

(** [JSON.stringify(entry)] for one chunk. *)
Definition entry (chunk : Chunk) : JSON :=
  JObj [(lit "messages",
         JArr [JObj [(lit "role", JStr (lit "user"));
                     (lit "content",
                      JStr (lit "Write a proposal section based on this RFP section:"
                            ++ nl ++ nl
                            ++ ToString NumberToString (rfp_section chunk)))];
               JObj [(lit "role", JStr (lit "assistant"));
                     (lit "content", JStr (proposal_section chunk))]])].

Definition jsonlContent (allFinalChunks : list Chunk) : list jsstring :=
  map (fun chunk => JSON_stringify NumberToString (entry chunk))
      allFinalChunks.

(** The text of the blob that is offered for download. *)
Definition dataset (allFinalChunks : list Chunk) : jsstring :=
  join nl (jsonlContent allFinalChunks).

(** What a run leaves on the screen: an error message, or the dataset and
    the number of its entries. *)
Inductive RunResult : Type :=
| ErrorShown (message : jsstring)
| DownloadReady (blob : jsstring) (generatedEntries : nat).

Definition handleGenerateJsonl (documentPairs : list DocumentPair)
  : State -> RunResult * State :=
  fun st =>
    let completed := completedPairs documentPairs in
    if (length completed =? 0)%nat then
      (ErrorShown
         (lit "Please provide at least one complete RFP and Proposal pair."),
       st)
    else
      match process_pairs completed [] st with
      | (Returned allFinalChunks, st') =>
          if (length allFinalChunks =? 0)%nat then
            (ErrorShown
               (lit "The AI model could not extract any valid sections from your documents. Please check the document content and try again."),
             st')
          else
            (DownloadReady (dataset allFinalChunks)
                           (length (jsonlContent allFinalChunks)),
             st')
      | (Thrown e, st') =>
          (ErrorShown
             (match err_class e with
              | NotAnError =>
                  lit "An unknown error occurred during file processing."
              | _ => err_message e
              end),
           st')
      end.

End Pipeline.

(* ================================================================== *)
(** * Definitions used to state the properties *)

Arguments callOllama {World} fetch prompt jsonMode st.
Arguments extract_page {World} fetch page allSections st.
Arguments extract_loop {World} fetch documentPages allSections st.
Arguments extractSectionsFromDocument {World} fetch documentPages st.
Arguments relevance_page {World} fetch NumberToString rfpSection page relevantPages st.
Arguments relevance_loop {World} fetch NumberToString rfpSection proposalPages relevantPages st.
Arguments findMatchingSection {World} fetch NumberToString rfpSection proposalPages st.
Arguments mkState {World} world calls.
Arguments world {World} s.
Arguments calls {World} s.

Arguments handleGenerateJsonl {World} fetch {File} readFileContent NumberToString documentPairs st.
Arguments process_pairs {World} fetch {File} readFileContent NumberToString pairs allFinalChunks st.
Arguments completedPairs {File} documentPairs.
Arguments is_complete {File} p.
Arguments mkDocumentPair {File} id rfp proposal.
Arguments rfp {File} d.
Arguments proposal {File} d.

Definition white_space_units : list code_unit :=
  [9; 10; 11; 12; 13; 32; 160; 5760; 8192; 8193; 8194; 8195; 8196; 8197;
   8198; 8199; 8200; 8201; 8202; 8232; 8233; 8239; 8287; 12288; 65279]%N.

(** A code unit that may stand between two tokens at most: it is no part of
    a word, of a punctuator or of an escape, and it does not delimit a
    string.  White space and the backquote are of this kind. *)
Definition inert (c : code_unit) : Prop :=
  is_word_char c = false /\ (c =? 34)%N = false /\ (c =? 92)%N = false
  /\ punctuator c = None /\ unescape c = None /\ (c =? 117)%N = false
  /\ hex_value c = None.

Definition all_white_space (s : jsstring) : bool := forallb is_white_space s.

(** A fenced text: white space, an opening fence, white space, the body,
    white space, the closing fence, white space. *)
Definition fenced (opener ws0 ws1 body ws2 ws3 : jsstring) : jsstring :=
  ws0 ++ opener ++ ws1 ++ body ++ ws2 ++ fence ++ ws3.

(** Fuel [k] is enough for whatever the parser does with fuel [f]. *)
Definition value_fuel_bound (f : nat) : Prop :=
  forall ts v r,
    parse_value f ts = Some (v, r) ->
    exists k, length ts = (k + length r)%nat /\ (1 <= k)%nat
              /\ forall f', (k <= f')%nat -> parse_value f' ts = Some (v, r).

Definition elements_fuel_bound (f : nat) : Prop :=
  forall ts vs r,
    parse_elements f ts = Some (vs, r) ->
    exists k, length ts = (k + length r)%nat /\ (1 <= k)%nat
              /\ forall f', (k <= f')%nat -> parse_elements f' ts = Some (vs, r).

Definition members_fuel_bound (f : nat) : Prop :=
  forall ts ms r,
    parse_members f ts = Some (ms, r) ->
    exists k, length ts = (k + length r)%nat /\ (1 <= k)%nat
              /\ forall f', (k <= f')%nat -> parse_members f' ts = Some (ms, r).

(** The tokens of the elements of an array of strings. *)
Fixpoint string_tokens (l : list jsstring) : list token :=
  match l with
  | [] => []
  | [s] => [TStr s]
  | s :: rest => TStr s :: TComma :: string_tokens rest
  end.

(** The letters whose upper case begins with S: S and s, the long s, the
    sharp s (its upper case is SS), and the ligatures of the long s with t
    and of s with t (their upper case is ST). *)
Definition upper_case_begins_with_S (c : code_unit) : Prop :=
  (c = 83 \/ c = 115 \/ c = 383 \/ c = 223 \/ c = 64261 \/ c = 64262)%N.

(** The words of the specification: the string contains YES without regard
    to case, that is, next to each other, the letter Y, the letter E and a
    letter whose upper case begins with S, each in either case. *)
Definition contains_yes_ignoring_case (s : jsstring) : Prop :=
  exists before y e s' rest,
    s = before ++ y :: e :: s' :: rest
    /\ (y = 89 \/ y = 121)%N
    /\ (e = 69 \/ e = 101)%N
    /\ upper_case_begins_with_S s'.

Definition no_line_feed (s : jsstring) : Prop :=
  Forall (fun c => c <> line_feed) s.

(** [String.prototype.split] at a separating code unit. *)
Fixpoint split_on (sep : code_unit) (s : jsstring) : list jsstring :=
  match s with
  | [] => [[]]
  | c :: t =>
      if (c =? sep)%N then [] :: split_on sep t
      else match split_on sep t with
           | line :: lines => (c :: line) :: lines
           | [] => [[c]]
           end
  end.

(** The words of the specification: the line of one record, the JSON text
    of the object with the two messages, without any white space between
    its tokens. *)
Definition training_line (requirement answer : jsstring) : jsstring :=
  lit "{" ++ dq ++ lit "messages" ++ dq ++ lit ":[{"
  ++ dq ++ lit "role" ++ dq ++ lit ":" ++ dq ++ lit "user" ++ dq ++ lit ","
  ++ dq ++ lit "content" ++ dq ++ lit ":"
  ++ QuoteJSONString
       (lit "Write a proposal section based on this RFP section:"
        ++ nl ++ nl ++ requirement)
  ++ lit "},{"
  ++ dq ++ lit "role" ++ dq ++ lit ":" ++ dq ++ lit "assistant" ++ dq
  ++ lit ","
  ++ dq ++ lit "content" ++ dq ++ lit ":" ++ QuoteJSONString answer
  ++ lit "}]}".

Definition record_chunk (record : jsstring * jsstring) : Chunk :=
  {| rfp_section := JStr (fst record); proposal_section := snd record |}.

Definition record_line (record : jsstring * jsstring) : jsstring :=
  training_line (fst record) (snd record).

(* ================================================================== *)
(** * Backends used in examples *)

(** A backend that answers every request with the same successful response
    carrying the JSON value [data]. *)
Definition answering (data : JSON)
  : unit -> OllamaRequest -> Outcome Response * unit :=
  fun w _ =>
    (Returned {| ok := true; status := 200;
                 text := Returned []; json := Returned data |}, w).

Definition start : State unit := mkState tt [].

Definition missing_field_error : JsError :=
  mkJsError OtherError
    (lit "Failed to connect to Ollama: Invalid response format from Ollama").

(** A backend that fails with status 500 on its first request, is out of
    reach on its third, and answers with an array of one string
    otherwise. *)
Definition flaky (n : nat) (_ : OllamaRequest) : Outcome Response * nat :=
  (match n with
   | 0%nat => Returned {| ok := false; status := 500;
                          text := Returned (lit "boom");
                          json := Returned JNull |}
   | 2%nat => Thrown (mkJsError TypeError (lit "Failed to fetch"))
   | _ => Returned {| ok := true; status := 200; text := Returned [];
                      json := Returned
                                (JObj [(lit "response",
                                        JStr (lit "[" ++ dq ++ lit "s" ++ dq ++ lit "]"))]) |}
   end, S n).

(** A backend that answers every request with the text [answer]. *)
Definition replying (answer : jsstring)
  : unit -> OllamaRequest -> Outcome Response * unit :=
  answering (JObj [(lit "response", JStr answer)]).

(** A backend that answers its first request with the word yes and every later
    request with white space. *)
Definition yes_then_blank (n : nat) (_ : OllamaRequest)
  : Outcome Response * nat :=
  (Returned {| ok := true; status := 200; text := Returned [];
               json := Returned
                         (JObj [(lit "response",
                                 JStr (match n with
                                       | 0%nat => lit "yes"
                                       | _ => lit "  "
                                       end))]) |}, S n).

(** A response of the model: the JSON text of an array that holds the
    number 1, an object with one member and a string. *)
Definition mixed_array_response : jsstring :=
  lit "[1, {" ++ dq ++ lit "a" ++ dq ++ lit ": 2}, " ++ dq ++ lit "s" ++ dq
  ++ lit "]".

Definition mixed_array : list JSON :=
  [JNum (lit "1"); JObj [(lit "a", JNum (lit "2"))]; JStr (lit "s")].

(** The decoder of the examples: a file is its own name and content. *)
Definition plain_file (f : jsstring) : Outcome FileContent :=
  Returned {| name := f; content := f |}.

Definition rfp_text : jsstring :=
  lit "Section A: vendor must provide 24/7 support.".

Definition proposal_text : jsstring :=
  lit "We offer around-the-clock support every day of the year.".

(** The backend of the end-to-end scenario: the first request is answered
    with the array of the one section, the second with YES, the third with
    the sentence of the proposal. *)
Definition scenario_backend (n : nat) (_ : OllamaRequest)
  : Outcome Response * nat :=
  (Returned {| ok := true; status := 200; text := Returned [];
               json := Returned
                         (JObj [(lit "response",
                                 JStr (match n with
                                       | 0%nat => lit "[" ++ dq ++ rfp_text
                                                  ++ dq ++ lit "]"
                                       | 1%nat => lit "YES"
                                       | _ => proposal_text
                                       end))]) |}, S n).

Definition complete_pair : DocumentPair jsstring :=
  mkDocumentPair 1 [rfp_text] (Some proposal_text).

Definition pair_without_proposal : DocumentPair jsstring :=
  mkDocumentPair 2 [rfp_text] None.

(* ================================================================== *)
(** * The decoder of uploaded files ([readFileContent], Loader.tsx) *)

Module FileNames.

(** [toLowerCase] on the ASCII letters.  Outside the ASCII range JavaScript
    consults the Unicode case tables; no code unit there becomes one of the
    letters of txt, md, html, doc, docx or pdf, so that the [switch] on the
    extension takes the same branch. *)
Definition to_lower_unit (c : code_unit) : code_unit :=
  (if (65 <=? c) && (c <=? 90) then c + 32 else c)%N.

Definition toLowerCase (s : jsstring) : jsstring := map to_lower_unit s.

Definition dot : code_unit := 46%N.

(** [file.name.split('.').pop()?.toLowerCase()]: [split] always gives at
    least one piece, so that [pop] is never [undefined]. *)
Definition file_extension (file_name : jsstring) : jsstring :=
  toLowerCase (last (split_on dot file_name) []).

(** The extensions that are read with [readAsArrayBuffer]. *)
Definition is_binary_extension (extension : jsstring) : bool :=
  jsstring_eqb extension (lit "doc")
  || jsstring_eqb extension (lit "docx")
  || jsstring_eqb extension (lit "pdf").

End FileNames.
Import FileNames.

Section Browser.

(** The bytes of a file, and what the browser and the libraries make of
    them: the text of the body of an HTML document ([DOMParser]), the raw
    text of a Word document (mammoth), the text items of the pages of a PDF
    document (pdf.js), an item without [str] being [None]. *)
Variable Buffer : Type.
Variable body_textContent : jsstring -> Outcome (option jsstring).
Variable extractRawText : Buffer -> Outcome jsstring.
Variable pdf_text_items : Buffer -> Outcome (list (list (option jsstring))).

(** What a [FileReader] ends with: its [onerror] event, or its [onload]
    event with [event.target.result], which may be [null]. *)
Inductive Loaded (A : Type) : Type :=
| ReadError
| ReadResult (result : option A).
Arguments ReadError {A}.
Arguments ReadResult {A} result.

(** A [File]: its name and what [readAsText] and [readAsArrayBuffer] end
    with on it. *)
Record BrowserFile : Type := mkBrowserFile
  { file_name : jsstring;
    text_read : Loaded jsstring;
    buffer_read : Loaded Buffer }.

(** The event that [reader.onerror] passes to [reject] is not an [Error]. *)
Definition reader_error : JsError := mkJsError NotAnError (lit "undefined").

Definition could_not_be_read : JsError :=
  mkJsError OtherError (lit "File could not be read.").

Definition process_failed (file_name : jsstring) : JsError :=
  mkJsError OtherError (lit "Failed to process file: " ++ file_name).

Definition unsupported_content : jsstring := lit "Unsupported file type.".

(** The text of a PDF document: the items of a page joined by spaces, the
    pages joined by line feeds. *)
Definition pdf_content (textContents : list (list (option jsstring)))
  : jsstring :=
  join nl
    (map (fun items =>
            join (lit " ")
              (map (fun item => match item with
                                | Some str => str
                                | None => []
                                end) items))
         textContents).

(** The [switch] on the extension, for a result that was read as text. *)
Definition decode_text (extension result : jsstring) : Outcome jsstring :=
  if jsstring_eqb extension (lit "txt") || jsstring_eqb extension (lit "md")
  then Returned result
  else if jsstring_eqb extension (lit "html")
  then match body_textContent result with
       | Returned (Some textContent) => Returned textContent
       | Returned None => Returned []
       | Thrown e => Thrown e
       end
  else Returned unsupported_content.

(** The [switch] on the extension, for a result that was read as an
    [ArrayBuffer]. *)
Definition decode_buffer (extension : jsstring) (result : Buffer)
  : Outcome jsstring :=
  if jsstring_eqb extension (lit "pdf")
  then match pdf_text_items result with
       | Returned textContents => Returned (pdf_content textContents)
       | Thrown e => Thrown e
       end
  else extractRawText result.

(** The end of the [try] statement of [onload]: [resolve] with the trimmed
    content, or [reject] from the [catch] clause. *)
Definition resolve_or_reject (file_name : jsstring)
                             (decoded : Outcome jsstring)
  : Outcome FileContent :=
  match decoded with
  | Returned content =>
      Returned {| name := file_name; content := trim content |}
  | Thrown _ => Thrown (process_failed file_name)
  end.

Definition readFileContent (file : BrowserFile) : Outcome FileContent :=
  let extension := file_extension (file_name file) in
  if is_binary_extension extension then
    match buffer_read file with
    | ReadError => Thrown reader_error
    | ReadResult None => Thrown could_not_be_read
    | ReadResult (Some result) =>
        resolve_or_reject (file_name file) (decode_buffer extension result)
    end
  else
    match text_read file with
    | ReadError => Thrown reader_error
    | ReadResult None => Thrown could_not_be_read
    | ReadResult (Some result) =>
        if is_nil result then Thrown could_not_be_read
        else resolve_or_reject (file_name file) (decode_text extension result)
    end.

End Browser.

Arguments ReadError {A}.
Arguments ReadResult {A} result.
Arguments mkBrowserFile {Buffer} file_name text_read buffer_read.
Arguments file_name {Buffer} b.
Arguments text_read {Buffer} b.
Arguments buffer_read {Buffer} b.
Arguments readFileContent {Buffer} body_textContent extractRawText pdf_text_items file.

(* ================================================================== *)
(** * Editing the document pairs ([handlePairChange], [addPair],
      [removePair], Loader.tsx) *)

Arguments id {File} d.

Section PairEditing.

Context {File : Type}.

(** The parameter [type: 'rfp' | 'proposal']. *)
Inductive pair_field : Type :=
| rfp_field
| proposal_field.

(** [files] is the [FileList] of the input, or [null]; the first file of an
    empty list is [undefined], which counts as no proposal. *)
Definition handlePairChange (changed : Z) (type : pair_field)
                            (files : option (list File))
                            (pairs : list (DocumentPair File))
  : list (DocumentPair File) :=
  map (fun p =>
         if (id p =? changed)%Z then
           match type with
           | rfp_field =>
               mkDocumentPair (id p)
                 (match files with Some fs => fs | None => [] end)
                 (proposal p)
           | proposal_field =>
               mkDocumentPair (id p) (rfp p)
                 (match files with
                  | Some fs => hd_error fs
                  | None => None
                  end)
           end
         else p)
      pairs.

(** [now] is the value of [Date.now()]. *)
Definition addPair (now : Z) (pairs : list (DocumentPair File))
  : list (DocumentPair File) :=
  pairs ++ [mkDocumentPair now [] None].

Definition removePair (removed : Z) (pairs : list (DocumentPair File))
  : list (DocumentPair File) :=
  filter (fun p => negb (id p =? removed)%Z) pairs.

End PairEditing.

(* ================================================================== *)
(** * Further definitions used to state properties *)

(** The message of the error that the [try] block throws for a status that
    is not a success. *)
Definition api_error_message (status : N) (body : jsstring) : jsstring :=
  lit "Ollama API Error (" ++ decimal status ++ lit "): " ++ body.

(** A backend whose error page mentions the network. *)
Definition gateway_error (w : unit) (_ : OllamaRequest)
  : Outcome Response * unit :=
  (Returned {| ok := false; status := 502;
               text := Returned (lit "Bad Gateway: Network unreachable");
               json := Returned JNull |}, w).


(** The request that the section extractor sends for a page. *)
Definition sections_request (page : jsstring) : OllamaRequest :=
  ollama_request (sections_prompt page) true.

(** A response of the model in JSON mode: an object that holds the array of
    the sections, where an array was asked for. *)
Definition wrapped_array_response : jsstring :=
  lit "{" ++ dq ++ lit "sections" ++ dq ++ lit ": [" ++ dq ++ lit "s" ++ dq
  ++ lit "]}".

(** [l1] is [l2] with some of its elements left out. *)
Inductive Subsequence {A : Type} : list A -> list A -> Prop :=
| Subsequence_nil : Subsequence [] []
| Subsequence_skip x l1 l2 : Subsequence l1 l2 -> Subsequence l1 (x :: l2)
| Subsequence_take x l1 l2 :
    Subsequence l1 l2 -> Subsequence (x :: l1) (x :: l2).

(** The request of the extraction phase for the pages judged relevant. *)
Definition extraction_request (NumberToString : jsstring -> jsstring)
                              (rfpSection : JSON)
                              (relevantPages : list jsstring)
  : OllamaRequest :=
  ollama_request
    (extractionPrompt NumberToString rfpSection
       (join page_separator relevantPages)) false.

(** A backend that answers its first request with the word yes, its second
    with no and every later one with an answer between blanks. *)
Definition yes_no_answer (n : nat) (_ : OllamaRequest)
  : Outcome Response * nat :=
  (Returned {| ok := true; status := 200; text := Returned [];
               json := Returned
                         (JObj [(lit "response",
                                 JStr (match n with
                                       | 0%nat => lit "yes"
                                       | 1%nat => lit "no"
                                       | _ => lit "  the answer  "
                                       end))]) |}, S n).

Arguments process_pair {World} fetch {File} readFileContent NumberToString pair allFinalChunks st.
Arguments match_sections {World} fetch NumberToString rfpSections proposalPages allFinalChunks st.
Arguments read_all {File} readFileContent files.
Arguments read_proposal {File} readFileContent file.

(** What [handleGenerateJsonl] shows for a value that it caught. *)
Definition shown_message (e : JsError) : jsstring :=
  match err_class e with
  | NotAnError => lit "An unknown error occurred during file processing."
  | _ => err_message e
  end.

(** An answer as the matcher returns it: not empty, no white space at its
    ends. *)
Definition trimmed_answer (answer : jsstring) : Prop :=
  answer <> [] /\ trim answer = answer.

(** The line of a chunk in the dataset. *)
Definition chunk_line (NumberToString : jsstring -> jsstring) (chunk : Chunk)
  : jsstring :=
  training_line (ToString NumberToString (rfp_section chunk))
                (proposal_section chunk).

(** A decoder that fails on the file named bad. *)
Definition picky_file (f : jsstring) : Outcome FileContent :=
  if jsstring_eqb f (lit "bad")
  then Thrown (mkJsError OtherError (lit "Failed to process file: bad"))
  else Returned {| name := f; content := f |}.

Definition unreadable_pair : DocumentPair jsstring :=
  mkDocumentPair 3 [lit "bad"] (Some proposal_text).

(** A backend that cannot be reached: [fetch] rejects with a [TypeError]. *)
Definition unreachable (w : unit) (_ : OllamaRequest)
  : Outcome Response * unit :=
  (Thrown (mkJsError TypeError (lit "Failed to fetch")), w).

(** The extensions that [readFileContent] decodes. *)
Definition supported_extensions : list jsstring :=
  [lit "txt"; lit "md"; lit "html"; lit "doc"; lit "docx"; lit "pdf"].

(** Decoders of the examples: no HTML body, no Word or PDF library. *)
Definition no_body (_ : jsstring) : Outcome (option jsstring) := Returned None.

Definition no_library {A : Type} (_ : unit) : Outcome A :=
  Thrown (mkJsError TypeError (lit "mammoth is not defined")).

Definition text_file (file_name text : jsstring) : @BrowserFile unit :=
  mkBrowserFile file_name (ReadResult (Some text)) (ReadResult (Some tt)).

Definition blank_proposal_pair : DocumentPair jsstring :=
  mkDocumentPair 4 [rfp_text] (Some []).

(** The message shown when no record was produced. *)
Definition no_sections_message : jsstring :=
  lit "The AI model could not extract any valid sections from your documents. Please check the document content and try again.".

(** A text with a fence at neither, either or both of its ends: [opener] is
    empty or an opening fence, [closer] is empty or the closing fence. *)
Definition loosely_fenced (opener closer ws0 ws1 body ws2 ws3 : jsstring)
  : jsstring :=
  ws0 ++ opener ++ ws1 ++ body ++ ws2 ++ closer ++ ws3.

(** Every file of the pair can be read. *)
Definition reads_fine {File : Type} (readFileContent : File -> Outcome FileContent)
                      (p : DocumentPair File) : bool :=
  match read_all readFileContent (rfp p),
        read_proposal readFileContent (proposal p) with
  | Returned _, Returned _ => true
  | _, _ => false
  end.

(* ================================================================== *)
(** * Properties of the pager *)

Section PagerFacts.

Lemma substring_chunk (text : jsstring) (i n : Z) :
  0 <= i -> i <= jslength text -> 0 <= n ->
  substring text i (i + n) =
  firstn (Z.to_nat n) (skipn (Z.to_nat i) text).
Proof.
  intros Hi Hlen Hn. unfold substring, clamp.
  set (len := jslength text) in *.
  assert (Hlen' : len = Z.of_nat (length text)) by reflexivity.
  replace (Z.min (Z.min (Z.max i 0) len) (Z.min (Z.max (i + n) 0) len))
    with i by lia.
  destruct (Z_le_gt_dec (i + n) len) as [Hle | Hgt].
  - replace (Z.max (Z.min (Z.max i 0) len) (Z.min (Z.max (i + n) 0) len) - i)
      with n by lia.
    reflexivity.
  - replace (Z.max (Z.min (Z.max i 0) len) (Z.min (Z.max (i + n) 0) len) - i)
      with (len - i) by lia.
    rewrite !firstn_all2; try reflexivity; rewrite length_skipn; lia.
Qed.

Lemma substring_nonpositive (text : jsstring) (i n : Z) :
  i <= 0 -> n <= 0 -> substring text i (i + n) = [].
Proof.
  intros Hi Hn. unfold substring, clamp.
  assert (0 <= jslength text) by (unfold jslength; lia).
  replace (Z.to_nat _) with O by lia. reflexivity.
Qed.

(** More fuel never changes a result already reached. *)
Lemma textToPages_loop_more_fuel (fuel fuel' : nat) text n i pages res :
  textToPages_loop fuel text n i pages = Some res ->
  (fuel <= fuel')%nat ->
  textToPages_loop fuel' text n i pages = Some res.
Proof.
  revert fuel' i pages. induction fuel as [|fuel IH]; intros fuel' i pages H Hle.
  - discriminate.
  - destruct fuel' as [|fuel']; [lia|]. simpl in *.
    destruct (i <? jslength text); [|assumption].
    apply IH; [assumption | lia].
Qed.

(** What one run of the loop from index [i] appends, for a positive chunk
    size: the chunks of the rest of the text. *)
Lemma textToPages_loop_spec (fuel : nat) (text : jsstring) (n : Z) :
  0 < n ->
  forall (i : Z) (pages : list jsstring),
    0 <= i ->
    Z.max 0 (jslength text - i) < Z.of_nat fuel ->
    exists ps,
      textToPages_loop fuel text n i pages = Some (pages ++ ps)
      /\ concat ps = skipn (Z.to_nat i) text
      /\ (ps = [] <-> jslength text <= i)
      /\ (forall k, (S k < length ps)%nat ->
                    length (nth k ps []) = Z.to_nat n).
Proof.
  intros Hn. induction fuel as [|fuel IH]; intros i pages Hi Hfuel.
  - lia.
  - simpl. destruct (Z.ltb_spec i (jslength text)) as [Hlt | Hge].
    + destruct (IH (i + n) (pages ++ [substring text i (i + n)]))
        as (ps & Hrun & Hcat & Hnil & Hlen); [lia | lia |].
      exists (substring text i (i + n) :: ps).
      rewrite Hrun, <- app_assoc. simpl.
      rewrite substring_chunk by lia.
      repeat split.
      * rewrite Hcat.
        replace (Z.to_nat (i + n)) with (Z.to_nat n + Z.to_nat i)%nat by lia.
        rewrite <- skipn_skipn. apply firstn_skipn.
      * discriminate.
      * lia.
      * intros [|k] Hk; simpl in *.
        -- assert (Hps : ps <> []) by (destruct ps; simpl in *; [lia | discriminate]).
           assert (i + n < jslength text) by (destruct (Z_lt_ge_dec (i + n) (jslength text)); [assumption | exfalso; apply Hps, Hnil; lia]).
           rewrite length_firstn, length_skipn. unfold jslength in *. lia.
        -- apply Hlen. lia.
    + exists []. rewrite app_nil_r. repeat split; try tauto; try (simpl; lia).
      simpl. rewrite skipn_all2; [reflexivity | unfold jslength in *; lia].
Qed.

(** With a chunk size that is not positive the index never passes the
    length of a text that is not empty. *)
Lemma textToPages_loop_diverges (fuel : nat) (text : jsstring) (n : Z) :
  n <= 0 -> text <> [] ->
  forall i pages, i <= 0 -> textToPages_loop fuel text n i pages = None.
Proof.
  intros Hn Htext. induction fuel as [|fuel IH]; intros i pages Hi.
  - reflexivity.
  - simpl. destruct (Z.ltb_spec i (jslength text)) as [Hlt | Hge].
    + apply IH. lia.
    + destruct text; [congruence|]. unfold jslength in Hge. simpl in Hge. lia.
Qed.

(** The pages that the orchestrator works on are those of [textToPages]:
    for the chunk size of the program the loop always ends. *)
Lemma pages_of_concat (text : jsstring) : concat (pages_of text) = text.
Proof.
  unfold pages_of, textToPages, textToPages_fuel.
  destruct (textToPages_loop_spec (S (length text)) text PAGE_CHUNK_SIZE
              ltac:(reflexivity) 0 [])
    as (ps & Hrun & Hcat & _); [lia | unfold jslength; lia |].
  rewrite Hrun. exact Hcat.
Qed.

End PagerFacts.

(** C4. For every text and every chunk size [n > 0], [textToPages] returns
    pages whose concatenation is the text exactly; every page except
    possibly the last has length exactly [n]; the empty text gives the empty
    sequence of pages. *)
Theorem textToPages_partition (text : jsstring) (n : Z) :
  0 < n ->
  exists pages,
    textToPages text n = Some pages
    /\ concat pages = text
    /\ (forall k, (S k < length pages)%nat ->
                  jslength (nth k pages []) = n)
    /\ (text = [] -> pages = []).
Proof.
  intros Hn.
  destruct (textToPages_loop_spec (S (length text)) text n Hn 0 [])
    as (ps & Hrun & Hcat & Hnil & Hlen); [lia | unfold jslength; lia |].
  exists ps. repeat split.
  - exact Hrun.
  - exact Hcat.
  - intros k Hk. unfold jslength. rewrite (Hlen k Hk). lia.
  - intros ->. apply Hnil. unfold jslength. simpl. lia.
Qed.

Lemma textToPages_partition_witness :
  0 < 4 /\
  exists pages,
    textToPages (lit "abcdefghij") 4 = Some pages
    /\ concat pages = lit "abcdefghij"
    /\ (forall k, (S k < length pages)%nat -> jslength (nth k pages []) = 4)
    /\ (lit "abcdefghij" = [] -> pages = []).
Proof.
  split; [lia | apply (textToPages_partition (lit "abcdefghij") 4); lia].
Defined.

(** C9. For every text and every chunk size greater than zero the loop of
    [textToPages] terminates (within [length text + 1] tests of its
    condition, and more fuel does not change the pages); for a chunk size
    that is zero or negative and a text that is not empty it never
    terminates. *)
Theorem textToPages_terminates_iff_positive (text : jsstring) (n : Z) :
  (0 < n ->
   exists pages,
     forall fuel, (S (length text) <= fuel)%nat ->
                  textToPages_fuel fuel text n = Some pages)
  /\ (n <= 0 -> text <> [] ->
      forall fuel, textToPages_fuel fuel text n = None).
Proof.
  split.
  - intros Hn.
    destruct (textToPages_loop_spec (S (length text)) text n Hn 0 [])
      as (ps & Hrun & _); [lia | unfold jslength; lia |].
    exists ps. intros fuel Hfuel.
    apply (textToPages_loop_more_fuel (S (length text))); assumption.
  - intros Hn Htext fuel.
    apply textToPages_loop_diverges; [assumption | assumption | lia].
Qed.

Lemma textToPages_terminates_iff_positive_witness :
  (exists pages,
      forall fuel, (S (length (lit "abcde")) <= fuel)%nat ->
                   textToPages_fuel fuel (lit "abcde") 2 = Some pages)
  /\ (forall fuel, textToPages_fuel fuel (lit "abcde") 0 = None).
Proof.
  split.
  - apply (proj1 (textToPages_terminates_iff_positive (lit "abcde") 2)). lia.
  - apply (proj2 (textToPages_terminates_iff_positive (lit "abcde") 0));
      [lia | discriminate].
Defined.

(* ================================================================== *)
(** * Properties of the language-model client *)

(** C2, as stated, fails: with a payload [{}] under a success status the
    error that [callOllama] throws is not an [OllamaConnectionError]. *)
Lemma callOllama_missing_field_counterexample :
  ~ (forall (data : JSON) (prompt : jsstring) (jsonMode : bool),
        (forall s, get_property data (lit "response") <> Some (JStr s)) ->
        exists e st',
          callOllama (answering data) prompt jsonMode start = (Thrown e, st')
          /\ err_class e = OllamaConnectionError).
Proof.
  intros H.
  destruct (H (JObj []) (lit "hello") false) as (e & st' & Hrun & Hclass).
  - intros s. discriminate.
  - vm_compute in Hrun. injection Hrun as <- _. discriminate.
Qed.

(** C2, amended.  When the backend is reached and answers with a success
    status, and the payload has no string field [response], [callOllama]
    throws a plain [Error] whose message is that of [missing_field_error]
    (Failed to connect to Ollama: Invalid response format from Ollama); it
    is not an [OllamaConnectionError]. *)
Theorem callOllama_missing_field_plain_error
    {World : Type} (fetch : World -> OllamaRequest -> Outcome Response * World)
    (prompt : jsstring) (jsonMode : bool) (st : State World)
    (response : Response) (data : JSON) (w' : World) :
  fetch (world st) (ollama_request prompt jsonMode) = (Returned response, w') ->
  ok response = true ->
  json response = Returned data ->
  (forall s, get_property data (lit "response") <> Some (JStr s)) ->
  callOllama fetch prompt jsonMode st
  = (Thrown missing_field_error,
     mkState w' (calls st ++ [ollama_request prompt jsonMode]))
  /\ is_connection_error missing_field_error = false.
Proof.
  intros Hfetch Hok Hjson Hmissing. split; [|reflexivity].
  unfold callOllama. rewrite Hfetch. unfold callOllama_try.
  rewrite Hok, Hjson. simpl negb. cbv iota.
  assert (Hcatch : callOllama_catch invalid_response_format = missing_field_error)
    by (vm_compute; reflexivity).
  destruct (falsy data).
  - rewrite Hcatch. reflexivity.
  - destruct (get_property data (lit "response")) as [[| | |s| |]|] eqn:Hget;
      try (rewrite Hcatch; reflexivity).
    exfalso. apply (Hmissing s). reflexivity.
Qed.

Lemma callOllama_missing_field_plain_error_witness :
  callOllama (answering (JObj [(lit "done", JBool true)])) (lit "hello") true start
  = (Thrown missing_field_error,
     mkState tt (calls start ++ [ollama_request (lit "hello") true]))
  /\ is_connection_error missing_field_error = false.
Proof.
  apply (callOllama_missing_field_plain_error
           (answering (JObj [(lit "done", JBool true)])) (lit "hello") true start
           {| ok := true; status := 200; text := Returned [];
              json := Returned (JObj [(lit "done", JBool true)]) |}
           (JObj [(lit "done", JBool true)]) tt).
  - reflexivity.
  - reflexivity.
  - reflexivity.
  - intros s. vm_compute. discriminate.
Defined.

(* ================================================================== *)
(** * Properties of the section extractor *)

Section ExtractorFacts.

Context {World : Type}.
Variable fetch : World -> OllamaRequest -> Outcome Response * World.

(** Every call of [callOllama] sends exactly one request. *)
Lemma callOllama_calls prompt jsonMode (st st' : State World) o :
  callOllama fetch prompt jsonMode st = (o, st') ->
  calls st' = calls st ++ [ollama_request prompt jsonMode].
Proof.
  unfold callOllama.
  destruct (fetch (world st) (ollama_request prompt jsonMode)) as [fetched w].
  destruct (callOllama_try fetched); intros H; injection H as _ <-; reflexivity.
Qed.

Lemma extract_page_thrown page acc (st st' : State World) e :
  callOllama fetch (sections_prompt page) true st = (Thrown e, st') ->
  extract_page fetch page acc st
  = if is_connection_error e then (Thrown e, st') else (Returned acc, st').
Proof.
  intros H. unfold extract_page, try_catch, bind. rewrite H.
  destruct (is_connection_error e); reflexivity.
Qed.

Lemma extract_page_returned page acc (st st' : State World) responseText :
  callOllama fetch (sections_prompt page) true st = (Returned responseText, st') ->
  extract_page fetch page acc st
  = (Returned (match safeJsonParse responseText with
               | JArr elements => acc ++ elements
               | _ => acc
               end), st').
Proof.
  intros H. unfold extract_page, try_catch, bind. rewrite H.
  destruct (safeJsonParse responseText); reflexivity.
Qed.

Lemma extract_loop_app pre post acc (st : State World) :
  extract_loop fetch (pre ++ post) acc st
  = match extract_loop fetch pre acc st with
    | (Returned acc', st') => extract_loop fetch post acc' st'
    | (Thrown e, st') => (Thrown e, st')
    end.
Proof.
  revert acc st. induction pre as [|page pre IH]; intros acc st.
  - reflexivity.
  - simpl. unfold bind.
    destruct (extract_page fetch page acc st) as [[acc' | e] st']; [apply IH | reflexivity].
Qed.

End ExtractorFacts.

(** C1. In [extractSectionsFromDocument], for every sequence of pages
    [before ++ page :: after] whose pages [before] were processed without a
    connection error: when processing [page] throws an error that is not an
    [OllamaConnectionError], the page contributes nothing and the loop goes
    on with the pages [after]; when it throws an [OllamaConnectionError],
    that error is the outcome of the whole call and the request for [page]
    is the last one sent. *)
Theorem extractSections_fault_isolation
    {World : Type} (fetch : World -> OllamaRequest -> Outcome Response * World)
    (before : list jsstring) (page : jsstring) (after : list jsstring)
    (st st1 st2 : State World) (found : list JSON) (e : JsError) :
  extract_loop fetch before [] st = (Returned found, st1) ->
  callOllama fetch (sections_prompt page) true st1 = (Thrown e, st2) ->
  (err_class e <> OllamaConnectionError ->
   extractSectionsFromDocument fetch (before ++ page :: after) st
   = extract_loop fetch after found st2)
  /\ (err_class e = OllamaConnectionError ->
      extractSectionsFromDocument fetch (before ++ page :: after) st
      = (Thrown e, st2)
      /\ calls st2 = calls st1 ++ [ollama_request (sections_prompt page) true]).
Proof.
  intros Hbefore Hcall.
  assert (Hrun : extractSectionsFromDocument fetch (before ++ page :: after) st
                 = if is_connection_error e then (Thrown e, st2)
                   else extract_loop fetch after found st2).
  { unfold extractSectionsFromDocument. rewrite extract_loop_app, Hbefore.
    simpl. unfold bind. rewrite (extract_page_thrown fetch _ _ _ _ _ Hcall).
    destruct (is_connection_error e); reflexivity. }
  split; intros Hclass.
  - rewrite Hrun. unfold is_connection_error.
    destruct (err_class e); try reflexivity. congruence.
  - split.
    + rewrite Hrun. unfold is_connection_error. rewrite Hclass. reflexivity.
    + apply (callOllama_calls fetch _ _ _ _ _ Hcall).
Qed.

Lemma extractSections_fault_isolation_witness :
  extractSectionsFromDocument flaky ([] ++ lit "p1" :: [lit "p2"]) (mkState 0%nat [])
  = extract_loop flaky [lit "p2"] []
      (mkState 1%nat [ollama_request (sections_prompt (lit "p1")) true])
  /\ extractSectionsFromDocument flaky ([lit "p1"; lit "p2"] ++ lit "p3" :: [lit "p4"])
        (mkState 0%nat [])
      = (Thrown (mkJsError OllamaConnectionError connection_failed_message),
         mkState 3%nat
           (map (fun p => ollama_request (sections_prompt (lit p)) true)
                ["p1"; "p2"; "p3"]%string)).
Proof.
  split.
  - apply (proj1 (extractSections_fault_isolation flaky [] (lit "p1") [lit "p2"]
                    (mkState 0%nat []) (mkState 0%nat [])
                    (mkState 1%nat [ollama_request (sections_prompt (lit "p1")) true])
                    []
                    (mkJsError OtherError
                       (lit "Failed to connect to Ollama: Ollama API Error (500): boom"))
                    eq_refl eq_refl)).
    simpl. discriminate.
  - apply (proj2 (extractSections_fault_isolation flaky
                    [lit "p1"; lit "p2"] (lit "p3") [lit "p4"]
                    (mkState 0%nat [])
                    (mkState 2%nat
                       (map (fun p => ollama_request (sections_prompt (lit p)) true)
                            ["p1"; "p2"]%string))
                    (mkState 3%nat
                       (map (fun p => ollama_request (sections_prompt (lit p)) true)
                            ["p1"; "p2"; "p3"]%string))
                    [JStr (lit "s")]
                    (mkJsError OllamaConnectionError connection_failed_message)
                    ltac:(vm_compute; reflexivity) ltac:(vm_compute; reflexivity))).
    reflexivity.
Defined.

(* ================================================================== *)
(** * Properties of the section matcher *)

Section MatcherFacts.

Context {World : Type}.
Variable fetch : World -> OllamaRequest -> Outcome Response * World.
Variable NumberToString : jsstring -> jsstring.

Lemma relevance_page_returned rfpSection page relevant
      (st st' : State World) responseText :
  callOllama fetch (relevance_prompt NumberToString rfpSection page) false st
  = (Returned responseText, st') ->
  relevance_page fetch NumberToString rfpSection page relevant st
  = (Returned (if says_yes responseText then relevant ++ [page] else relevant),
     st').
Proof.
  intros H. unfold relevance_page, try_catch, bind. rewrite H.
  destruct (says_yes responseText); reflexivity.
Qed.

(** One iteration of the relevance loop sends one request, whatever its
    outcome. *)
Lemma relevance_page_calls rfpSection page relevant (st st' : State World) o :
  relevance_page fetch NumberToString rfpSection page relevant st = (o, st') ->
  calls st' = calls st ++ [relevance_request NumberToString rfpSection page].
Proof.
  unfold relevance_page, try_catch, bind.
  destruct (callOllama fetch (relevance_prompt NumberToString rfpSection page)
              false st) as [[responseText | e] st1] eqn:Hcall;
    apply callOllama_calls in Hcall.
  - destruct (says_yes responseText); intros H; injection H as _ <-; exact Hcall.
  - destruct (is_connection_error e); intros H; injection H as _ <-; exact Hcall.
Qed.

(** A relevance loop that completes has sent one request per page, in page
    order, and nothing else. *)
Lemma relevance_loop_calls rfpSection pages :
  forall relevant (st st' : State World) result,
    relevance_loop fetch NumberToString rfpSection pages relevant st
    = (Returned result, st') ->
    calls st' = calls st ++ map (relevance_request NumberToString rfpSection) pages.
Proof.
  induction pages as [|page pages IH]; intros relevant st st' result H.
  - simpl in H. injection H as _ <-. rewrite app_nil_r. reflexivity.
  - simpl in H. unfold bind in H.
    destruct (relevance_page fetch NumberToString rfpSection page relevant st)
      as [[relevant' | e] st1] eqn:Hpage; [|discriminate].
    apply relevance_page_calls in Hpage. apply IH in H.
    rewrite H, Hpage, <- app_assoc. reflexivity.
Qed.

End MatcherFacts.

(** C3. For every section and every sequence of proposal pages: when the
    relevance phase ends with no page judged relevant, [findMatchingSection]
    returns [null] and the requests sent are exactly the relevance questions,
    one per page, so that no extraction request is issued; and when pages
    were judged relevant and the response of the extraction call trims to
    the empty string, the result is [null] as well. *)
Theorem findMatchingSection_absent
    {World : Type} (fetch : World -> OllamaRequest -> Outcome Response * World)
    (NumberToString : jsstring -> jsstring)
    (rfpSection : JSON) (proposalPages : list jsstring) (st st1 : State World)
    (relevantPages : list jsstring) :
  relevance_loop fetch NumberToString rfpSection proposalPages [] st
  = (Returned relevantPages, st1) ->
  (relevantPages = [] ->
   findMatchingSection fetch NumberToString rfpSection proposalPages st
   = (Returned None, st1)
   /\ calls st1
      = calls st ++ map (relevance_request NumberToString rfpSection) proposalPages)
  /\ (forall responseText st2,
        relevantPages <> [] ->
        callOllama fetch
          (extractionPrompt NumberToString rfpSection
             (join page_separator relevantPages)) false st1
        = (Returned responseText, st2) ->
        trim responseText = [] ->
        findMatchingSection fetch NumberToString rfpSection proposalPages st
        = (Returned None, st2)).
Proof.
  intros Hloop. split.
  - intros ->. split.
    + unfold findMatchingSection, bind. rewrite Hloop. reflexivity.
    + apply (relevance_loop_calls fetch NumberToString _ _ _ _ _ _ Hloop).
  - intros responseText st2 Hne Hcall Htrim.
    unfold findMatchingSection, bind at 1. rewrite Hloop.
    destruct relevantPages as [|p ps]; [congruence|].
    cbn [length Nat.eqb]. unfold try_catch, bind. rewrite Hcall.
    unfold ret, trimmed_or_null. rewrite Htrim. reflexivity.
Qed.

Lemma findMatchingSection_absent_witness :
  (findMatchingSection (replying (lit "NO")) (fun n => n) (JStr (lit "req"))
     [lit "p1"; lit "p2"] start
   = (Returned None,
      mkState tt (map (relevance_request (fun n => n) (JStr (lit "req")))
                      [lit "p1"; lit "p2"]))
   /\ calls (mkState tt (map (relevance_request (fun n => n) (JStr (lit "req")))
                             [lit "p1"; lit "p2"]))
      = calls start
        ++ map (relevance_request (fun n => n) (JStr (lit "req")))
               [lit "p1"; lit "p2"])
  /\ findMatchingSection yes_then_blank (fun n => n) (JStr (lit "req"))
       [lit "p1"] (mkState 0%nat [])
     = (Returned None,
        mkState 2%nat
          [relevance_request (fun n => n) (JStr (lit "req")) (lit "p1");
           ollama_request
             (extractionPrompt (fun n => n) (JStr (lit "req")) (lit "p1"))
             false]).
Proof.
  split.
  - apply (proj1 (findMatchingSection_absent (replying (lit "NO")) (fun n => n)
                    (JStr (lit "req")) [lit "p1"; lit "p2"] start
                    (mkState tt (map (relevance_request (fun n => n) (JStr (lit "req")))
                                     [lit "p1"; lit "p2"]))
                    [] ltac:(vm_compute; reflexivity))).
    reflexivity.
  - apply (proj2 (findMatchingSection_absent yes_then_blank (fun n => n)
                    (JStr (lit "req")) [lit "p1"] (mkState 0%nat [])
                    (mkState 1%nat
                       [relevance_request (fun n => n) (JStr (lit "req")) (lit "p1")])
                    [lit "p1"] ltac:(vm_compute; reflexivity))
             (lit "  ")).
    + discriminate.
    + vm_compute. reflexivity.
    + vm_compute. reflexivity.
Defined.

Section StringFacts.

Lemma startsWith_true_iff (s prefix : jsstring) :
  startsWith s prefix = true <-> exists rest, s = prefix ++ rest.
Proof.
  revert s. induction prefix as [|p prefix IH]; intros s; simpl.
  - split; [intros _; exists s; reflexivity | reflexivity].
  - destruct s as [|c s].
    + split; [discriminate | intros [rest H]; discriminate].
    + rewrite andb_true_iff, N.eqb_eq, IH. split.
      * intros [-> [rest ->]]. exists rest. reflexivity.
      * intros [rest H]. injection H as -> ->. split; [reflexivity | exists rest; reflexivity].
Qed.

Lemma includes_true_iff (s needle : jsstring) :
  includes s needle = true <-> exists before rest, s = before ++ needle ++ rest.
Proof.
  induction s as [|c s IH]; simpl; rewrite orb_true_iff, startsWith_true_iff.
  - split.
    + intros [[rest H] | H]; [|discriminate]. exists [], rest. exact H.
    + intros (before & rest & H). left. exists rest.
      destruct before; [exact H|discriminate].
  - rewrite IH. split.
    + intros [[rest H] | (before & rest & H)].
      * exists [], rest. exact H.
      * exists (c :: before), rest. rewrite H. reflexivity.
    + intros (before & rest & H). destruct before as [|b before].
      * left. exists rest. exact H.
      * right. injection H as -> ->. exists before, rest. reflexivity.
Qed.

(** ** Upper case *)

(** The code units of the upper case of a code point. *)
Lemma toUpperCase_code_points (s : jsstring) :
  toUpperCase s
  = flat_map (fun cp => CodePointsToString (toUppercase cp))
             (StringToCodePoints s).
Proof.
  unfold toUpperCase, CodePointsToString.
  induction (StringToCodePoints s) as [|cp text IH]; [reflexivity|].
  simpl. rewrite flat_map_app, IH. reflexivity.
Qed.

Lemma StringToCodePoints_step (c d : code_unit) (rest : jsstring) :
  StringToCodePoints (c :: d :: rest)
  = if is_leading_surrogate c && is_trailing_surrogate d
    then ((c - 55296) * 1024 + (d - 56320) + 65536)%N
         :: StringToCodePoints rest
    else c :: StringToCodePoints (d :: rest).
Proof. reflexivity. Qed.

Lemma StringToCodePoints_cons (c : code_unit) (rest : jsstring) :
  is_leading_surrogate c = false ->
  StringToCodePoints (c :: rest) = c :: StringToCodePoints rest.
Proof.
  intros H. destruct rest as [|d rest]; [reflexivity|].
  rewrite StringToCodePoints_step, H. reflexivity.
Qed.

(** A code unit that is no trailing surrogate begins a code point. *)
Lemma StringToCodePoints_app (before : jsstring) (c : code_unit) (rest : jsstring) :
  is_trailing_surrogate c = false ->
  StringToCodePoints (before ++ c :: rest)
  = StringToCodePoints before ++ StringToCodePoints (c :: rest).
Proof.
  intros Hc.
  assert (H : forall n (t : jsstring),
             (length t <= n)%nat ->
             StringToCodePoints (t ++ c :: rest)
             = StringToCodePoints t ++ StringToCodePoints (c :: rest)).
  { induction n as [|n IH]; intros t Hlen.
    - destruct t; [reflexivity | simpl in Hlen; lia].
    - destruct t as [|x [|y t]]; [reflexivity | | ].
      + change ([x] ++ c :: rest) with (x :: c :: rest).
        rewrite StringToCodePoints_step, Hc, andb_false_r. reflexivity.
      + change ((x :: y :: t) ++ c :: rest) with (x :: y :: t ++ c :: rest).
        rewrite (StringToCodePoints_step x y (t ++ c :: rest)).
        rewrite (StringToCodePoints_step x y t).
        destruct (is_leading_surrogate x && is_trailing_surrogate y).
        * rewrite IH by (cbn [length] in *; lia). reflexivity.
        * change (y :: t ++ c :: rest) with ((y :: t) ++ c :: rest).
          rewrite IH by (cbn [length] in *; lia). reflexivity. }
  apply (H (length before)). lia.
Qed.

(** A code point of the Basic Multilingual Plane is a code unit of the
    string. *)
Lemma StringToCodePoints_head (s : jsstring) (cp : N) (text : list N) :
  StringToCodePoints s = cp :: text -> (cp < 65536)%N ->
  exists rest, s = cp :: rest /\ StringToCodePoints rest = text.
Proof.
  intros H Hcp. destruct s as [|c [|d s]]; [discriminate | | ].
  - injection H as <- <-. exists []. split; reflexivity.
  - rewrite StringToCodePoints_step in H.
    destruct (is_leading_surrogate c && is_trailing_surrogate d).
    + injection H as <- _. lia.
    + injection H as <- <-. exists (d :: s). split; reflexivity.
Qed.

Lemma StringToCodePoints_middle (text1 : list N) (y e s' : N) (text2 : list N) :
  (y < 65536)%N -> (e < 65536)%N -> (s' < 65536)%N ->
  forall s : jsstring,
    StringToCodePoints s = text1 ++ y :: e :: s' :: text2 ->
    exists before rest, s = before ++ y :: e :: s' :: rest.
Proof.
  intros Hy He Hs.
  assert (H : forall n (t : jsstring) (cps : list N),
             (length t <= n)%nat ->
             StringToCodePoints t = cps ++ y :: e :: s' :: text2 ->
             exists before rest, t = before ++ y :: e :: s' :: rest).
  { induction n as [|n IH]; intros t cps Hlen Ht.
    - destruct t; [|cbn [length] in *; lia]. destruct cps; discriminate.
    - destruct cps as [|cp cps].
      + apply StringToCodePoints_head in Ht as (r1 & -> & Ht); [|exact Hy].
        apply StringToCodePoints_head in Ht as (r2 & -> & Ht); [|exact He].
        apply StringToCodePoints_head in Ht as (r3 & -> & Ht); [|exact Hs].
        exists [], r3. reflexivity.
      + destruct t as [|c [|d t]]; [discriminate | | ].
        * injection Ht as _ Ht. destruct cps; discriminate.
        * rewrite StringToCodePoints_step in Ht.
          destruct (is_leading_surrogate c && is_trailing_surrogate d).
          -- injection Ht as _ Ht.
             apply IH in Ht as (before & rest & ->); [|cbn [length] in *; lia].
             exists (c :: d :: before), rest. reflexivity.
          -- injection Ht as _ Ht.
             change (StringToCodePoints (d :: t)
                     = cps ++ y :: e :: s' :: text2) in Ht.
             apply IH in Ht as (before & rest & Ht); [|cbn [length] in *; lia].
             exists (c :: before), rest. rewrite Ht. reflexivity. }
  intros s Hs'. apply (H (length s) s text1); [lia | exact Hs'].
Qed.

(** What the case tables say of the letters Y, E and S: the upper case of a
    code point is not empty; the letter Y is nowhere but at its start, and
    then the code point is Y or y, or the upper case goes on with a
    combining ring; it starts with E for E and e only, and is E then; it
    starts with S for the six code points of [upper_case_begins_with_S]
    only. *)
Lemma upper_case_mappings_YES :
  forallb
    (fun mapping =>
       match CodePointsToString (snd mapping) with
       | [] => false
       | h :: t =>
           negb (existsb (N.eqb 89) t)
           && (if h =? 89
               then (fst mapping =? 121) && is_nil t
                    || match t with [ring] => ring =? 778 | _ => false end
               else true)
           && (if h =? 69 then (fst mapping =? 101) && is_nil t else true)
           && (if h =? 83
               then existsb (N.eqb (fst mapping)) [115; 383; 223; 64261; 64262]
               else true)
       end)%N
    upper_case_mappings = true.
Proof. vm_compute. reflexivity. Qed.

Lemma toUppercase_YES (cp : N) :
  exists h t,
    CodePointsToString (toUppercase cp) = h :: t
    /\ ~ In 89%N t
    /\ (h = 89%N ->
        (t = [] /\ (cp = 89 \/ cp = 121)%N) \/ t = [778%N])
    /\ (h = 69%N -> t = [] /\ (cp = 69 \/ cp = 101)%N)
    /\ (h = 83%N -> upper_case_begins_with_S cp).
Proof.
  unfold toUppercase.
  destruct (find (fun mapping => (fst mapping =? cp)%N) upper_case_mappings)
    as [[k upper]|] eqn:Hfind.
  - apply find_some in Hfind as [Hin Hk]. apply N.eqb_eq in Hk. simpl in Hk.
    subst k.
    pose proof (proj1 (forallb_forall _ _) upper_case_mappings_YES _ Hin) as H.
    cbn [fst snd] in H.
    destruct (CodePointsToString upper) as [|h t]; [discriminate|].
    exists h, t. split; [reflexivity|].
    apply andb_true_iff in H as [H HS]. apply andb_true_iff in H as [H HE].
    apply andb_true_iff in H as [HY0 HY].
    split; [|split; [|split]].
    + intros Hin'. apply negb_true_iff in HY0.
      assert (existsb (N.eqb 89) t = true); [|congruence].
      apply existsb_exists. exists 89%N. split; [exact Hin' | reflexivity].
    + intros ->. rewrite N.eqb_refl in HY.
      apply orb_true_iff in HY as [HY | HY].
      * apply andb_true_iff in HY as [HY Ht]. apply N.eqb_eq in HY.
        destruct t; [|discriminate]. left. split; [reflexivity|]. right.
        exact HY.
      * destruct t as [|x [|? ?]]; try discriminate.
        apply N.eqb_eq in HY. subst x. right. reflexivity.
    + intros ->. rewrite N.eqb_refl in HE.
      apply andb_true_iff in HE as [HE Ht]. apply N.eqb_eq in HE.
      destruct t; [|discriminate]. split; [reflexivity|]. right. exact HE.
    + intros ->. rewrite N.eqb_refl in HS.
      apply existsb_exists in HS as (x & Hx & Heq). apply N.eqb_eq in Heq.
      subst x. unfold upper_case_begins_with_S. simpl in Hx.
      repeat (destruct Hx as [Hx | Hx]; [lia|]). destruct Hx.
  - unfold CodePointsToString. cbn [flat_map]. rewrite app_nil_r.
    unfold UTF16EncodeCodePoint, upper_case_begins_with_S.
    destruct (N.ltb_spec cp 65536) as [Hsmall | Hbig].
    + exists cp, []. split; [reflexivity|].
      split; [intros []|]. split; [|split]; intros ->; auto.
    + exists (55296 + (cp - 65536) / 1024)%N,
             [(56320 + (cp - 65536) mod 1024)%N].
      split; [reflexivity|].
      generalize ((cp - 65536) / 1024)%N, ((cp - 65536) mod 1024)%N.
      intros high low.
      split; [intros [H | []]; lia|].
      split; [|split]; intros H; lia.
Qed.

Lemma app_eq_app_not_in {A : Type} (x : A) (t R a rest : list A) :
  ~ In x t -> t ++ R = a ++ x :: rest ->
  exists a', a = t ++ a' /\ R = a' ++ x :: rest.
Proof.
  revert a. induction t as [|y t IH]; intros a Hnot H.
  - exists a. split; [reflexivity | exact H].
  - destruct a as [|z a]; simpl in H.
    + injection H as -> _. exfalso. apply Hnot. left. reflexivity.
    + injection H as -> H. destruct (IH a) as (a' & -> & HR).
      * intros Hin. apply Hnot. right. exact Hin.
      * exact H.
      * exists a'. split; [reflexivity | exact HR].
Qed.

(** Where the upper case of a text holds YES, the text holds a Y, an E and
    a letter whose upper case begins with S, in a row. *)
Lemma upper_case_YES (text : list N) :
  forall a b : jsstring,
    flat_map (fun cp => CodePointsToString (toUppercase cp)) text
    = a ++ lit "YES" ++ b ->
    exists text1 y e s' text2,
      text = text1 ++ y :: e :: s' :: text2
      /\ (y = 89 \/ y = 121)%N /\ (e = 69 \/ e = 101)%N
      /\ upper_case_begins_with_S s'.
Proof.
  induction text as [|cp text IH]; intros a b H.
  - destruct a; discriminate.
  - cbn [flat_map] in H.
    change (lit "YES" ++ b) with (89%N :: 69%N :: 83%N :: b) in H.
    destruct (toUppercase_YES cp) as (h & t & Hcp & Hnot & HY & _ & _).
    rewrite Hcp in H. destruct a as [|x a]; cbn [app] in H.
    + injection H as -> H.
      destruct (HY eq_refl) as [[-> Hy] | ->]; [|discriminate].
      cbn [app] in H. destruct text as [|cp2 text]; [discriminate|].
      cbn [flat_map] in H.
      destruct (toUppercase_YES cp2) as (h2 & t2 & Hcp2 & _ & _ & HE & _).
      rewrite Hcp2 in H. cbn [app] in H. injection H as -> H.
      destruct (HE eq_refl) as [-> He].
      cbn [app] in H. destruct text as [|cp3 text]; [discriminate|].
      cbn [flat_map] in H.
      destruct (toUppercase_YES cp3) as (h3 & t3 & Hcp3 & _ & _ & _ & HS).
      rewrite Hcp3 in H. cbn [app] in H. injection H as -> _.
      exists [], cp, cp2, cp3, text. auto.
    + injection H as _ H.
      apply app_eq_app_not_in in H as (a' & -> & H); [|exact Hnot].
      apply IH in H as (text1 & y & e & s' & text2 & -> & Hrest).
      exists (cp :: text1), y, e, s', text2. split; [reflexivity | exact Hrest].
Qed.

(** [toUpperCase] followed by [includes('YES')] is the search for YES
    without regard to case. *)
Lemma includes_toUpperCase_YES (s : jsstring) :
  includes (toUpperCase s) (lit "YES") = true <-> contains_yes_ignoring_case s.
Proof.
  rewrite includes_true_iff, toUpperCase_code_points. split.
  - intros (a & b & H).
    apply upper_case_YES in H as (text1 & y & e & s' & text2 & H & Hy & He & Hs).
    apply StringToCodePoints_middle in H as (before & rest & ->).
    + exists before, y, e, s', rest. auto.
    + lia.
    + lia.
    + unfold upper_case_begins_with_S in Hs. lia.
  - intros (before & y & e & s' & rest & -> & Hy & He & Hs).
    unfold upper_case_begins_with_S in Hs.
    assert (HY : CodePointsToString (toUppercase y) = [89%N])
      by (destruct Hy as [-> | ->]; vm_compute; reflexivity).
    assert (HE : CodePointsToString (toUppercase e) = [69%N])
      by (destruct He as [-> | ->]; vm_compute; reflexivity).
    assert (HS : CodePointsToString (toUppercase s')
                 = 83%N :: tl (CodePointsToString (toUppercase s')))
      by (destruct Hs as [-> | [-> | [-> | [-> | [-> | ->]]]]];
          vm_compute; reflexivity).
    rewrite StringToCodePoints_app
      by (destruct Hy as [-> | ->]; reflexivity).
    rewrite (StringToCodePoints_cons y)
      by (destruct Hy as [-> | ->]; reflexivity).
    rewrite (StringToCodePoints_cons e)
      by (destruct He as [-> | ->]; reflexivity).
    rewrite (StringToCodePoints_cons s')
      by (destruct Hs as [-> | [-> | [-> | [-> | [-> | ->]]]]]; reflexivity).
    rewrite flat_map_app. cbn [flat_map]. rewrite HY, HE, HS.
    exists (flat_map (fun cp => CodePointsToString (toUppercase cp))
              (StringToCodePoints before)),
           (tl (CodePointsToString (toUppercase s'))
            ++ flat_map (fun cp => CodePointsToString (toUppercase cp))
                 (StringToCodePoints rest)).
    f_equal.
Qed.

End StringFacts.

(** C6. In the relevance phase a page is added to the relevant pages exactly
    when the trimmed response contains YES without regard to case, anywhere:
    a Y, an E and a letter whose upper case begins with S, next to each
    other and each in either case.  The response YESTERDAY I read this, the
    answer is NO makes its page relevant, and so does ye followed by a long
    s. *)
Theorem relevance_is_substring_match
    {World : Type} (fetch : World -> OllamaRequest -> Outcome Response * World)
    (NumberToString : jsstring -> jsstring) :
  (forall rfpSection page relevant (st st' : State World) responseText,
      callOllama fetch (relevance_prompt NumberToString rfpSection page) false st
      = (Returned responseText, st') ->
      exists relevant',
        relevance_page fetch NumberToString rfpSection page relevant st
        = (Returned relevant', st')
        /\ (contains_yes_ignoring_case (trim responseText) ->
            relevant' = relevant ++ [page])
        /\ (~ contains_yes_ignoring_case (trim responseText) ->
            relevant' = relevant))
  /\ (forall responseText,
         says_yes responseText = true
         <-> contains_yes_ignoring_case (trim responseText))
  /\ says_yes (lit "YESTERDAY I read this, the answer is NO") = true
  /\ says_yes (lit "ye" ++ [383%N]) = true.
Proof.
  assert (Hiff : forall responseText,
             says_yes responseText = true
             <-> contains_yes_ignoring_case (trim responseText)).
  { intros responseText. unfold says_yes. apply includes_toUpperCase_YES. }
  split; [|split; [|split]].
  - intros rfpSection page relevant st st' responseText Hcall.
    rewrite (relevance_page_returned fetch NumberToString _ _ _ _ _ _ Hcall).
    eexists. split; [reflexivity|].
    destruct (says_yes responseText) eqn:Hyes; split; intros H.
    + reflexivity.
    + exfalso. apply H, Hiff, Hyes.
    + apply Hiff in H. congruence.
    + reflexivity.
  - exact Hiff.
  - vm_compute. reflexivity.
  - vm_compute. reflexivity.
Qed.

Lemma relevance_is_substring_match_witness :
  exists relevant',
    relevance_page (replying (lit "YESTERDAY I read this, the answer is NO"))
      (fun n => n) (JStr (lit "req")) (lit "p1") [] start
    = (Returned relevant',
       mkState tt [relevance_request (fun n => n) (JStr (lit "req")) (lit "p1")])
    /\ (contains_yes_ignoring_case
          (trim (lit "YESTERDAY I read this, the answer is NO")) ->
        relevant' = [] ++ [lit "p1"])
    /\ (~ contains_yes_ignoring_case
            (trim (lit "YESTERDAY I read this, the answer is NO")) ->
        relevant' = []).
Proof.
  apply (proj1 (relevance_is_substring_match
                  (replying (lit "YESTERDAY I read this, the answer is NO"))
                  (fun n => n))
           (JStr (lit "req")) (lit "p1") [] start).
  vm_compute. reflexivity.
Defined.



(* ================================================================== *)
(** * Properties of the response parser *)

Section ParserFacts.

Lemma is_white_space_In (c : code_unit) :
  is_white_space c = true -> In c white_space_units.
Proof.
  unfold is_white_space.
  rewrite !orb_true_iff, !andb_true_iff, !N.eqb_eq, !N.leb_le.
  simpl. lia.
Qed.

Lemma white_space_inert (c : code_unit) : is_white_space c = true -> inert c.
Proof.
  intros H. apply is_white_space_In in H. simpl in H.
  repeat (destruct H as [<- | H]; [repeat split; reflexivity|]).
  contradiction.
Qed.

Lemma backquote_inert : inert 96%N.
Proof. repeat split; reflexivity. Qed.

Lemma json_ws_white_space (c : code_unit) :
  is_json_ws c = true -> is_white_space c = true.
Proof.
  unfold is_json_ws, is_white_space.
  rewrite !orb_true_iff, !andb_true_iff, !N.eqb_eq, !N.leb_le. lia.
Qed.

Lemma lex_top_inert toks (c : code_unit) :
  inert c ->
  lex_top toks c = if is_json_ws c then Some (LTop, toks) else None.
Proof.
  intros (Hword & Hquote & _ & Hpunct & _). unfold lex_top.
  rewrite Hquote, Hpunct, Hword. reflexivity.
Qed.

(** After an inert code unit the lexer can only finish if the code unit was
    JSON white space, and then with the tokens it would have finished with
    before it. *)
Lemma lex_advance_inert st (c : code_unit) ts :
  inert c ->
  lex_finish (lex_advance st c) = Some ts ->
  is_json_ws c = true /\ lex_finish st = Some ts.
Proof.
  intros Hinert H.
  pose proof Hinert as (Hword & Hquote & Hback & Hpunct & Hesc & Hu & Hhex).
  destruct st as [[mode toks]|]; [|discriminate].
  destruct mode as [|w|acc|acc|acc digits value]; unfold lex_advance, lex_step in H.
  - rewrite lex_top_inert in H by assumption.
    destruct (is_json_ws c); [split; [reflexivity | exact H] | discriminate].
  - rewrite Hword in H. unfold lex_finish at 1.
    destruct (word_token w) as [t|]; [|discriminate].
    rewrite lex_top_inert in H by assumption.
    destruct (is_json_ws c); [split; [reflexivity | exact H] | discriminate].
  - rewrite Hquote, Hback in H. destruct (c <? 32)%N; discriminate.
  - rewrite Hesc, Hu in H. discriminate.
  - rewrite Hhex in H. discriminate.
Qed.

Lemma lex_run_failed (text : jsstring) : lex_run text None = None.
Proof. induction text as [|c text IH]; [reflexivity | exact IH]. Qed.

Lemma lex_run_snoc (text : jsstring) (c : code_unit) st :
  lex_run (text ++ [c]) st = lex_advance (lex_run text st) c.
Proof. unfold lex_run. rewrite fold_left_app. reflexivity. Qed.

Lemma JSON_parse_lex (text text' : jsstring) :
  lex text = lex text' -> JSON_parse text = JSON_parse text'.
Proof. intros H. unfold JSON_parse. rewrite H. reflexivity. Qed.

Lemma JSON_parse_lexes (text : jsstring) v :
  JSON_parse text = Some v -> exists ts, lex text = Some ts.
Proof.
  unfold JSON_parse. destruct (lex text) as [ts|]; [|discriminate].
  intros _. exists ts. reflexivity.
Qed.

Lemma JSON_parse_cons_inert (c : code_unit) (text : jsstring) v :
  inert c ->
  JSON_parse (c :: text) = Some v ->
  is_json_ws c = true /\ JSON_parse text = Some v.
Proof.
  intros Hinert H.
  assert (Hlex : lex (c :: text)
                 = if is_json_ws c then lex text else None).
  { unfold lex, lex_run. simpl. rewrite lex_top_inert by assumption.
    destruct (is_json_ws c); [reflexivity|].
    fold (lex_run text None). rewrite lex_run_failed. reflexivity. }
  destruct (is_json_ws c).
  - split; [reflexivity|]. rewrite <- H. symmetry. apply JSON_parse_lex, Hlex.
  - apply JSON_parse_lexes in H as [ts H]. rewrite Hlex in H. discriminate.
Qed.

Lemma JSON_parse_snoc_inert (c : code_unit) (text : jsstring) v :
  inert c ->
  JSON_parse (text ++ [c]) = Some v ->
  is_json_ws c = true /\ JSON_parse text = Some v.
Proof.
  intros Hinert H.
  destruct (JSON_parse_lexes _ _ H) as [ts Hts].
  assert (Hfinish : lex_finish (lex_advance (lex_run text (Some (LTop, []))) c)
                    = Some ts).
  { unfold lex in Hts. rewrite lex_run_snoc in Hts. exact Hts. }
  apply lex_advance_inert in Hfinish as [Hws Hfinish]; [|assumption].
  split; [exact Hws|]. rewrite <- H. apply JSON_parse_lex.
  rewrite Hts. exact Hfinish.
Qed.

Lemma JSON_parse_trimStart (text : jsstring) v :
  JSON_parse text = Some v -> JSON_parse (trimStart text) = Some v.
Proof.
  induction text as [|c text IH]; intros H; [exact H|].
  simpl. destruct (is_white_space c) eqn:Hc; [|exact H].
  apply IH. apply (JSON_parse_cons_inert c); [apply white_space_inert|]; assumption.
Qed.

Lemma JSON_parse_trimEnd (text : jsstring) v :
  JSON_parse text = Some v -> JSON_parse (trimEnd text) = Some v.
Proof.
  unfold trimEnd. rewrite <- (rev_involutive text) at 1.
  generalize (rev text) as r. clear text.
  induction r as [|c r IH]; intros H; [exact H|].
  simpl. destruct (is_white_space c) eqn:Hc; [|exact H].
  apply IH. simpl in H.
  apply (JSON_parse_snoc_inert c); [apply white_space_inert|]; assumption.
Qed.

Lemma JSON_parse_trim (text : jsstring) v :
  JSON_parse text = Some v -> JSON_parse (trim text) = Some v.
Proof. intros H. apply JSON_parse_trimEnd, JSON_parse_trimStart, H. Qed.

(** A JSON text neither begins nor ends with a backquote. *)
Lemma JSON_parse_head_not_backquote (c : code_unit) (text : jsstring) v :
  JSON_parse (c :: text) = Some v -> (c =? 96)%N = false.
Proof.
  intros H. destruct (N.eqb_spec c 96) as [-> |]; [|reflexivity].
  apply (JSON_parse_cons_inert _ _ _ backquote_inert) in H as [H _].
  discriminate.
Qed.

Lemma JSON_parse_not_startsWith_backquote (text rest prefix : jsstring) v :
  JSON_parse text = Some v ->
  startsWith (text ++ rest) (96%N :: prefix) = false.
Proof.
  destruct text as [|c text]; intros H; [discriminate|].
  simpl. rewrite (JSON_parse_head_not_backquote _ _ _ H). reflexivity.
Qed.

Lemma JSON_parse_not_endsWith_backquote (text suffix : jsstring) v :
  JSON_parse text = Some v ->
  endsWith text (suffix ++ [96%N]) = false.
Proof.
  intros H. unfold endsWith. rewrite rev_app_distr. simpl.
  destruct (rev text) as [|c r] eqn:Hrev; [reflexivity|].
  destruct (N.eqb_spec c 96) as [-> |]; [|reflexivity].
  exfalso. apply (f_equal (@rev _)) in Hrev. rewrite rev_involutive in Hrev.
  simpl in Hrev. subst text.
  apply (JSON_parse_snoc_inert _ _ _ backquote_inert) in H as [H _].
  discriminate.
Qed.

(** No JSON text begins with the letter j. *)
Lemma lex_word_j_stuck (text : jsstring) :
  forall w toks,
    lex_finish (lex_run text (Some (LWord (106%N :: w), toks))) = None.
Proof.
  induction text as [|c text IH]; intros w toks.
  - reflexivity.
  - unfold lex_run. simpl fold_left. fold (lex_run text).
    change (lex_advance (Some (LWord (106%N :: w), toks)) c)
      with (if is_word_char c
            then Some (LWord ((106%N :: w) ++ [c]), toks)
            else @None lex_state).
    destruct (is_word_char c).
    + apply (IH (w ++ [c])).
    + rewrite lex_run_failed. reflexivity.
Qed.

Lemma JSON_parse_head_not_j (text : jsstring) :
  JSON_parse (106%N :: text) = None.
Proof.
  unfold JSON_parse, lex.
  change (lex_run (106%N :: text) (Some (LTop, [])))
    with (lex_run text (Some (LWord [106%N], []))).
  rewrite lex_word_j_stuck. reflexivity.
Qed.

(** ** White space around a text *)

Lemma trimStart_app_white_space (ws s : jsstring) :
  all_white_space ws = true -> trimStart (ws ++ s) = trimStart s.
Proof.
  induction ws as [|c ws IH]; simpl; intros H; [reflexivity|].
  apply andb_true_iff in H as [-> H]. apply IH, H.
Qed.

Lemma trimStart_app (s rest : jsstring) :
  trimStart s <> [] -> trimStart (s ++ rest) = trimStart s ++ rest.
Proof.
  induction s as [|c s IH]; simpl; intros H; [congruence|].
  destruct (is_white_space c); [apply IH, H | reflexivity].
Qed.

Lemma trimEnd_app_white_space (s ws : jsstring) :
  all_white_space ws = true -> trimEnd (s ++ ws) = trimEnd s.
Proof.
  intros H. unfold trimEnd. rewrite rev_app_distr.
  rewrite trimStart_app_white_space; [reflexivity|].
  unfold all_white_space in *. rewrite forallb_forall in *.
  intros c Hc. apply H, in_rev, Hc.
Qed.

Lemma trimEnd_snoc (s : jsstring) (c : code_unit) :
  is_white_space c = false -> trimEnd (s ++ [c]) = s ++ [c].
Proof.
  intros H. unfold trimEnd. rewrite rev_app_distr. simpl. rewrite H.
  simpl. rewrite rev_involutive. reflexivity.
Qed.

End ParserFacts.

Section ParserFuel.

Lemma parse_value_nil (f : nat) : parse_value f [] = None.
Proof. destruct f; reflexivity. Qed.

Lemma parse_elements_nil (f : nat) : parse_elements f [] = None.
Proof.
  destruct f; [reflexivity|]. cbn [parse_elements].
  rewrite parse_value_nil. reflexivity.
Qed.

Lemma parse_members_nil (f : nat) : parse_members f [] = None.
Proof. destruct f; reflexivity. Qed.

Lemma parse_value_step (f : nat) :
  elements_fuel_bound f -> members_fuel_bound f -> value_fuel_bound (S f).
Proof.
  intros IHe IHm ts v r H.
  destruct ts as [|t ts]; [discriminate|].
  destruct t; try discriminate;
    try (cbn [parse_value] in H; injection H as <- <-; exists 1%nat; simpl;
         split; [lia | split; [lia | intros [|f'] Hf; [lia | reflexivity]]]).
  - (* an array *)
    destruct ts as [|t ts];
      [cbn [parse_value] in H; rewrite parse_elements_nil in H; discriminate|].
    destruct t;
      try (cbn [parse_value] in H; injection H as <- <-; exists 2%nat; simpl;
           split; [lia | split; [lia | intros [|f'] Hf; [lia | reflexivity]]]);
      (cbn [parse_value] in H;
       match type of H with
       | context [parse_elements f ?l] =>
           destruct (parse_elements f l) as [[vs r']|] eqn:He; [|discriminate]
       end;
       injection H as <- <-;
       apply IHe in He as (k & Hlen & Hk & Hfuel);
       exists (S k); split; [simpl in *; lia | split; [lia|]];
       intros [|f'] Hf; [lia|];
       cbn [parse_value]; rewrite (Hfuel f') by lia; reflexivity).
  - (* an object *)
    destruct ts as [|t ts];
      [cbn [parse_value] in H; rewrite parse_members_nil in H; discriminate|].
    destruct t;
      try (cbn [parse_value] in H; injection H as <- <-; exists 2%nat; simpl;
           split; [lia | split; [lia | intros [|f'] Hf; [lia | reflexivity]]]);
      (cbn [parse_value] in H;
       match type of H with
       | context [parse_members f ?l] =>
           destruct (parse_members f l) as [[ms r']|] eqn:He; [|discriminate]
       end;
       injection H as <- <-;
       apply IHm in He as (k & Hlen & Hk & Hfuel);
       exists (S k); split; [simpl in *; lia | split; [lia|]];
       intros [|f'] Hf; [lia|];
       cbn [parse_value]; rewrite (Hfuel f') by lia; reflexivity).
Qed.

Lemma parse_elements_step (f : nat) :
  value_fuel_bound f -> elements_fuel_bound f -> elements_fuel_bound (S f).
Proof.
  intros IHv IHe ts vs r H. cbn [parse_elements] in H.
  destruct (parse_value f ts) as [[v rest]|] eqn:Hv; [|discriminate].
  apply IHv in Hv as (kv & Hlen & Hkv & Hfuel).
  destruct rest as [|t rest]; [discriminate|].
  destruct t; try discriminate.
  - (* the closing bracket *)
    injection H as <- <-. exists (S kv).
    split; [simpl in *; lia | split; [lia|]].
    intros [|f'] Hf; [lia|]. cbn [parse_elements].
    rewrite (Hfuel f') by lia. reflexivity.
  - (* a comma and more elements *)
    destruct (parse_elements f rest) as [[vs' r']|] eqn:He; [|discriminate].
    injection H as <- <-.
    apply IHe in He as (ke & Hlen' & Hke & Hfuel').
    exists (S (kv + ke)). split; [simpl in *; lia | split; [lia|]].
    intros [|f'] Hf; [lia|]. cbn [parse_elements].
    rewrite (Hfuel f'), (Hfuel' f') by lia. reflexivity.
Qed.

Lemma parse_members_step (f : nat) :
  value_fuel_bound f -> members_fuel_bound f -> members_fuel_bound (S f).
Proof.
  intros IHv IHm ts ms r H. cbn [parse_members] in H.
  destruct ts as [|t ts]; [discriminate|].
  destruct t; try discriminate.
  destruct ts as [|t ts]; [discriminate|].
  destruct t; try discriminate.
  destruct (parse_value f ts) as [[v rest]|] eqn:Hv; [|discriminate].
  apply IHv in Hv as (kv & Hlen & Hkv & Hfuel).
  destruct rest as [|t rest]; [discriminate|].
  destruct t; try discriminate.
  - (* the closing brace *)
    injection H as <- <-. exists (S (S (S kv))).
    split; [simpl in *; lia | split; [lia|]].
    intros [|f'] Hf; [lia|]. cbn [parse_members].
    rewrite (Hfuel f') by lia. reflexivity.
  - (* a comma and more members *)
    destruct (parse_members f rest) as [[ms' r']|] eqn:Hm; [|discriminate].
    injection H as <- <-.
    apply IHm in Hm as (km & Hlen' & Hkm & Hfuel').
    exists (S (S (S (kv + km)))). split; [simpl in *; lia | split; [lia|]].
    intros [|f'] Hf; [lia|]. cbn [parse_members].
    rewrite (Hfuel f'), (Hfuel' f') by lia. reflexivity.
Qed.

Lemma parse_fuel_bound (f : nat) :
  value_fuel_bound f /\ elements_fuel_bound f /\ members_fuel_bound f.
Proof.
  induction f as [|f (IHv & IHe & IHm)].
  - repeat split; intros ts x r H; discriminate.
  - repeat split.
    + apply parse_value_step; assumption.
    + apply parse_elements_step; assumption.
    + apply parse_members_step; assumption.
Qed.

(** The fuel of [JSON_parse] is enough: tokens that parse with some fuel
    parse with the fuel that [JSON_parse] gives, so that [None] stands for a
    syntax error only. *)
Lemma JSON_parse_fuel_adequate (text : jsstring) (ts : list token)
      (f : nat) (v : JSON) :
  lex text = Some ts ->
  parse_value f ts = Some (v, []) ->
  JSON_parse text = Some v.
Proof.
  intros Hlex Hparse. unfold JSON_parse. rewrite Hlex.
  destruct (parse_fuel_bound f) as (Hv & _).
  apply Hv in Hparse as (k & Hlen & _ & Hfuel).
  rewrite (Hfuel (S (length ts))); [reflexivity|].
  simpl in Hlen. lia.
Qed.

End ParserFuel.

Section QuoteFacts.

Lemma lex_run_app (a b : jsstring) st :
  lex_run (a ++ b) st = lex_run b (lex_run a st).
Proof. unfold lex_run. apply fold_left_app. Qed.

Lemma hex_value_hex_digit (d : N) :
  (d < 16)%N -> hex_value (hex_digit d) = Some d.
Proof.
  intros Hd. unfold hex_value, hex_digit, is_digit.
  destruct (N.ltb_spec d 10).
  - replace ((48 <=? 48 + d) && (48 + d <=? 57))%N with true
      by (symmetry; apply andb_true_iff; split; apply N.leb_le; lia).
    f_equal. lia.
  - replace ((48 <=? 87 + d) && (87 + d <=? 57))%N with false
      by (symmetry; apply andb_false_iff; right; apply N.leb_gt; lia).
    replace ((97 <=? 87 + d) && (87 + d <=? 102))%N with true
      by (symmetry; apply andb_true_iff; split; apply N.leb_le; lia).
    f_equal. lia.
Qed.

Lemma hex_digits_value (c : N) :
  (c < 65536)%N ->
  (16 * (16 * (16 * (16 * 0 + c / 4096 mod 16) + c / 256 mod 16)
         + c / 16 mod 16) + c mod 16)%N = c.
Proof.
  intros Hc. zify. Z.to_euclidean_division_equations. lia.
Qed.

Lemma hex_digit_range (c k : N) : (c / k mod 16 < 16)%N.
Proof. apply N.mod_lt. discriminate. Qed.

Lemma lex_run_cons (c : code_unit) (s : jsstring) st :
  lex_run (c :: s) (Some st) = lex_run s (lex_step st c).
Proof. reflexivity. Qed.

Lemma lex_step_hex (d : N) acc n v toks :
  (d < 16)%N ->
  lex_step (LHex acc n v, toks) (hex_digit d)
  = if (n =? 3)%nat then Some (LStr (acc ++ [(16 * v + d)%N]), toks)
    else Some (LHex acc (S n) (16 * v + d)%N, toks).
Proof.
  intros Hd. unfold lex_step. rewrite hex_value_hex_digit by assumption.
  reflexivity.
Qed.

Lemma lex_unicode_escape (c : code_unit) acc toks :
  (c < 65536)%N ->
  lex_run (unicode_escape c) (Some (LStr acc, toks))
  = Some (LStr (acc ++ [c]), toks).
Proof.
  intros Hc. unfold unicode_escape.
  rewrite lex_run_cons.
  change (lex_step (LStr acc, toks) 92%N) with (Some (LEsc acc, toks)).
  rewrite lex_run_cons.
  change (lex_step (LEsc acc, toks) 117%N) with (Some (LHex acc 0 0%N, toks)).
  rewrite lex_run_cons, lex_step_hex by apply hex_digit_range.
  cbn [Nat.eqb].
  rewrite lex_run_cons, lex_step_hex by apply hex_digit_range.
  cbn [Nat.eqb].
  rewrite lex_run_cons, lex_step_hex by apply hex_digit_range.
  cbn [Nat.eqb].
  rewrite lex_run_cons, lex_step_hex by (apply N.mod_lt; discriminate).
  cbn [Nat.eqb]. rewrite hex_digits_value by assumption.
  reflexivity.
Qed.

Lemma lex_escape_unit (c : code_unit) acc toks :
  lex_run (escape_unit c) (Some (LStr acc, toks))
  = Some (LStr (acc ++ [c]), toks).
Proof.
  unfold escape_unit.
  repeat match goal with
         | |- context [(c =? ?b)%N] =>
             destruct (N.eqb_spec c b) as [-> |]; [reflexivity|]
         end.
  destruct (N.ltb_spec c 32).
  - apply lex_unicode_escape. lia.
  - unfold lex_run. cbn [fold_left lex_advance lex_step].
    replace (c =? 34)%N with false by (symmetry; apply N.eqb_neq; assumption).
    replace (c =? 92)%N with false by (symmetry; apply N.eqb_neq; assumption).
    replace (c <? 32)%N with false by (symmetry; apply N.ltb_ge; assumption).
    reflexivity.
Qed.

Lemma lex_surrogate (c : code_unit) acc toks :
  (55296 <= c)%N ->
  lex_step (LStr acc, toks) c = Some (LStr (acc ++ [c]), toks).
Proof.
  intros Hc. unfold lex_step.
  replace (c =? 34)%N with false by (symmetry; apply N.eqb_neq; lia).
  replace (c =? 92)%N with false by (symmetry; apply N.eqb_neq; lia).
  replace (c <? 32)%N with false by (symmetry; apply N.ltb_ge; lia).
  reflexivity.
Qed.

(** The lexer reads the characters that [JSON.stringify] writes for a string
    back to that string. *)
Lemma lex_quote_units (s : jsstring) :
  forall acc toks,
    lex_run (quote_units s) (Some (LStr acc, toks))
    = Some (LStr (acc ++ s), toks).
Proof.
  assert (H : forall n s, (length s <= n)%nat ->
                          forall acc toks,
                            lex_run (quote_units s) (Some (LStr acc, toks))
                            = Some (LStr (acc ++ s), toks)).
  { clear s. induction n as [|n IH]; intros [|c t] Hlen acc toks;
      simpl in Hlen; try lia;
      try (rewrite app_nil_r; reflexivity).
    assert (Hcons : forall rest : jsstring, (acc ++ [c]) ++ rest = acc ++ c :: rest)
      by (intros rest; rewrite <- app_assoc; reflexivity).
    cbn [quote_units]. destruct (is_high_surrogate c) eqn:Hhigh.
    - unfold is_high_surrogate in Hhigh.
      apply andb_true_iff in Hhigh as [Hlo Hhi].
      apply N.leb_le in Hlo. apply N.leb_le in Hhi.
      destruct t as [|d t'].
      + apply lex_unicode_escape. lia.
      + destruct (is_low_surrogate d) eqn:Hlow.
        * unfold is_low_surrogate in Hlow.
          apply andb_true_iff in Hlow as [Hlow _]. apply N.leb_le in Hlow.
          unfold lex_run. cbn [fold_left lex_advance].
          rewrite lex_surrogate by lia. cbn [lex_advance].
          rewrite lex_surrogate by lia.
          fold (lex_run (quote_units t')). rewrite IH by (simpl in Hlen; lia).
          rewrite <- !app_assoc. reflexivity.
        * rewrite lex_run_app, lex_unicode_escape by lia.
          rewrite IH by lia. rewrite Hcons. reflexivity.
    - destruct (is_low_surrogate c) eqn:Hlow.
      + unfold is_low_surrogate in Hlow.
        apply andb_true_iff in Hlow as [_ Hhi]. apply N.leb_le in Hhi.
        rewrite lex_run_app, lex_unicode_escape by lia.
        rewrite IH by lia. rewrite Hcons. reflexivity.
      + rewrite lex_run_app, lex_escape_unit.
        rewrite IH by lia. rewrite Hcons. reflexivity. }
  apply (H (length s)). lia.
Qed.

Lemma lex_QuoteJSONString (s rest : jsstring) toks :
  lex_run (QuoteJSONString s ++ rest) (Some (LTop, toks))
  = lex_run rest (Some (LTop, toks ++ [TStr s])).
Proof.
  unfold QuoteJSONString. rewrite <- !app_assoc.
  change ([quote_mark] ++ quote_units s ++ [quote_mark] ++ rest)
    with (quote_mark :: (quote_units s ++ quote_mark :: rest)).
  unfold lex_run at 1. cbn [fold_left lex_advance].
  change (lex_step (LTop, toks) quote_mark) with (Some (LStr [], toks)).
  fold (lex_run (quote_units s ++ quote_mark :: rest)).
  rewrite lex_run_app, lex_quote_units. reflexivity.
Qed.

End QuoteFacts.

Section StringArrayFacts.

Variable NumberToString : jsstring -> jsstring.

Lemma lex_joined_strings (l : list jsstring) :
  forall toks rest,
    lex_run (join (lit ",") (map QuoteJSONString l) ++ rest) (Some (LTop, toks))
    = lex_run rest (Some (LTop, toks ++ string_tokens l)).
Proof.
  induction l as [|s l IH]; intros toks rest.
  - simpl. rewrite app_nil_r. reflexivity.
  - destruct l as [|s' l].
    + change (join (lit ",") (map QuoteJSONString [s]))
        with (QuoteJSONString s).
      rewrite lex_QuoteJSONString. reflexivity.
    + change (join (lit ",") (map QuoteJSONString (s :: s' :: l)))
        with (QuoteJSONString s
              ++ lit "," ++ join (lit ",") (map QuoteJSONString (s' :: l))).
      rewrite <- !app_assoc, lex_QuoteJSONString.
      change (lit "," ++ join (lit ",") (map QuoteJSONString (s' :: l)) ++ rest)
        with (44%N :: (join (lit ",") (map QuoteJSONString (s' :: l)) ++ rest)).
      rewrite lex_run_cons.
      change (lex_step (LTop, toks ++ [TStr s]) 44%N)
        with (Some (LTop, (toks ++ [TStr s]) ++ [TComma])).
      rewrite IH. rewrite <- !app_assoc. reflexivity.
Qed.

Lemma parse_string_elements (l : list jsstring) :
  l <> [] ->
  forall r,
    parse_elements (S (length l)) (string_tokens l ++ TRBracket :: r)
    = Some (map JStr l, r).
Proof.
  induction l as [|s l IH]; intros Hne r; [congruence|].
  destruct l as [|s' l].
  - reflexivity.
  - change (parse_elements (S (length (s :: s' :: l)))
              (string_tokens (s :: s' :: l) ++ TRBracket :: r))
      with (match parse_elements (S (length (s' :: l)))
                    (string_tokens (s' :: l) ++ TRBracket :: r) with
            | Some (vs, r') => Some (JStr s :: vs, r')
            | None => None
            end).
    rewrite IH by discriminate. reflexivity.
Qed.

Lemma JSON_parse_stringify_strings (l : list jsstring) :
  JSON_parse (JSON_stringify NumberToString (JArr (map JStr l)))
  = Some (JArr (map JStr l)).
Proof.
  apply (JSON_parse_fuel_adequate _
           (TLBracket :: string_tokens l ++ [TRBracket]) (S (S (length l)))).
  - unfold lex. cbn [JSON_stringify]. rewrite map_map.
    change (map (fun s => JSON_stringify NumberToString (JStr s)) l)
      with (map QuoteJSONString l).
    change (lit "[" ++ join (lit ",") (map QuoteJSONString l) ++ lit "]")
      with (91%N :: (join (lit ",") (map QuoteJSONString l) ++ lit "]")).
    rewrite lex_run_cons.
    change (lex_step (LTop, []) 91%N) with (Some (LTop, [TLBracket])).
    rewrite lex_joined_strings. reflexivity.
  - destruct l as [|s l]; [reflexivity|].
    cbn [parse_value].
    assert (Hshape : exists t ts, string_tokens (s :: l) ++ [TRBracket]
                                  = TStr t :: ts).
    { destruct l; eexists; eexists; reflexivity. }
    destruct Hshape as (t & ts & Hshape).
    pose proof (parse_string_elements (s :: l) ltac:(discriminate) []) as Hp.
    rewrite Hshape in *. rewrite Hp. reflexivity.
Qed.

End StringArrayFacts.

Ltac lex_piece :=
  match goal with
  | |- context [lex_run (QuoteJSONString ?s ++ ?rest) ?o] =>
      lazymatch o with
      | Some (LTop, ?toks) =>
          change (lex_run (QuoteJSONString s ++ rest) o)
            with (lex_run (QuoteJSONString s ++ rest) (Some (LTop, toks)));
          rewrite (lex_QuoteJSONString s rest toks)
      end
  | |- context [lex_run (?p ++ ?rest) ?o] =>
      rewrite (lex_run_app p rest o);
      let r := eval vm_compute in (lex_run p o) in
      change (lex_run p o) with r
  end.

Section SanitizeFacts.

(** Text that parses is left alone by the three replacements. *)
Lemma sanitize_json (text : jsstring) v :
  JSON_parse text = Some v -> sanitize text = trim text.
Proof.
  intros H. apply JSON_parse_trim in H. unfold sanitize.
  set (t := trim text) in *.
  assert (Hjson : replace_prefix_ws fence_json t = t).
  { unfold replace_prefix_ws. rewrite <- (app_nil_r t) at 1.
    unfold fence_json. change (lit "```json") with (96%N :: lit "``json").
    rewrite (JSON_parse_not_startsWith_backquote _ _ _ _ H). reflexivity. }
  assert (Hfence : replace_prefix_ws fence t = t).
  { unfold replace_prefix_ws. rewrite <- (app_nil_r t) at 1.
    unfold fence. change (lit "```") with (96%N :: lit "``").
    rewrite (JSON_parse_not_startsWith_backquote _ _ _ _ H). reflexivity. }
  rewrite Hjson, Hfence. unfold replace_ws_suffix, fence.
  change (lit "```") with (lit "``" ++ [96%N]).
  rewrite (JSON_parse_not_endsWith_backquote _ _ _ H). reflexivity.
Qed.

(** Without a fence at either end only [trim] changes the text. *)
Lemma sanitize_unfenced (text : jsstring) :
  startsWith (trim text) fence = false ->
  endsWith (trim text) fence = false ->
  sanitize text = trim text.
Proof.
  intros Hstart Hend. unfold sanitize.
  assert (Hjson : startsWith (trim text) fence_json = false).
  { destruct (startsWith (trim text) fence_json) eqn:E; [|reflexivity].
    apply startsWith_true_iff in E as [rest E].
    rewrite <- Hstart. symmetry. apply startsWith_true_iff.
    exists (lit "json" ++ rest). rewrite E. reflexivity. }
  unfold replace_prefix_ws at 2. rewrite Hjson.
  unfold replace_prefix_ws. rewrite Hstart.
  unfold replace_ws_suffix. rewrite Hend. reflexivity.
Qed.

Lemma trim_fenced (opener ws0 ws1 body ws2 ws3 : jsstring) :
  opener = fence \/ opener = fence_json ->
  all_white_space ws0 = true -> all_white_space ws3 = true ->
  trim (fenced opener ws0 ws1 body ws2 ws3)
  = opener ++ ws1 ++ body ++ ws2 ++ fence.
Proof.
  intros Hopener H0 H3. unfold trim, fenced.
  rewrite trimStart_app_white_space by assumption.
  assert (Hstart : forall rest, trimStart (opener ++ rest) = opener ++ rest)
    by (intros rest; destruct Hopener as [-> | ->]; reflexivity).
  rewrite Hstart.
  replace (opener ++ ws1 ++ body ++ ws2 ++ fence ++ ws3)
    with ((opener ++ ws1 ++ body ++ ws2 ++ fence) ++ ws3)
    by (rewrite <- !app_assoc; reflexivity).
  rewrite trimEnd_app_white_space by assumption.
  change fence with (lit "``" ++ [96%N]).
  rewrite !app_assoc. apply trimEnd_snoc. reflexivity.
Qed.

Lemma sanitize_fenced (opener ws0 ws1 body ws2 ws3 : jsstring) v :
  opener = fence \/ opener = fence_json ->
  all_white_space ws0 = true -> all_white_space ws1 = true ->
  all_white_space ws2 = true -> all_white_space ws3 = true ->
  JSON_parse body = Some v ->
  sanitize (fenced opener ws0 ws1 body ws2 ws3) = trim body.
Proof.
  intros Hopener H0 H1 H2 H3 Hbody.
  pose proof (JSON_parse_trimStart _ _ Hbody) as Hb.
  assert (Hne : trimStart body <> []).
  { intros E. rewrite E in Hb. discriminate. }
  unfold sanitize. rewrite trim_fenced by assumption.
  (* the opening fence and the white space after it *)
  assert (Hopen : replace_prefix_ws fence
                    (replace_prefix_ws fence_json
                       (opener ++ ws1 ++ body ++ ws2 ++ fence))
                  = trimStart body ++ ws2 ++ fence).
  { assert (Hrest : trimStart (ws1 ++ body ++ ws2 ++ fence)
                    = trimStart body ++ ws2 ++ fence).
    { rewrite trimStart_app_white_space by assumption.
      apply trimStart_app, Hne. }
    assert (Hlater : replace_prefix_ws fence (trimStart body ++ ws2 ++ fence)
                     = trimStart body ++ ws2 ++ fence).
    { unfold replace_prefix_ws, fence.
      change (lit "```") with (96%N :: lit "``").
      rewrite (JSON_parse_not_startsWith_backquote _ _ _ _ Hb). reflexivity. }
    destruct Hopener as [-> | ->].
    - assert (Hnot : startsWith (fence ++ ws1 ++ body ++ ws2 ++ fence) fence_json
                     = false).
      { change (startsWith (ws1 ++ body ++ ws2 ++ fence) (lit "json") = false).
        destruct ws1 as [|c ws1].
        - destruct body as [|c body]; [discriminate|].
          simpl. destruct (N.eqb_spec c 106) as [-> |]; [|reflexivity].
          rewrite JSON_parse_head_not_j in Hbody. discriminate.
        - simpl in H1. apply andb_true_iff in H1 as [Hc _].
          simpl. destruct (N.eqb_spec c 106) as [-> |]; [discriminate | reflexivity]. }
      unfold replace_prefix_ws at 2. rewrite Hnot.
      unfold replace_prefix_ws at 1.
      change (startsWith (fence ++ ws1 ++ body ++ ws2 ++ fence) fence) with true.
      cbv iota.
      change (skipn (length fence) (fence ++ ws1 ++ body ++ ws2 ++ fence))
        with (ws1 ++ body ++ ws2 ++ fence).
      exact Hrest.
    - unfold replace_prefix_ws at 2.
      change (startsWith (fence_json ++ ws1 ++ body ++ ws2 ++ fence) fence_json)
        with true.
      cbv iota.
      change (skipn (length fence_json)
                (fence_json ++ ws1 ++ body ++ ws2 ++ fence))
        with (ws1 ++ body ++ ws2 ++ fence).
      rewrite Hrest. exact Hlater. }
  rewrite Hopen.
  (* the closing fence and the white space before it *)
  unfold replace_ws_suffix.
  assert (Hends : endsWith (trimStart body ++ ws2 ++ fence) fence = true).
  { unfold endsWith. rewrite !app_assoc, rev_app_distr. reflexivity. }
  rewrite Hends.
  replace (firstn (length (trimStart body ++ ws2 ++ fence) - length fence)
             (trimStart body ++ ws2 ++ fence))
    with (trimStart body ++ ws2).
  - rewrite trimEnd_app_white_space by assumption. reflexivity.
  - rewrite !app_assoc, length_app, Nat.add_sub.
    rewrite firstn_app, firstn_all, Nat.sub_diag. simpl.
    rewrite app_nil_r. reflexivity.
Qed.

End SanitizeFacts.



(* ================================================================== *)
(** * Properties of the orchestrator *)

(** C7. A pair with no RFP file or with no proposal file is left out before
    the loop starts: a run on a sequence of pairs that holds such a pair
    ends with the same result (the same records, the same message) and the
    same state of the world, the same requests sent to the language model
    included, as the run on the sequence without it; a run on such a pair
    alone sends no request and produces no dataset. *)
Theorem incomplete_pair_excluded
    {World : Type} (fetch : World -> OllamaRequest -> Outcome Response * World)
    {File : Type} (readFileContent : File -> Outcome FileContent)
    (NumberToString : jsstring -> jsstring)
    (before after : list (DocumentPair File)) (incomplete : DocumentPair File)
    (st : State World) :
  rfp incomplete = [] \/ proposal incomplete = None ->
  handleGenerateJsonl fetch readFileContent NumberToString
    (before ++ incomplete :: after) st
  = handleGenerateJsonl fetch readFileContent NumberToString
      (before ++ after) st
  /\ handleGenerateJsonl fetch readFileContent NumberToString [incomplete] st
     = (ErrorShown
          (lit "Please provide at least one complete RFP and Proposal pair."),
        st).
Proof.
  intros Hincomplete.
  assert (Hfilter : is_complete incomplete = false).
  { unfold is_complete. destruct Hincomplete as [-> | ->].
    - reflexivity.
    - apply andb_false_r. }
  split.
  - unfold handleGenerateJsonl, completedPairs.
    rewrite !filter_app. simpl. rewrite Hfilter. reflexivity.
  - unfold handleGenerateJsonl, completedPairs. simpl. rewrite Hfilter.
    reflexivity.
Qed.

Lemma incomplete_pair_excluded_witness :
  handleGenerateJsonl scenario_backend plain_file (fun n => n)
    ([complete_pair] ++ pair_without_proposal :: []) (mkState 0%nat [])
  = handleGenerateJsonl scenario_backend plain_file (fun n => n)
      ([complete_pair] ++ []) (mkState 0%nat [])
  /\ handleGenerateJsonl scenario_backend plain_file (fun n => n)
       [pair_without_proposal] (mkState 0%nat [])
     = (ErrorShown
          (lit "Please provide at least one complete RFP and Proposal pair."),
        mkState 0%nat []).
Proof.
  apply (incomplete_pair_excluded scenario_backend plain_file (fun n => n)
           [complete_pair] [] pair_without_proposal (mkState 0%nat [])).
  right. reflexivity.
Defined.

Section DatasetFacts.

Variable NumberToString : jsstring -> jsstring.

Lemma hex_digit_not_line_feed (d : N) : hex_digit d <> line_feed.
Proof. unfold hex_digit, line_feed. destruct (d <? 10)%N; lia. Qed.

Lemma unicode_escape_no_line_feed (c : code_unit) :
  no_line_feed (unicode_escape c).
Proof.
  unfold unicode_escape.
  repeat (constructor; [first [apply hex_digit_not_line_feed | discriminate]|]).
  constructor.
Qed.

Lemma escape_unit_no_line_feed (c : code_unit) : no_line_feed (escape_unit c).
Proof.
  unfold escape_unit.
  repeat match goal with
         | |- context [(?a =? ?b)%N] => destruct (N.eqb_spec a b)
         end;
    try (repeat (constructor; [discriminate|]); constructor).
  destruct (c <? 32)%N; [apply unicode_escape_no_line_feed|].
  constructor; [assumption | constructor].
Qed.

Lemma quote_units_no_line_feed (s : jsstring) : no_line_feed (quote_units s).
Proof.
  assert (H : forall n s, (length s <= n)%nat -> no_line_feed (quote_units s)).
  { clear s. induction n as [|n IH]; intros [|c t] Hlen; simpl in Hlen;
      try constructor; try lia.
    cbn [quote_units]. destruct (is_high_surrogate c) eqn:Hhigh.
    - destruct t as [|d t'].
      + apply unicode_escape_no_line_feed.
      + destruct (is_low_surrogate d) eqn:Hlow.
        * unfold is_high_surrogate, is_low_surrogate in *.
          apply andb_true_iff in Hhigh as [Hhigh _]. apply N.leb_le in Hhigh.
          apply andb_true_iff in Hlow as [Hlow _]. apply N.leb_le in Hlow.
          constructor; [unfold line_feed; lia|].
          constructor; [unfold line_feed; lia|].
          apply IH. simpl in Hlen. lia.
        * apply Forall_app. split; [apply unicode_escape_no_line_feed|].
          apply IH. lia.
    - destruct (is_low_surrogate c);
        (apply Forall_app; split;
         [first [apply unicode_escape_no_line_feed | apply escape_unit_no_line_feed]
         | apply IH; lia]). }
  apply (H (length s)). lia.
Qed.

Lemma QuoteJSONString_no_line_feed (s : jsstring) :
  no_line_feed (QuoteJSONString s).
Proof.
  unfold QuoteJSONString. apply Forall_app. split.
  - constructor; [discriminate | constructor].
  - apply Forall_app. split; [apply quote_units_no_line_feed|].
    constructor; [discriminate | constructor].
Qed.

Lemma split_on_app (sep : code_unit) (line rest : jsstring) :
  Forall (fun c => c <> sep) line ->
  split_on sep (line ++ sep :: rest)
  = line :: split_on sep rest.
Proof.
  induction 1 as [|c line Hc _ IH]; simpl.
  - rewrite N.eqb_refl. reflexivity.
  - destruct (N.eqb_spec c sep); [contradiction|]. rewrite IH. reflexivity.
Qed.

Lemma split_on_line (sep : code_unit) (line : jsstring) :
  Forall (fun c => c <> sep) line -> split_on sep line = [line].
Proof.
  induction 1 as [|c line Hc _ IH]; simpl; [reflexivity|].
  destruct (N.eqb_spec c sep); [contradiction|]. rewrite IH. reflexivity.
Qed.

Lemma split_on_join (sep : code_unit) (lines : list jsstring) :
  lines <> [] ->
  Forall (fun line => Forall (fun c => c <> sep) line) lines ->
  split_on sep (join [sep] lines) = lines.
Proof.
  intros Hne Hall. revert Hne.
  induction Hall as [|line lines Hline Hlines IH]; intros Hne;
    [exfalso; apply Hne; reflexivity|].
  destruct lines as [|line' lines].
  - simpl. apply split_on_line, Hline.
  - change (join [sep] (line :: line' :: lines))
      with (line ++ sep :: join [sep] (line' :: lines)).
    rewrite split_on_app by assumption. rewrite IH by discriminate.
    reflexivity.
Qed.

End DatasetFacts.

Lemma forallb_no_line_feed (s : jsstring) :
  forallb (fun c => negb (c =? line_feed)%N) s = true -> no_line_feed s.
Proof.
  intros H. apply Forall_forall. intros c Hc.
  rewrite forallb_forall in H. specialize (H c Hc).
  destruct (N.eqb_spec c line_feed); [discriminate | assumption].
Qed.

Ltac no_line_feed_pieces :=
  lazymatch goal with
  | |- Forall _ (_ ++ _) =>
      apply Forall_app; split; no_line_feed_pieces
  | |- Forall _ (QuoteJSONString _) => apply QuoteJSONString_no_line_feed
  | |- _ => apply forallb_no_line_feed; vm_compute; reflexivity
  end.

Lemma training_line_no_line_feed (requirement answer : jsstring) :
  no_line_feed (training_line requirement answer).
Proof. unfold training_line, no_line_feed. no_line_feed_pieces. Qed.

Lemma stringify_entry (NumberToString : jsstring -> jsstring)
      (record : jsstring * jsstring) :
  JSON_stringify NumberToString (entry NumberToString (record_chunk record))
  = record_line record.
Proof.
  destruct record as [requirement answer].
  unfold record_line, training_line, record_chunk, entry.
  cbn [JSON_stringify map join fst snd ToString rfp_section proposal_section].
  unfold QuoteJSONString.
  match goal with
  | |- context [quote_units (?a ++ ?b ++ ?c ++ requirement)] =>
      set (q1 := quote_units (a ++ b ++ c ++ requirement))
  end.
  set (q2 := quote_units answer).
  clearbody q1 q2.
  rewrite <- !app_assoc. vm_compute. reflexivity.
Qed.

Lemma training_line_parses (NumberToString : jsstring -> jsstring)
      (requirement answer : jsstring) :
  JSON_parse (training_line requirement answer)
  = Some (entry NumberToString (record_chunk (requirement, answer))).
Proof.
  unfold JSON_parse, lex, training_line.
  repeat lex_piece.
  vm_compute. reflexivity.
Qed.

(** C8. For every sequence of (requirement, answer) records that is not
    empty, the dataset offered for download is the lines of the records, in
    the order of the records, joined by single line feeds; the line of a
    record is the JSON text of the object with the user message that reads
    Write a proposal section based on this RFP section:, two line feeds and
    the requirement, and the assistant message with the answer; no line
    holds a line feed, so that splitting the dataset at the line feeds gives
    back exactly the lines, with nothing before, between or after them; and
    every line is a JSON text that [JSON.parse] reads as the object of its
    record. *)
Theorem dataset_is_jsonl
    {World : Type} (fetch : World -> OllamaRequest -> Outcome Response * World)
    {File : Type} (readFileContent : File -> Outcome FileContent)
    (NumberToString : jsstring -> jsstring)
    (records : list (jsstring * jsstring)) :
  records <> [] ->
  jsonlContent NumberToString (map record_chunk records)
  = map record_line records
  /\ dataset NumberToString (map record_chunk records)
     = join nl (map record_line records)
  /\ Forall no_line_feed (map record_line records)
  /\ split_on line_feed (dataset NumberToString (map record_chunk records))
     = map record_line records
  /\ Forall (fun record =>
               JSON_parse (record_line record)
               = Some (entry NumberToString (record_chunk record))) records
  /\ (forall documentPairs (st st' : State World),
         process_pairs fetch readFileContent NumberToString
           (completedPairs documentPairs) [] st
         = (Returned (map record_chunk records), st') ->
         handleGenerateJsonl fetch readFileContent NumberToString
           documentPairs st
         = (DownloadReady (join nl (map record_line records))
                          (length records), st')).
Proof.
  intros Hne.
  assert (Hlines : jsonlContent NumberToString (map record_chunk records)
                   = map record_line records).
  { unfold jsonlContent. rewrite map_map. apply map_ext.
    intros record. apply stringify_entry. }
  assert (Hclean : Forall no_line_feed (map record_line records)).
  { apply Forall_forall. intros line Hin.
    apply in_map_iff in Hin as (record & <- & _).
    exact (training_line_no_line_feed (fst record) (snd record)). }
  assert (Hdata : dataset NumberToString (map record_chunk records)
                  = join nl (map record_line records)).
  { unfold dataset. rewrite Hlines. reflexivity. }
  repeat split.
  - exact Hlines.
  - exact Hdata.
  - exact Hclean.
  - rewrite Hdata. apply split_on_join; [|exact Hclean].
    destruct records; [congruence | discriminate].
  - apply Forall_forall. intros [requirement answer] _.
    change (record_line (requirement, answer))
      with (training_line requirement answer).
    exact (training_line_parses NumberToString requirement answer).
  - intros documentPairs st st' Hrun. unfold handleGenerateJsonl.
    destruct (completedPairs documentPairs) as [|p ps] eqn:Hcompleted.
    + simpl in Hrun. injection Hrun as Hnil _.
      destruct records; [congruence | discriminate].
    + cbn [length Nat.eqb]. rewrite Hrun.
      destruct records as [|r rs]; [congruence|].
      cbn [map length Nat.eqb].
      change (record_chunk r :: map record_chunk rs)
        with (map record_chunk (r :: rs)).
      rewrite Hdata, Hlines, !length_map. reflexivity.
Qed.

Lemma dataset_is_jsonl_witness :
  handleGenerateJsonl scenario_backend plain_file (fun n => n)
    [complete_pair] (mkState 0%nat [])
  = (DownloadReady
       (join nl (map record_line [(rfp_text, proposal_text)])) 1,
     mkState 3%nat
       [ollama_request
          (sections_prompt (lit "--- RFP File: " ++ rfp_text ++ lit " ---"
                            ++ nl ++ rfp_text)) true;
        relevance_request (fun n => n) (JStr rfp_text) proposal_text;
        ollama_request
          (extractionPrompt (fun n => n) (JStr rfp_text) proposal_text)
          false]).
Proof.
  apply (proj2 (proj2 (proj2 (proj2 (proj2
           (dataset_is_jsonl scenario_backend plain_file (fun n => n)
              [(rfp_text, proposal_text)] ltac:(discriminate))))))).
  vm_compute. reflexivity.
Defined.

(* ================================================================== *)
(** * Further properties of the pager *)

Section PagerPages.

(** The pages that the loop appends from index [i] on: their number, and
    each of them as a substring of the text. *)
Lemma textToPages_loop_pages (fuel : nat) (text : jsstring) (n : Z) :
  0 < n ->
  forall (i : Z) (pages : list jsstring),
    0 <= i ->
    Z.max 0 (jslength text - i) < Z.of_nat fuel ->
    exists ps,
      textToPages_loop fuel text n i pages = Some (pages ++ ps)
      /\ Z.of_nat (length ps) = (Z.max 0 (jslength text - i) + n - 1) / n
      /\ (forall k, (k < length ps)%nat ->
                    i + Z.of_nat k * n < jslength text
                    /\ nth k ps [] = substring text (i + Z.of_nat k * n)
                                       (i + Z.of_nat k * n + n)).
Proof.
  intros Hn. induction fuel as [|fuel IH]; intros i pages Hi Hfuel.
  - lia.
  - simpl. destruct (Z.ltb_spec i (jslength text)) as [Hlt | Hge].
    + destruct (IH (i + n) (pages ++ [substring text i (i + n)]))
        as (ps & Hrun & Hcount & Hnth); [lia | lia |].
      exists (substring text i (i + n) :: ps).
      rewrite Hrun, <- app_assoc. split; [reflexivity|]. split.
      * cbn [length]. rewrite Nat2Z.inj_succ, Hcount.
        replace (Z.max 0 (jslength text - i) + n - 1)
          with (jslength text - i - n + n - 1 + 1 * n) by lia.
        rewrite Z.div_add by lia.
        destruct (Z_lt_ge_dec (jslength text - (i + n)) 0).
        -- replace (Z.max 0 (jslength text - (i + n))) with 0 by lia.
           rewrite (Z.div_small (0 + n - 1)) by lia.
           rewrite (Z.div_small (jslength text - i - n + n - 1)) by lia. lia.
        -- replace (Z.max 0 (jslength text - (i + n)))
             with (jslength text - i - n) by lia.
           lia.
      * intros [|k] Hk.
        -- simpl. rewrite Z.add_0_r. split; [assumption | reflexivity].
        -- cbn [length] in Hk. destruct (Hnth k ltac:(lia)) as [Hin Hpage].
           replace (i + Z.of_nat (S k) * n) with (i + n + Z.of_nat k * n) by lia.
           split; [exact Hin | exact Hpage].
    + exists []. rewrite app_nil_r. split; [reflexivity|]. split.
      * replace (Z.max 0 (jslength text - i)) with 0 by lia.
        rewrite Z.div_small by lia. reflexivity.
      * intros k Hk. simpl in Hk. lia.
Qed.

End PagerPages.

(** X1. For a chunk size [n > 0], [textToPages] returns the ceiling of
    [text.length / n] pages; the page of index [k] is
    [text.substring (k * n, k * n + n)]; no page is empty and no page is
    longer than [n]. *)
Theorem textToPages_pages (text : jsstring) (n : Z) :
  0 < n ->
  exists pages,
    textToPages text n = Some pages
    /\ Z.of_nat (length pages) = (jslength text + n - 1) / n
    /\ (forall k, (k < length pages)%nat ->
                  nth k pages [] = substring text (Z.of_nat k * n)
                                     (Z.of_nat k * n + n)
                  /\ 0 < jslength (nth k pages []) <= n).
Proof.
  intros Hn.
  destruct (textToPages_loop_pages (S (length text)) text n Hn 0 [])
    as (ps & Hrun & Hcount & Hnth); [lia | unfold jslength; lia |].
  exists ps. split; [exact Hrun|]. split.
  - rewrite Hcount. f_equal. unfold jslength. lia.
  - intros k Hk. destruct (Hnth k Hk) as [Hin Hpage].
    rewrite Z.add_0_l in *. split; [exact Hpage|].
    rewrite Hpage, substring_chunk by lia.
    unfold jslength in *. rewrite length_firstn, length_skipn. lia.
Qed.

Lemma textToPages_pages_witness :
  exists pages,
    textToPages (lit "abcdefghij") 4 = Some pages
    /\ Z.of_nat (length pages) = (jslength (lit "abcdefghij") + 4 - 1) / 4
    /\ (forall k, (k < length pages)%nat ->
                  nth k pages [] = substring (lit "abcdefghij")
                                     (Z.of_nat k * 4) (Z.of_nat k * 4 + 4)
                  /\ 0 < jslength (nth k pages []) <= 4).
Proof. apply (textToPages_pages (lit "abcdefghij") 4). lia. Defined.

(* ================================================================== *)
(** * Further properties of the language-model client *)

Section ClientFacts.

Context {World : Type}.
Variable fetch : World -> OllamaRequest -> Outcome Response * World.

Lemma callOllama_catch_kinds (error : JsError) :
  (err_class (callOllama_catch error) = OllamaConnectionError
   \/ err_class (callOllama_catch error) = OtherError)
  /\ (err_class (callOllama_catch error) = OtherError ->
      err_message (callOllama_catch error)
      = lit "Failed to connect to Ollama: " ++ err_message error).
Proof.
  unfold callOllama_catch, is_connection_error.
  destruct (err_class error) eqn:Hclass;
    try destruct (isNetworkError error);
    cbn [err_class err_message]; rewrite ?Hclass;
    (split; [auto | try discriminate; reflexivity]).
Qed.

(** An error thrown by [callOllama] was thrown by its [catch] block. *)
Lemma callOllama_thrown prompt jsonMode (st st' : State World) e :
  callOllama fetch prompt jsonMode st = (Thrown e, st') ->
  exists caught, e = callOllama_catch caught.
Proof.
  unfold callOllama.
  destruct (fetch (world st) (ollama_request prompt jsonMode)) as [fetched w].
  destruct (callOllama_try fetched) as [responseText | caught];
    intros H; [discriminate|].
  injection H as <- _. exists caught. reflexivity.
Qed.

Lemma callOllama_thrown_kind prompt jsonMode (st st' : State World) e :
  callOllama fetch prompt jsonMode st = (Thrown e, st') ->
  err_class e = OllamaConnectionError \/ err_class e = OtherError.
Proof.
  intros H. apply callOllama_thrown in H as [caught ->].
  apply callOllama_catch_kinds.
Qed.

End ClientFacts.

Section MessageFacts.

Lemma includes_skip_prefix (prefix s rest : jsstring) (c : code_unit) :
  Forall (fun x => x <> c) prefix ->
  includes (prefix ++ s) (c :: rest) = includes s (c :: rest).
Proof.
  induction 1 as [|x prefix Hx _ IH]; [reflexivity|].
  cbn [app includes startsWith].
  destruct (N.eqb_spec x c); [contradiction|]. exact IH.
Qed.

Lemma string_of_uint_digits (u : Decimal.uint) :
  Forall (fun c => (48 <= c <= 57)%N) (lit (NilEmpty.string_of_uint u)).
Proof.
  induction u; cbn; constructor; try assumption; lia.
Qed.

Lemma decimal_digits (n : N) : Forall (fun c => (48 <= c <= 57)%N) (decimal n).
Proof. apply string_of_uint_digits. Qed.

(** The text before the body in the message of an HTTP error holds neither
    the letter f nor the letter N. *)
Lemma api_error_prefix (status : N) (c : code_unit) :
  c = 102%N \/ c = 78%N ->
  Forall (fun x => x <> c)
         (lit "Ollama API Error (" ++ decimal status ++ lit "): ").
Proof.
  intros Hc. apply Forall_app. split; [|apply Forall_app; split].
  - apply Forall_forall. intros x Hx. simpl in Hx.
    repeat (destruct Hx as [<- | Hx]; [destruct Hc as [-> | ->]; discriminate|]).
    contradiction.
  - eapply Forall_impl; [|apply decimal_digits].
    intros x Hx. cbv beta in Hx. destruct Hc as [-> | ->]; lia.
  - repeat (constructor; [destruct Hc as [-> | ->]; discriminate|]).
    constructor.
Qed.

End MessageFacts.

(** X2. Whatever the backend does, an error thrown by [callOllama] is an
    [OllamaConnectionError] or a plain [Error], never the [TypeError] or
    the other value that it caught; the message of a plain one begins with
    Failed to connect to Ollama; and the call has sent exactly one
    request. *)
Theorem callOllama_error_kinds
    {World : Type} (fetch : World -> OllamaRequest -> Outcome Response * World)
    (prompt : jsstring) (jsonMode : bool) (st st' : State World) (e : JsError) :
  callOllama fetch prompt jsonMode st = (Thrown e, st') ->
  (err_class e = OllamaConnectionError \/ err_class e = OtherError)
  /\ (err_class e = OtherError ->
      exists inner,
        err_message e = lit "Failed to connect to Ollama: " ++ inner)
  /\ calls st' = calls st ++ [ollama_request prompt jsonMode].
Proof.
  intros H. pose proof (callOllama_calls fetch _ _ _ _ _ H) as Hcalls.
  apply callOllama_thrown in H as [caught ->].
  destruct (callOllama_catch_kinds caught) as [Hkind Hmessage].
  split; [exact Hkind | split; [|exact Hcalls]].
  intros Hplain. exists (err_message caught). apply Hmessage, Hplain.
Qed.

Lemma callOllama_error_kinds_witness :
  (err_class (mkJsError OtherError
                (lit "Failed to connect to Ollama: "
                 ++ api_error_message 500 (lit "boom")))
   = OllamaConnectionError
   \/ err_class (mkJsError OtherError
                   (lit "Failed to connect to Ollama: "
                    ++ api_error_message 500 (lit "boom")))
      = OtherError)
  /\ (err_class (mkJsError OtherError
                   (lit "Failed to connect to Ollama: "
                    ++ api_error_message 500 (lit "boom")))
      = OtherError ->
      exists inner,
        err_message (mkJsError OtherError
                       (lit "Failed to connect to Ollama: "
                        ++ api_error_message 500 (lit "boom")))
        = lit "Failed to connect to Ollama: " ++ inner)
  /\ calls (mkState 1%nat [ollama_request (lit "hello") false])
     = calls (mkState 0%nat []) ++ [ollama_request (lit "hello") false].
Proof.
  apply (callOllama_error_kinds flaky (lit "hello") false (mkState 0%nat [])).
  vm_compute. reflexivity.
Defined.

(** X3. When the backend answers with a status that is not a success and
    the body [body], [callOllama] throws: an [OllamaConnectionError] with the
    remediation text when [body] contains fetch or Network, and otherwise a
    plain [Error] whose message is Failed to connect to Ollama: Ollama API
    Error (status): body, with the status in decimal. *)
Theorem callOllama_http_error
    {World : Type} (fetch : World -> OllamaRequest -> Outcome Response * World)
    (prompt : jsstring) (jsonMode : bool) (st : State World)
    (response : Response) (body : jsstring) (w' : World) :
  fetch (world st) (ollama_request prompt jsonMode) = (Returned response, w') ->
  ok response = false ->
  text response = Returned body ->
  callOllama fetch prompt jsonMode st
  = (Thrown
       (if includes body (lit "fetch") || includes body (lit "Network")
        then mkJsError OllamaConnectionError connection_failed_message
        else mkJsError OtherError
               (lit "Failed to connect to Ollama: "
                ++ api_error_message (status response) body)),
     mkState w' (calls st ++ [ollama_request prompt jsonMode])).
Proof.
  intros Hfetch Hok Htext. unfold callOllama. rewrite Hfetch.
  unfold callOllama_try. rewrite Hok, Htext. cbn [negb].
  unfold callOllama_catch, is_connection_error, isNetworkError.
  cbn [err_class err_message].
  fold (api_error_message (status response) body).
  assert (Hfetch' : includes (api_error_message (status response) body) (lit "fetch")
                    = includes body (lit "fetch")).
  { unfold api_error_message. rewrite !app_assoc.
    apply (includes_skip_prefix _ body (lit "etch") 102%N).
    rewrite <- app_assoc. apply api_error_prefix. left. reflexivity. }
  assert (Hnet : includes (api_error_message (status response) body) (lit "Network")
                 = includes body (lit "Network")).
  { unfold api_error_message. rewrite !app_assoc.
    apply (includes_skip_prefix _ body (lit "etwork") 78%N).
    rewrite <- app_assoc. apply api_error_prefix. right. reflexivity. }
  rewrite Hfetch', Hnet.
  destruct (includes body (lit "fetch") || includes body (lit "Network"));
    reflexivity.
Qed.

Lemma callOllama_http_error_witness :
  callOllama gateway_error (lit "hello") false start
  = (Thrown
       (if includes (lit "Bad Gateway: Network unreachable") (lit "fetch")
           || includes (lit "Bad Gateway: Network unreachable") (lit "Network")
        then mkJsError OllamaConnectionError connection_failed_message
        else mkJsError OtherError
               (lit "Failed to connect to Ollama: "
                ++ api_error_message 502 (lit "Bad Gateway: Network unreachable"))),
     mkState tt (calls start ++ [ollama_request (lit "hello") false])).
Proof.
  apply (callOllama_http_error gateway_error (lit "hello") false start
           {| ok := false; status := 502;
              text := Returned (lit "Bad Gateway: Network unreachable");
              json := Returned JNull |}
           (lit "Bad Gateway: Network unreachable") tt);
    reflexivity.
Defined.

(* ================================================================== *)
(** * Further properties of the section extractor *)

Section ExtractorRuns.

Context {World : Type}.
Variable fetch : World -> OllamaRequest -> Outcome Response * World.

Lemma safeJsonParse_valid (text : jsstring) (v : JSON) :
  JSON_parse text = Some v -> safeJsonParse text = v.
Proof.
  intros H. unfold safeJsonParse.
  rewrite (sanitize_json _ _ H), (JSON_parse_trim _ _ H). reflexivity.
Qed.

(** One iteration sends one request; it can only throw a connection error;
    it only appends to the sections. *)
Lemma extract_page_outcome page acc (st st' : State World) o :
  extract_page fetch page acc st = (o, st') ->
  calls st' = calls st ++ [sections_request page]
  /\ match o with
     | Returned sections => exists added, sections = acc ++ added
     | Thrown e => is_connection_error e = true
     end.
Proof.
  unfold extract_page, try_catch, bind.
  destruct (callOllama fetch (sections_prompt page) true st)
    as [[responseText | e] st1] eqn:Hcall;
    apply callOllama_calls in Hcall.
  - destruct (safeJsonParse responseText) as [| | | |elements|];
      intros H; injection H as <- <-; (split; [exact Hcall|]);
      first [exists elements; reflexivity
            | exists []; rewrite app_nil_r; reflexivity].
  - destruct (is_connection_error e) eqn:He;
      intros H; injection H as <- <-; (split; [exact Hcall|]).
    + exact He.
    + exists []. rewrite app_nil_r. reflexivity.
Qed.

Lemma extract_loop_outcome pages :
  forall acc (st st' : State World) o,
    extract_loop fetch pages acc st = (o, st') ->
    match o with
    | Returned sections =>
        calls st' = calls st ++ map sections_request pages
        /\ exists added, sections = acc ++ added
    | Thrown e =>
        is_connection_error e = true
        /\ exists k, (k < length pages)%nat
                     /\ calls st'
                        = calls st ++ map sections_request (firstn (S k) pages)
    end.
Proof.
  induction pages as [|page pages IH]; intros acc st st' o H.
  - simpl in H. injection H as <- <-. split.
    + rewrite app_nil_r. reflexivity.
    + exists []. rewrite app_nil_r. reflexivity.
  - simpl in H. unfold bind in H.
    destruct (extract_page fetch page acc st) as [[acc' | e] st1] eqn:Hpage;
      apply extract_page_outcome in Hpage as [Hcalls Hpage].
    + destruct Hpage as [added ->]. apply IH in H.
      destruct o as [sections | e].
      * destruct H as [Hlog [added' ->]]. split.
        -- rewrite Hlog, Hcalls, <- app_assoc. reflexivity.
        -- exists (added ++ added'). rewrite app_assoc. reflexivity.
      * destruct H as [He (k & Hk & Hlog)]. split; [exact He|].
        exists (S k). split; [simpl; lia|].
        rewrite Hlog, Hcalls, <- app_assoc. reflexivity.
    + injection H as <- <-. split; [exact Hpage|].
      exists 0%nat. split; [simpl; lia|]. exact Hcalls.
Qed.

(** The sections found do not depend on the sections found before. *)
Lemma extract_page_acc page acc (st : State World) :
  extract_page fetch page acc st
  = match extract_page fetch page [] st with
    | (Returned added, st') => (Returned (acc ++ added), st')
    | (Thrown e, st') => (Thrown e, st')
    end.
Proof.
  unfold extract_page, try_catch, bind.
  destruct (callOllama fetch (sections_prompt page) true st)
    as [[responseText | e] st1].
  - destruct (safeJsonParse responseText); unfold ret;
      rewrite ?app_nil_r; reflexivity.
  - destruct (is_connection_error e); unfold ret, throw;
      rewrite ?app_nil_r; reflexivity.
Qed.

Lemma extract_loop_acc pages :
  forall acc (st : State World),
    extract_loop fetch pages acc st
    = match extract_loop fetch pages [] st with
      | (Returned added, st') => (Returned (acc ++ added), st')
      | (Thrown e, st') => (Thrown e, st')
      end.
Proof.
  induction pages as [|page pages IH]; intros acc st.
  - simpl. unfold ret. rewrite app_nil_r. reflexivity.
  - simpl. unfold bind. rewrite (extract_page_acc page acc).
    destruct (extract_page fetch page [] st) as [[added | e] st1];
      [|reflexivity].
    rewrite (IH (acc ++ added)), (IH ([] ++ added)).
    destruct (extract_loop fetch pages [] st1) as [[added' | e] st2];
      [|reflexivity].
    simpl. rewrite app_assoc. reflexivity.
Qed.

End ExtractorRuns.

(** X4. A call of [extractSectionsFromDocument] that returns has sent
    exactly one JSON-mode request per page, in page order; a call that
    throws has thrown an [OllamaConnectionError], after the requests for the
    pages up to the failing one and for no page after it. *)
Theorem extractSections_requests
    {World : Type} (fetch : World -> OllamaRequest -> Outcome Response * World)
    (documentPages : list jsstring) (st st' : State World)
    (o : Outcome (list JSON)) :
  extractSectionsFromDocument fetch documentPages st = (o, st') ->
  match o with
  | Returned _ => calls st' = calls st ++ map sections_request documentPages
  | Thrown e =>
      err_class e = OllamaConnectionError
      /\ exists k, (k < length documentPages)%nat
                   /\ calls st'
                      = calls st
                        ++ map sections_request (firstn (S k) documentPages)
  end.
Proof.
  intros H. apply extract_loop_outcome in H. destruct o as [sections | e].
  - apply H.
  - destruct H as [He Hlog]. split; [|exact Hlog].
    unfold is_connection_error in He. destruct (err_class e); congruence.
Qed.

Lemma extractSections_requests_witness :
  err_class (mkJsError OllamaConnectionError connection_failed_message)
  = OllamaConnectionError
  /\ exists k, (k < length [lit "p1"; lit "p2"; lit "p3"; lit "p4"])%nat
               /\ calls (mkState 3%nat
                           (map sections_request [lit "p1"; lit "p2"; lit "p3"]))
                  = calls (mkState 0%nat [])
                    ++ map sections_request
                         (firstn (S k) [lit "p1"; lit "p2"; lit "p3"; lit "p4"]).
Proof.
  apply (extractSections_requests flaky [lit "p1"; lit "p2"; lit "p3"; lit "p4"]
           (mkState 0%nat [])
           (mkState 3%nat (map sections_request [lit "p1"; lit "p2"; lit "p3"]))
           (Thrown (mkJsError OllamaConnectionError connection_failed_message))).
  vm_compute. reflexivity.
Defined.

(** X5. A response that is valid JSON but not an array, such as an object
    that holds the array of the sections, contributes no section: the page
    is passed over without any error. *)
Theorem extractSections_ignores_non_arrays
    {World : Type} (fetch : World -> OllamaRequest -> Outcome Response * World)
    (page : jsstring) (allSections : list JSON) (st st' : State World)
    (responseText : jsstring) (v : JSON) :
  callOllama fetch (sections_prompt page) true st
  = (Returned responseText, st') ->
  JSON_parse responseText = Some v ->
  isArray v = false ->
  extract_page fetch page allSections st = (Returned allSections, st').
Proof.
  intros Hcall Hparse Hkind.
  rewrite (extract_page_returned fetch _ _ _ _ _ Hcall).
  rewrite (safeJsonParse_valid _ _ Hparse).
  destruct v; try reflexivity. discriminate.
Qed.

Lemma extractSections_ignores_non_arrays_witness :
  extract_page (replying wrapped_array_response) (lit "page")
    [JStr (lit "earlier")] start
  = (Returned [JStr (lit "earlier")],
     mkState tt [sections_request (lit "page")]).
Proof.
  apply (extractSections_ignores_non_arrays (replying wrapped_array_response)
           (lit "page") [JStr (lit "earlier")] start
           (mkState tt [sections_request (lit "page")])
           wrapped_array_response
           (JObj [(lit "sections", JArr [JStr (lit "s")])]));
    vm_compute; reflexivity.
Defined.

(** X6. The sections of a document are those of its pages in page order:
    when the pages [first] give the sections [s1] and, from the state
    reached, the pages [rest] give [s2], the pages [first ++ rest] give
    [s1 ++ s2]. *)
Theorem extractSections_app
    {World : Type} (fetch : World -> OllamaRequest -> Outcome Response * World)
    (first rest : list jsstring) (st st1 st2 : State World)
    (s1 s2 : list JSON) :
  extractSectionsFromDocument fetch first st = (Returned s1, st1) ->
  extractSectionsFromDocument fetch rest st1 = (Returned s2, st2) ->
  extractSectionsFromDocument fetch (first ++ rest) st
  = (Returned (s1 ++ s2), st2).
Proof.
  unfold extractSectionsFromDocument. intros Hfirst Hrest.
  rewrite extract_loop_app, Hfirst, extract_loop_acc, Hrest. reflexivity.
Qed.

Lemma extractSections_app_witness :
  extractSectionsFromDocument flaky ([lit "p1"] ++ [lit "p2"]) (mkState 0%nat [])
  = (Returned ([] ++ [JStr (lit "s")]),
     mkState 2%nat (map sections_request [lit "p1"; lit "p2"])).
Proof.
  apply (extractSections_app flaky [lit "p1"] [lit "p2"] (mkState 0%nat [])
           (mkState 1%nat [sections_request (lit "p1")]));
    vm_compute; reflexivity.
Defined.

(* ================================================================== *)
(** * Further properties of the section matcher *)

Section TrimFacts.

Lemma trimStart_fixed (s : jsstring) :
  match s with c :: _ => is_white_space c = false | [] => True end ->
  trimStart s = s.
Proof. destruct s as [|c s]; simpl; [reflexivity | intros ->; reflexivity]. Qed.

Lemma trimStart_head (s : jsstring) :
  match trimStart s with c :: _ => is_white_space c = false | [] => True end.
Proof.
  induction s as [|c s IH]; simpl; [exact I|].
  destruct (is_white_space c) eqn:Hc; [exact IH | exact Hc].
Qed.

Lemma trimStart_idempotent (s : jsstring) : trimStart (trimStart s) = trimStart s.
Proof. apply trimStart_fixed, trimStart_head. Qed.

Lemma trimEnd_idempotent (s : jsstring) : trimEnd (trimEnd s) = trimEnd s.
Proof.
  unfold trimEnd. rewrite rev_involutive, trimStart_idempotent. reflexivity.
Qed.

(** Removing white space at the end leaves a first code unit that is not
    white space in place. *)
Lemma trimEnd_head (s : jsstring) :
  match s with c :: _ => is_white_space c = false | [] => True end ->
  match trimEnd s with c :: _ => is_white_space c = false | [] => True end.
Proof.
  destruct s as [|c s]; [intros _; exact I|]. intros Hc.
  unfold trimEnd. simpl rev.
  assert (H : forall r, exists r', trimStart (r ++ [c]) = r' ++ [c]).
  { induction r as [|x r [r' IH]]; simpl.
    - rewrite Hc. exists []. reflexivity.
    - destruct (is_white_space x).
      + exists r'. exact IH.
      + exists (x :: r). reflexivity. }
  destruct (H (rev s)) as [r' ->]. rewrite rev_app_distr. simpl. exact Hc.
Qed.

Lemma trim_idempotent (s : jsstring) : trim (trim s) = trim s.
Proof.
  unfold trim at 1.
  rewrite (trimStart_fixed (trim s)).
  - unfold trim. apply trimEnd_idempotent.
  - unfold trim. apply trimEnd_head, trimStart_head.
Qed.

End TrimFacts.

Section MatcherRuns.

Context {World : Type}.
Variable fetch : World -> OllamaRequest -> Outcome Response * World.
Variable NumberToString : jsstring -> jsstring.

Lemma relevance_page_outcome rfpSection page relevant (st st' : State World) o :
  relevance_page fetch NumberToString rfpSection page relevant st = (o, st') ->
  match o with
  | Returned relevant' =>
      relevant' = relevant \/ relevant' = relevant ++ [page]
  | Thrown e => is_connection_error e = true
  end.
Proof.
  unfold relevance_page, try_catch, bind.
  destruct (callOllama fetch (relevance_prompt NumberToString rfpSection page)
              false st) as [[responseText | e] st1].
  - destruct (says_yes responseText); intros H; injection H as <- _; auto.
  - destruct (is_connection_error e) eqn:He; intros H; injection H as <- _;
      auto.
Qed.

Lemma relevance_loop_outcome rfpSection pages :
  forall relevant (st st' : State World) o,
    relevance_loop fetch NumberToString rfpSection pages relevant st = (o, st') ->
    match o with
    | Returned result =>
        exists selected,
          result = relevant ++ selected /\ Subsequence selected pages
    | Thrown e => is_connection_error e = true
    end.
Proof.
  induction pages as [|page pages IH]; intros relevant st st' o H.
  - simpl in H. injection H as <- _. exists []. split.
    + rewrite app_nil_r. reflexivity.
    + constructor.
  - simpl in H. unfold bind in H.
    destruct (relevance_page fetch NumberToString rfpSection page relevant st)
      as [[relevant' | e] st1] eqn:Hpage;
      apply relevance_page_outcome in Hpage.
    + apply IH in H. destruct o as [result | e]; [|exact H].
      destruct H as (selected & -> & Hsub).
      destruct Hpage as [-> | ->].
      * exists selected. split; [reflexivity|].
        apply Subsequence_skip, Hsub.
      * exists (page :: selected). split.
        -- rewrite <- app_assoc. reflexivity.
        -- apply Subsequence_take, Hsub.
    + injection H as <- _. exact Hpage.
Qed.

End MatcherRuns.

(** X7. The requests of [findMatchingSection].  When its relevance loop
    returns, with [relevantPages] the pages that were judged relevant, these
    are proposal pages in page order and the call has sent one relevance
    request per proposal page, in page order.  With no relevant page the
    call returns [null] and sends nothing more.  Otherwise it sends exactly
    one request more, the extraction request over [relevantPages], and what
    it throws then, if anything, is an [OllamaConnectionError].  For a
    section that is a string, as the signature has it, whatever the call
    throws is an [OllamaConnectionError]. *)
Theorem findMatchingSection_requests
    {World : Type} (fetch : World -> OllamaRequest -> Outcome Response * World)
    (NumberToString : jsstring -> jsstring)
    (rfpSection : JSON) (proposalPages relevantPages : list jsstring)
    (st st1 : State World) :
  relevance_loop fetch NumberToString rfpSection proposalPages [] st
  = (Returned relevantPages, st1) ->
  Subsequence relevantPages proposalPages
  /\ calls st1
     = calls st
       ++ map (relevance_request NumberToString rfpSection) proposalPages
  /\ (relevantPages = [] ->
      findMatchingSection fetch NumberToString rfpSection proposalPages st
      = (Returned None, st1))
  /\ (relevantPages <> [] ->
      exists o st',
        findMatchingSection fetch NumberToString rfpSection proposalPages st
        = (o, st')
        /\ calls st'
           = calls st1
             ++ [extraction_request NumberToString rfpSection relevantPages]
        /\ match o with
           | Returned _ => True
           | Thrown e => err_class e = OllamaConnectionError
           end)
  /\ (forall (section : jsstring) (e : JsError) (st' : State World),
         findMatchingSection fetch NumberToString (JStr section)
           proposalPages st = (Thrown e, st') ->
         err_class e = OllamaConnectionError).
Proof.
  intros Hloop.
  pose proof (relevance_loop_calls fetch NumberToString _ _ _ _ _ _ Hloop)
    as Hlog.
  pose proof (relevance_loop_outcome fetch NumberToString _ _ _ _ _ _ Hloop)
    as (selected & Hsel & Hsub).
  simpl in Hsel. subst selected.
  split; [exact Hsub|]. split; [exact Hlog|].
  split; [|split].
  - intros ->. unfold findMatchingSection, bind at 1. rewrite Hloop.
    reflexivity.
  - intros Hsome. unfold findMatchingSection, bind at 1. rewrite Hloop.
    destruct relevantPages as [|p ps]; [congruence|].
    cbn [length Nat.eqb]. unfold try_catch, bind.
    destruct (callOllama fetch
                (extractionPrompt NumberToString rfpSection
                   (join page_separator (p :: ps))) false st1)
      as [[responseText | e] st2] eqn:Hcall;
      pose proof (callOllama_calls fetch _ _ _ _ _ Hcall) as Hlog2.
    + eexists _, st2. split; [reflexivity|]. split; [exact Hlog2 | exact I].
    + destruct (is_connection_error e) eqn:He.
      * exists (Thrown e), st2. split; [reflexivity|].
        split; [exact Hlog2|].
        unfold is_connection_error in He. destruct (err_class e); congruence.
      * exists (Returned None), st2. split; [reflexivity|].
        split; [exact Hlog2 | exact I].
  - intros section e st'. unfold findMatchingSection, bind at 1.
    destruct (relevance_loop fetch NumberToString (JStr section)
                proposalPages [] st) as [[pages | e0] st0] eqn:Hstring.
    + destruct (length pages =? 0)%nat; [discriminate|].
      unfold try_catch, bind.
      destruct (callOllama fetch _ false st0) as [[responseText | e1] st2];
        [discriminate|].
      destruct (is_connection_error e1) eqn:He; [|discriminate].
      intros H. injection H as <- _.
      unfold is_connection_error in He. destruct (err_class e1); congruence.
    + intros H. injection H as <- _.
      apply relevance_loop_outcome in Hstring.
      unfold is_connection_error in Hstring.
      destruct (err_class e0); congruence.
Qed.

Lemma findMatchingSection_requests_witness :
  Subsequence [lit "p1"] [lit "p1"; lit "p2"]
  /\ calls (mkState 2%nat
              (map (relevance_request (fun n => n) (JStr (lit "req")))
                   [lit "p1"; lit "p2"]))
     = calls (mkState 0%nat [])
       ++ map (relevance_request (fun n => n) (JStr (lit "req")))
            [lit "p1"; lit "p2"]
  /\ ([lit "p1"] = [] ->
      findMatchingSection yes_no_answer (fun n => n) (JStr (lit "req"))
        [lit "p1"; lit "p2"] (mkState 0%nat [])
      = (Returned None,
         mkState 2%nat
           (map (relevance_request (fun n => n) (JStr (lit "req")))
                [lit "p1"; lit "p2"])))
  /\ ([lit "p1"] <> [] ->
      exists o st',
        findMatchingSection yes_no_answer (fun n => n) (JStr (lit "req"))
          [lit "p1"; lit "p2"] (mkState 0%nat [])
        = (o, st')
        /\ calls st'
           = calls (mkState 2%nat
                      (map (relevance_request (fun n => n) (JStr (lit "req")))
                           [lit "p1"; lit "p2"]))
             ++ [extraction_request (fun n => n) (JStr (lit "req"))
                   [lit "p1"]]
        /\ match o with
           | Returned _ => True
           | Thrown e => err_class e = OllamaConnectionError
           end)
  /\ (forall (section : jsstring) (e : JsError) (st' : State nat),
         findMatchingSection yes_no_answer (fun n => n) (JStr section)
           [lit "p1"; lit "p2"] (mkState 0%nat []) = (Thrown e, st') ->
         err_class e = OllamaConnectionError).
Proof.
  apply (findMatchingSection_requests yes_no_answer (fun n => n)
           (JStr (lit "req")) [lit "p1"; lit "p2"] [lit "p1"]
           (mkState 0%nat [])
           (mkState 2%nat
              (map (relevance_request (fun n => n) (JStr (lit "req")))
                   [lit "p1"; lit "p2"]))).
  vm_compute. reflexivity.
Defined.

(** X8. An answer that [findMatchingSection] returns is never empty and has
    no white space at its start or at its end: it is the trimmed response of
    the extraction call. *)
Theorem findMatchingSection_answer_trimmed
    {World : Type} (fetch : World -> OllamaRequest -> Outcome Response * World)
    (NumberToString : jsstring -> jsstring)
    (rfpSection : JSON) (proposalPages : list jsstring)
    (st st' : State World) (answer : jsstring) :
  findMatchingSection fetch NumberToString rfpSection proposalPages st
  = (Returned (Some answer), st') ->
  answer <> [] /\ trim answer = answer.
Proof.
  unfold findMatchingSection, bind at 1.
  destruct (relevance_loop fetch NumberToString rfpSection proposalPages [] st)
    as [[relevantPages | e] st1]; [|discriminate].
  destruct (length relevantPages =? 0)%nat; [discriminate|].
  unfold try_catch, bind.
  destruct (callOllama fetch _ false st1) as [[responseText | e] st2].
  - unfold ret, trimmed_or_null.
    destruct (trim responseText) as [|c t] eqn:Htrim; [discriminate|].
    intros H. injection H as <- _. split; [discriminate|].
    rewrite <- Htrim. apply trim_idempotent.
  - destruct (is_connection_error e); discriminate.
Qed.

Lemma findMatchingSection_answer_trimmed_witness :
  lit "the answer" <> [] /\ trim (lit "the answer") = lit "the answer".
Proof.
  apply (findMatchingSection_answer_trimmed yes_no_answer (fun n => n)
           (JStr (lit "req")) [lit "p1"; lit "p2"] (mkState 0%nat [])
           (mkState 3%nat
              (map (relevance_request (fun n => n) (JStr (lit "req")))
                   [lit "p1"; lit "p2"]
               ++ [extraction_request (fun n => n) (JStr (lit "req"))
                     [lit "p1"]]))).
  vm_compute. reflexivity.
Defined.

(* ================================================================== *)
(** * Further properties of the orchestrator *)

Section OrchestratorRuns.

Context {World : Type}.
Variable fetch : World -> OllamaRequest -> Outcome Response * World.
Context {File : Type}.
Variable readFileContent : File -> Outcome FileContent.
Variable NumberToString : jsstring -> jsstring.

Lemma read_all_length files contents :
  read_all readFileContent files = Returned contents ->
  length contents = length files.
Proof.
  revert contents. induction files as [|file files IH]; intros contents H.
  - injection H as <-. reflexivity.
  - simpl in H. destruct (readFileContent file) as [c | e]; [|discriminate].
    destruct (read_all readFileContent files) as [cs | e]; [|discriminate].
    injection H as <-. simpl. rewrite (IH cs); reflexivity.
Qed.

(** The text of the RFP files of a pair is never empty: it begins with the
    header of the first file. *)
Lemma combined_rfp_content_not_empty (c : FileContent) (cs : list FileContent) :
  join (nl ++ nl) (map rfp_file_text (c :: cs)) <> [].
Proof. destruct cs; discriminate. Qed.

Lemma pages_of_not_empty (text : jsstring) : text <> [] -> pages_of text <> [].
Proof.
  intros Htext Hpages. apply Htext.
  rewrite <- (pages_of_concat text), Hpages. reflexivity.
Qed.

Lemma process_pairs_app before after chunks (st : State World) :
  process_pairs fetch readFileContent NumberToString (before ++ after) chunks st
  = match process_pairs fetch readFileContent NumberToString before chunks st with
    | (Returned chunks', st') =>
        process_pairs fetch readFileContent NumberToString after chunks' st'
    | (Thrown e, st') => (Thrown e, st')
    end.
Proof.
  revert chunks st. induction before as [|p before IH]; intros chunks st.
  - reflexivity.
  - simpl. unfold bind.
    destruct (process_pair fetch readFileContent NumberToString p chunks st)
      as [[chunks' | e] st']; [apply IH | reflexivity].
Qed.

Lemma trimmed_or_null_some responseText answer :
  trimmed_or_null responseText = Some answer -> trimmed_answer answer.
Proof.
  unfold trimmed_or_null.
  destruct (trim responseText) as [|c t] eqn:Htrim; [discriminate|].
  intros H. injection H as <-. split; [discriminate|].
  rewrite <- Htrim. apply trim_idempotent.
Qed.

Lemma findMatchingSection_some rfpSection proposalPages
      (st st' : State World) answer :
  findMatchingSection fetch NumberToString rfpSection proposalPages st
  = (Returned (Some answer), st') ->
  trimmed_answer answer.
Proof.
  unfold findMatchingSection, bind at 1.
  destruct (relevance_loop fetch NumberToString rfpSection proposalPages [] st)
    as [[relevantPages | e] st1]; [|discriminate].
  destruct (length relevantPages =? 0)%nat; [discriminate|].
  unfold try_catch, bind.
  destruct (callOllama fetch _ false st1) as [[responseText | e] st2].
  - unfold ret. intros H. injection H as H _.
    apply (trimmed_or_null_some _ _ H).
  - destruct (is_connection_error e); discriminate.
Qed.

(** The loop over the sections appends at most one chunk per section, in
    section order, each with an answer as the matcher returns it. *)
Lemma match_sections_outcome rfpSections proposalPages :
  forall chunks (st st' : State World) result,
    match_sections fetch NumberToString rfpSections proposalPages chunks st
    = (Returned result, st') ->
    exists added,
      result = chunks ++ added
      /\ Subsequence (map rfp_section added) rfpSections
      /\ Forall (fun c => trimmed_answer (proposal_section c)) added.
Proof.
  induction rfpSections as [|rfpSection rest IH]; intros chunks st st' result H.
  - simpl in H. injection H as <- _. exists []. rewrite app_nil_r.
    repeat split; constructor.
  - simpl in H. unfold bind in H.
    destruct (findMatchingSection fetch NumberToString rfpSection
                proposalPages st) as [[[answer|] | e] st1] eqn:Hfind;
      [| |discriminate].
    + apply findMatchingSection_some in Hfind.
      destruct (is_nil answer).
      * apply IH in H as (added & -> & Hsub & Hall). exists added.
        repeat split; [apply Subsequence_skip, Hsub | exact Hall].
      * apply IH in H as (added & -> & Hsub & Hall).
        exists ({| rfp_section := rfpSection; proposal_section := answer |}
                  :: added).
        rewrite <- app_assoc. repeat split.
        -- apply Subsequence_take, Hsub.
        -- constructor; assumption.
    + apply IH in H as (added & -> & Hsub & Hall). exists added.
      repeat split; [apply Subsequence_skip, Hsub | exact Hall].
Qed.

Lemma process_pair_outcome p chunks (st st' : State World) result :
  process_pair fetch readFileContent NumberToString p chunks st
  = (Returned result, st') ->
  exists added,
    result = chunks ++ added
    /\ Forall (fun c => trimmed_answer (proposal_section c)) added.
Proof.
  unfold process_pair, bind, lift.
  destruct (read_all readFileContent (rfp p)) as [rfpContents | e];
    [|discriminate].
  destruct (read_proposal readFileContent (proposal p))
    as [proposalContent | e]; [|discriminate].
  destruct (extractSectionsFromDocument fetch _ st) as [[rfpSections | e] st1];
    [|discriminate].
  destruct (length rfpSections =? 0)%nat.
  - intros H. injection H as <- _. exists []. rewrite app_nil_r.
    split; [reflexivity | constructor].
  - intros H. apply match_sections_outcome in H as (added & -> & _ & Hall).
    exists added. split; [reflexivity | exact Hall].
Qed.

Lemma process_pairs_outcome pairs :
  forall chunks (st st' : State World) result,
    process_pairs fetch readFileContent NumberToString pairs chunks st
    = (Returned result, st') ->
    exists added,
      result = chunks ++ added
      /\ Forall (fun c => trimmed_answer (proposal_section c)) added.
Proof.
  induction pairs as [|p pairs IH]; intros chunks st st' result H.
  - simpl in H. injection H as <- _. exists []. rewrite app_nil_r.
    split; [reflexivity | constructor].
  - simpl in H. unfold bind in H.
    destruct (process_pair fetch readFileContent NumberToString p chunks st)
      as [[chunks' | e] st1] eqn:Hpair; [|discriminate].
    apply process_pair_outcome in Hpair as (added1 & -> & Hall1).
    apply IH in H as (added2 & -> & Hall2).
    exists (added1 ++ added2). rewrite app_assoc. split; [reflexivity|].
    apply Forall_app. split; assumption.
Qed.

End OrchestratorRuns.

Section ChunkLines.

Variable NumberToString : jsstring -> jsstring.

Lemma entry_of_chunk (chunk : Chunk) :
  entry NumberToString chunk
  = entry NumberToString
      (record_chunk (ToString NumberToString (rfp_section chunk),
                     proposal_section chunk)).
Proof. reflexivity. Qed.

Lemma stringify_chunk (chunk : Chunk) :
  JSON_stringify NumberToString (entry NumberToString chunk)
  = chunk_line NumberToString chunk.
Proof.
  rewrite entry_of_chunk.
  exact (stringify_entry NumberToString
           (ToString NumberToString (rfp_section chunk),
            proposal_section chunk)).
Qed.

Lemma chunk_line_parses (chunk : Chunk) :
  JSON_parse (chunk_line NumberToString chunk)
  = Some (entry NumberToString chunk).
Proof.
  rewrite entry_of_chunk.
  exact (training_line_parses NumberToString
           (ToString NumberToString (rfp_section chunk))
           (proposal_section chunk)).
Qed.

Lemma jsonlContent_lines (chunks : list Chunk) :
  jsonlContent NumberToString chunks = map (chunk_line NumberToString) chunks.
Proof. unfold jsonlContent. apply map_ext. intros c. apply stringify_chunk. Qed.

End ChunkLines.

Lemma Subsequence_length {A : Type} (l1 l2 : list A) :
  Subsequence l1 l2 -> (length l1 <= length l2)%nat.
Proof. induction 1; simpl; lia. Qed.

(** X9. The loop over the sections of a pair adds at most one record per
    section, in the order of the sections, and never more records than
    there are sections; every record added has an answer that is not empty
    and has no white space at its ends. *)
Theorem match_sections_records
    {World : Type} (fetch : World -> OllamaRequest -> Outcome Response * World)
    (NumberToString : jsstring -> jsstring)
    (rfpSections : list JSON) (proposalPages : list jsstring)
    (allFinalChunks result : list Chunk) (st st' : State World) :
  match_sections fetch NumberToString rfpSections proposalPages
    allFinalChunks st = (Returned result, st') ->
  exists added,
    result = allFinalChunks ++ added
    /\ Subsequence (map rfp_section added) rfpSections
    /\ (length added <= length rfpSections)%nat
    /\ Forall (fun c => trimmed_answer (proposal_section c)) added.
Proof.
  intros H.
  apply match_sections_outcome in H as (added & Hresult & Hsub & Hall).
  exists added. split; [exact Hresult|]. split; [exact Hsub|].
  split; [|exact Hall].
  rewrite <- (length_map rfp_section). apply Subsequence_length, Hsub.
Qed.

Lemma match_sections_records_witness :
  exists added,
    [{| rfp_section := JStr (lit "s1"); proposal_section := lit "the answer" |}]
    = [] ++ added
    /\ Subsequence (map rfp_section added) [JStr (lit "s1")]
    /\ (length added <= length [JStr (lit "s1")])%nat
    /\ Forall (fun c => trimmed_answer (proposal_section c)) added.
Proof.
  apply (match_sections_records yes_no_answer (fun n => n)
           [JStr (lit "s1")] [lit "p1"; lit "p2"] []
           [{| rfp_section := JStr (lit "s1");
               proposal_section := lit "the answer" |}]
           (mkState 0%nat [])
           (mkState 3%nat
              (map (relevance_request (fun n => n) (JStr (lit "s1")))
                   [lit "p1"; lit "p2"]
               ++ [extraction_request (fun n => n) (JStr (lit "s1"))
                     [lit "p1"]]))).
  vm_compute. reflexivity.
Defined.

(** X10. Whenever a run of [handleGenerateJsonl] offers a dataset, the
    dataset has at least one line; the number of entries shown is the number
    of its lines; splitting it at the line feeds gives exactly the lines of
    the records; every line is a JSON text that [JSON.parse] reads as the
    object of its record, whatever kind of JSON value the section is; and
    the answer of every record is not empty and has no white space at its
    ends. *)
Theorem download_is_well_formed
    {World : Type} (fetch : World -> OllamaRequest -> Outcome Response * World)
    {File : Type} (readFileContent : File -> Outcome FileContent)
    (NumberToString : jsstring -> jsstring)
    (documentPairs : list (DocumentPair File)) (st st' : State World)
    (blob : jsstring) (generatedEntries : nat) :
  handleGenerateJsonl fetch readFileContent NumberToString documentPairs st
  = (DownloadReady blob generatedEntries, st') ->
  exists chunks,
    chunks <> []
    /\ generatedEntries = length chunks
    /\ split_on line_feed blob = map (chunk_line NumberToString) chunks
    /\ Forall (fun c =>
                 JSON_parse (chunk_line NumberToString c)
                 = Some (entry NumberToString c)
                 /\ trimmed_answer (proposal_section c)) chunks.
Proof.
  unfold handleGenerateJsonl.
  destruct (length (completedPairs documentPairs) =? 0)%nat; [discriminate|].
  destruct (process_pairs fetch readFileContent NumberToString
              (completedPairs documentPairs) [] st)
    as [[chunks | e] st1] eqn:Hrun; [|discriminate].
  destruct chunks as [|c chunks]; [discriminate|].
  cbn [length Nat.eqb]. intros H. injection H as <- <- _.
  apply process_pairs_outcome in Hrun as (added & Hadded & Hall).
  simpl in Hadded. subst added.
  exists (c :: chunks). split; [discriminate|].
  split; [rewrite jsonlContent_lines, length_map; reflexivity|].
  split.
  - unfold dataset. rewrite jsonlContent_lines.
    apply split_on_join; [discriminate|].
    apply Forall_forall. intros line Hin.
    apply in_map_iff in Hin as (chunk & <- & _).
    exact (training_line_no_line_feed _ _).
  - apply Forall_forall. intros chunk Hin. split.
    + apply chunk_line_parses.
    + rewrite Forall_forall in Hall. apply Hall, Hin.
Qed.

Lemma download_is_well_formed_witness :
  exists chunks,
    chunks <> []
    /\ 1%nat = length chunks
    /\ split_on line_feed (join nl (map record_line [(rfp_text, proposal_text)]))
       = map (chunk_line (fun n => n)) chunks
    /\ Forall (fun c =>
                 JSON_parse (chunk_line (fun n => n) c)
                 = Some (entry (fun n => n) c)
                 /\ trimmed_answer (proposal_section c)) chunks.
Proof.
  apply (download_is_well_formed scenario_backend plain_file (fun n => n)
           [complete_pair] (mkState 0%nat [])
           (mkState 3%nat
              [sections_request (lit "--- RFP File: " ++ rfp_text ++ lit " ---"
                                 ++ nl ++ rfp_text);
               relevance_request (fun n => n) (JStr rfp_text) proposal_text;
               extraction_request (fun n => n) (JStr rfp_text) [proposal_text]])).
  vm_compute. reflexivity.
Defined.

(** X11. When the backend cannot be reached (its first [fetch] is rejected
    with a [TypeError]) and the files of the first complete pair are read,
    the run ends after that one request and shows the remediation text of
    the [OllamaConnectionError], whatever pairs follow. *)
Theorem run_fails_fast
    {World : Type} (fetch : World -> OllamaRequest -> Outcome Response * World)
    {File : Type} (readFileContent : File -> Outcome FileContent)
    (NumberToString : jsstring -> jsstring)
    (documentPairs rest : list (DocumentPair File)) (first : DocumentPair File)
    (rfpContents : list FileContent) (proposalContent : FileContent)
    (st : State World) :
  completedPairs documentPairs = first :: rest ->
  read_all readFileContent (rfp first) = Returned rfpContents ->
  read_proposal readFileContent (proposal first) = Returned proposalContent ->
  (forall request, exists e w',
      fetch (world st) request = (Thrown e, w') /\ err_class e = TypeError) ->
  exists st',
    handleGenerateJsonl fetch readFileContent NumberToString documentPairs st
    = (ErrorShown connection_failed_message, st')
    /\ exists page, calls st' = calls st ++ [sections_request page].
Proof.
  intros Hcompleted Hrfp Hproposal Hdown.
  assert (Hcomplete : is_complete first = true).
  { assert (Hin : In first (completedPairs documentPairs))
      by (rewrite Hcompleted; left; reflexivity).
    unfold completedPairs in Hin. apply filter_In in Hin. apply Hin. }
  assert (Hfiles : rfpContents <> []).
  { intros ->. apply read_all_length in Hrfp. unfold is_complete in Hcomplete.
    destruct (rfp first); [discriminate | discriminate]. }
  destruct rfpContents as [|c cs]; [congruence|].
  destruct (pages_of (join (nl ++ nl) (map rfp_file_text (c :: cs))))
    as [|page pages] eqn:Hpages.
  { exfalso. revert Hpages.
    apply pages_of_not_empty, combined_rfp_content_not_empty. }
  destruct (Hdown (sections_request page)) as (e & w' & Hfetch & Hclass).
  assert (Hcall : callOllama fetch (sections_prompt page) true st
                  = (Thrown (mkJsError OllamaConnectionError
                               connection_failed_message),
                     mkState w' (calls st ++ [sections_request page]))).
  { unfold callOllama. fold (sections_request page). rewrite Hfetch.
    cbn [callOllama_try]. unfold callOllama_catch, is_connection_error,
      isNetworkError. rewrite Hclass. reflexivity. }
  exists (mkState w' (calls st ++ [sections_request page])). split.
  - unfold handleGenerateJsonl. rewrite Hcompleted. cbn [length Nat.eqb].
    cbn [process_pairs]. unfold bind at 1. unfold process_pair.
    unfold bind at 1. unfold lift at 1. rewrite Hrfp.
    unfold bind at 1. unfold lift at 1. rewrite Hproposal.
    unfold bind at 1. rewrite Hpages.
    unfold extractSectionsFromDocument. cbn [extract_loop]. unfold bind at 1.
    rewrite (extract_page_thrown fetch _ _ _ _ _ Hcall). reflexivity.
  - exists page. reflexivity.
Qed.

Lemma run_fails_fast_witness :
  exists st',
    handleGenerateJsonl unreachable plain_file (fun n => n)
      [complete_pair; pair_without_proposal; complete_pair] start
    = (ErrorShown connection_failed_message, st')
    /\ exists page, calls st' = calls start ++ [sections_request page].
Proof.
  apply (run_fails_fast unreachable plain_file (fun n => n)
           [complete_pair; pair_without_proposal; complete_pair]
           [complete_pair] complete_pair
           [{| name := rfp_text; content := rfp_text |}]
           {| name := proposal_text; content := proposal_text |} start).
  - reflexivity.
  - reflexivity.
  - reflexivity.
  - intros request.
    exists (mkJsError TypeError (lit "Failed to fetch")), tt.
    split; reflexivity.
Defined.

(** X12. A file of a complete pair that cannot be decoded ends the whole
    run with the message of its error: no request is sent for that pair or
    for a later one, and the records that earlier pairs produced are
    dropped, no dataset being offered. *)
Theorem run_stops_at_unreadable_file
    {World : Type} (fetch : World -> OllamaRequest -> Outcome Response * World)
    {File : Type} (readFileContent : File -> Outcome FileContent)
    (NumberToString : jsstring -> jsstring)
    (documentPairs before after : list (DocumentPair File))
    (failing : DocumentPair File) (chunks : list Chunk) (e : JsError)
    (st st1 : State World) :
  completedPairs documentPairs = before ++ failing :: after ->
  process_pairs fetch readFileContent NumberToString before [] st
  = (Returned chunks, st1) ->
  read_all readFileContent (rfp failing) = Thrown e
  \/ ((exists rfpContents,
          read_all readFileContent (rfp failing) = Returned rfpContents)
      /\ read_proposal readFileContent (proposal failing) = Thrown e) ->
  handleGenerateJsonl fetch readFileContent NumberToString documentPairs st
  = (ErrorShown (shown_message e), st1).
Proof.
  intros Hcompleted Hbefore Hread.
  assert (Hpair : process_pair fetch readFileContent NumberToString failing
                    chunks st1 = (Thrown e, st1)).
  { unfold process_pair, bind, lift.
    destruct Hread as [-> | [[rfpContents ->] ->]]; reflexivity. }
  unfold handleGenerateJsonl. rewrite Hcompleted.
  replace (length (before ++ failing :: after) =? 0)%nat with false
    by (symmetry; apply Nat.eqb_neq; rewrite length_app; simpl; lia).
  rewrite process_pairs_app, Hbefore. cbn [process_pairs]. unfold bind at 1.
  rewrite Hpair. reflexivity.
Qed.

Lemma run_stops_at_unreadable_file_witness :
  handleGenerateJsonl scenario_backend picky_file (fun n => n)
    [complete_pair; unreadable_pair] (mkState 0%nat [])
  = (ErrorShown
       (shown_message (mkJsError OtherError (lit "Failed to process file: bad"))),
     mkState 3%nat
       [sections_request (lit "--- RFP File: " ++ rfp_text ++ lit " ---"
                          ++ nl ++ rfp_text);
        relevance_request (fun n => n) (JStr rfp_text) proposal_text;
        extraction_request (fun n => n) (JStr rfp_text) [proposal_text]]).
Proof.
  apply (run_stops_at_unreadable_file scenario_backend picky_file (fun n => n)
           [complete_pair; unreadable_pair] [complete_pair] [] unreadable_pair
           [{| rfp_section := JStr rfp_text;
               proposal_section := proposal_text |}]).
  - reflexivity.
  - vm_compute. reflexivity.
  - left. reflexivity.
Defined.

(* ================================================================== *)
(** * Properties of the decoder of uploaded files *)

Section FileFacts.

Lemma jsstring_eqb_eq (a b : jsstring) : jsstring_eqb a b = true <-> a = b.
Proof.
  revert b. induction a as [|x a IH]; intros [|y b]; simpl;
    try (split; [discriminate | discriminate]); try tauto.
  rewrite andb_true_iff, N.eqb_eq, IH. split.
  - intros [-> ->]. reflexivity.
  - intros H. injection H as -> ->. split; reflexivity.
Qed.

Lemma jsstring_eqb_neq (a b : jsstring) : a <> b -> jsstring_eqb a b = false.
Proof.
  intros H. destruct (jsstring_eqb a b) eqn:E; [|reflexivity].
  apply jsstring_eqb_eq in E. contradiction.
Qed.

(** The pieces of a name with a dot: the last one is what follows the last
    dot. *)
Lemma split_on_last_piece (sep : code_unit) (base ext : jsstring) :
  Forall (fun c => c <> sep) ext ->
  exists pieces,
    pieces <> [] /\ split_on sep (base ++ sep :: ext) = pieces ++ [ext].
Proof.
  intros Hext. induction base as [|c base (pieces & Hne & IH)].
  - exists [[]]. split; [discriminate|]. simpl. rewrite N.eqb_refl.
    rewrite (split_on_line sep ext Hext). reflexivity.
  - cbn [app split_on]. rewrite IH. destruct (c =? sep)%N.
    + exists ([] :: pieces). split; [discriminate | reflexivity].
    + destruct pieces as [|piece pieces]; [congruence|].
      exists ((c :: piece) :: pieces). split; [discriminate | reflexivity].
Qed.

End FileFacts.

(** X13. For a file name whose text after the last dot is ASCII, the
    extension is that text with its letters in lower case, so that
    Report.PDF is a pdf; such a name without a dot is its own extension.
    (On ASCII text the lower case of JavaScript changes the letters A to Z
    and nothing else.) *)
Theorem file_extension_last_piece (base ext : jsstring) :
  Forall (fun c => c <> dot /\ (c < 128)%N) ext ->
  file_extension (base ++ dot :: ext) = toLowerCase ext
  /\ file_extension ext = toLowerCase ext.
Proof.
  intros Hascii.
  assert (Hext : Forall (fun c => c <> dot) ext).
  { apply (Forall_impl _ (fun c H => proj1 H) Hascii). }
  unfold file_extension. split.
  - destruct (split_on_last_piece dot base ext Hext) as (pieces & _ & ->).
    rewrite last_last. reflexivity.
  - rewrite (split_on_line dot ext Hext). reflexivity.
Qed.

Lemma file_extension_last_piece_witness :
  file_extension (lit "Annex.v2" ++ dot :: lit "PDF") = toLowerCase (lit "PDF")
  /\ file_extension (lit "PDF") = toLowerCase (lit "PDF").
Proof.
  apply (file_extension_last_piece (lit "Annex.v2") (lit "PDF")).
  repeat constructor; (discriminate || reflexivity).
Defined.

Section DecoderFacts.

Variable Buffer : Type.
Variable body_textContent : jsstring -> Outcome (option jsstring).
Variable extractRawText : Buffer -> Outcome jsstring.
Variable pdf_text_items : Buffer -> Outcome (list (list (option jsstring))).

Lemma resolve_or_reject_outcome file_name0 decoded :
  match resolve_or_reject file_name0 decoded with
  | Returned fc => name fc = file_name0 /\ trim (content fc) = content fc
  | Thrown e => e = process_failed file_name0
  end.
Proof.
  destruct decoded as [content0 | e]; simpl.
  - split; [reflexivity | apply trim_idempotent].
  - reflexivity.
Qed.

Lemma readFileContent_outcome (file : BrowserFile Buffer) :
  match readFileContent body_textContent extractRawText pdf_text_items file with
  | Returned fc => name fc = file_name file /\ trim (content fc) = content fc
  | Thrown e =>
      e = reader_error \/ e = could_not_be_read
      \/ e = process_failed (file_name file)
  end.
Proof.
  unfold readFileContent.
  destruct (is_binary_extension (file_extension (file_name file))).
  - destruct (buffer_read file) as [|[result|]]; auto.
    pose proof (resolve_or_reject_outcome (file_name file)
                  (decode_buffer Buffer extractRawText pdf_text_items
                     (file_extension (file_name file)) result)) as H.
    destruct (resolve_or_reject _ _); auto.
  - destruct (text_read file) as [|[result|]]; auto.
    destruct (is_nil result); auto.
    pose proof (resolve_or_reject_outcome (file_name file)
                  (decode_text body_textContent
                     (file_extension (file_name file)) result)) as H.
    destruct (resolve_or_reject _ _); auto.
Qed.

End DecoderFacts.

(** X14. A file that [readFileContent] decodes keeps its name, and its
    content has no white space at its start or at its end, whatever the
    kind of the file. *)
Theorem readFileContent_trimmed
    {Buffer : Type} (body_textContent : jsstring -> Outcome (option jsstring))
    (extractRawText : Buffer -> Outcome jsstring)
    (pdf_text_items : Buffer -> Outcome (list (list (option jsstring))))
    (file : BrowserFile Buffer) (decoded : FileContent) :
  readFileContent body_textContent extractRawText pdf_text_items file
  = Returned decoded ->
  name decoded = file_name file /\ trim (content decoded) = content decoded.
Proof.
  intros H.
  pose proof (readFileContent_outcome Buffer body_textContent extractRawText
                pdf_text_items file) as Hout.
  rewrite H in Hout. exact Hout.
Qed.

Lemma readFileContent_trimmed_witness :
  name {| name := lit "notes.md"; content := lit "some  notes" |}
  = file_name (text_file (lit "notes.md") (lit "  some  notes
"))
  /\ trim (content {| name := lit "notes.md"; content := lit "some  notes" |})
     = content {| name := lit "notes.md"; content := lit "some  notes" |}.
Proof.
  apply (readFileContent_trimmed no_body no_library no_library
           (text_file (lit "notes.md") (lit "  some  notes
"))).
  vm_compute. reflexivity.
Defined.

(** X15. [readFileContent] rejects in three ways only: with the event of
    the reader, which is no [Error]; with the error File could not be read.;
    or with the error Failed to process file: followed by the name of the
    file, which replaces whatever a decoder has thrown. *)
Theorem readFileContent_rejections
    {Buffer : Type} (body_textContent : jsstring -> Outcome (option jsstring))
    (extractRawText : Buffer -> Outcome jsstring)
    (pdf_text_items : Buffer -> Outcome (list (list (option jsstring))))
    (file : BrowserFile Buffer) (e : JsError) :
  readFileContent body_textContent extractRawText pdf_text_items file
  = Thrown e ->
  e = reader_error \/ e = could_not_be_read
  \/ e = process_failed (file_name file).
Proof.
  intros H.
  pose proof (readFileContent_outcome Buffer body_textContent extractRawText
                pdf_text_items file) as Hout.
  rewrite H in Hout. exact Hout.
Qed.

Lemma readFileContent_rejections_witness :
  process_failed (lit "offer.docx") = reader_error
  \/ process_failed (lit "offer.docx") = could_not_be_read
  \/ process_failed (lit "offer.docx")
     = process_failed (file_name (text_file (lit "offer.docx") (lit "PK"))).
Proof.
  apply (readFileContent_rejections no_body no_library no_library
           (text_file (lit "offer.docx") (lit "PK"))).
  vm_compute. reflexivity.
Defined.

(** X16. For a file that is read as text (its extension is none of doc,
    docx and pdf): an empty file is rejected with File could not be read.,
    even a txt file; a file that is not empty and whose extension is not
    supported is not rejected, it decodes to the text Unsupported file
    type. whatever it holds. *)
Theorem readFileContent_text_edges
    {Buffer : Type} (body_textContent : jsstring -> Outcome (option jsstring))
    (extractRawText : Buffer -> Outcome jsstring)
    (pdf_text_items : Buffer -> Outcome (list (list (option jsstring))))
    (file : BrowserFile Buffer) (text : jsstring) :
  is_binary_extension (file_extension (file_name file)) = false ->
  text_read file = ReadResult (Some text) ->
  (text = [] ->
   readFileContent body_textContent extractRawText pdf_text_items file
   = Thrown could_not_be_read)
  /\ (text <> [] ->
      ~ In (file_extension (file_name file)) supported_extensions ->
      readFileContent body_textContent extractRawText pdf_text_items file
      = Returned {| name := file_name file; content := unsupported_content |}).
Proof.
  intros Hbinary Hread. unfold readFileContent. rewrite Hbinary, Hread.
  split.
  - intros ->. reflexivity.
  - intros Htext Hunsupported.
    destruct text as [|c text]; [congruence|]. cbn [is_nil].
    unfold decode_text.
    rewrite !jsstring_eqb_neq;
      try (intros E; apply Hunsupported; rewrite E; simpl; tauto).
    reflexivity.
Qed.

Lemma readFileContent_text_edges_witness :
  (@nil code_unit = [] ->
   readFileContent no_body no_library no_library (text_file (lit "rfp.txt") [])
   = Thrown could_not_be_read)
  /\ (lit "{}" <> [] ->
      ~ In (file_extension (file_name (text_file (lit "rfp.json") (lit "{}"))))
           supported_extensions ->
      readFileContent no_body no_library no_library
        (text_file (lit "rfp.json") (lit "{}"))
      = Returned {| name := lit "rfp.json"; content := unsupported_content |}).
Proof.
  split.
  - apply (proj1 (readFileContent_text_edges no_body no_library no_library
                    (text_file (lit "rfp.txt") []) [] eq_refl eq_refl)).
  - apply (proj2 (readFileContent_text_edges no_body no_library no_library
                    (text_file (lit "rfp.json") (lit "{}")) (lit "{}")
                    eq_refl eq_refl)).
Defined.

Section EmptyProposal.

Context {World : Type}.
Variable fetch : World -> OllamaRequest -> Outcome Response * World.
Variable NumberToString : jsstring -> jsstring.

(** Without proposal pages no section finds a match and no request is
    sent. *)
Lemma match_sections_no_pages rfpSections :
  forall chunks (st : State World),
    match_sections fetch NumberToString rfpSections [] chunks st
    = (Returned chunks, st).
Proof.
  induction rfpSections as [|rfpSection rest IH]; intros chunks st.
  - reflexivity.
  - cbn [match_sections]. unfold bind at 1.
    change (findMatchingSection fetch NumberToString rfpSection [] st)
      with (@Returned (option jsstring) None, st).
    cbv iota. apply IH.
Qed.

End EmptyProposal.

(** X17. A pair whose proposal decodes to the empty text (a file that holds
    white space only) adds no record, and after the requests of the section
    extractor it sends no request at all: the matcher has no page to ask
    about. *)
Theorem empty_proposal_adds_nothing
    {World : Type} (fetch : World -> OllamaRequest -> Outcome Response * World)
    {File : Type} (readFileContent : File -> Outcome FileContent)
    (NumberToString : jsstring -> jsstring)
    (current : DocumentPair File) (allFinalChunks : list Chunk)
    (rfpContents : list FileContent) (proposalContent : FileContent)
    (rfpSections : list JSON) (st st1 : State World) :
  read_all readFileContent (rfp current) = Returned rfpContents ->
  read_proposal readFileContent (proposal current) = Returned proposalContent ->
  content proposalContent = [] ->
  extractSectionsFromDocument fetch
    (pages_of (join (nl ++ nl) (map rfp_file_text rfpContents))) st
  = (Returned rfpSections, st1) ->
  process_pair fetch readFileContent NumberToString current allFinalChunks st
  = (Returned allFinalChunks, st1).
Proof.
  intros Hrfp Hproposal Hempty Hsections.
  unfold process_pair, bind, lift.
  rewrite Hrfp, Hproposal, Hsections, Hempty.
  destruct (length rfpSections =? 0)%nat; [reflexivity|].
  change (pages_of []) with (@nil jsstring).
  apply match_sections_no_pages.
Qed.

Lemma empty_proposal_adds_nothing_witness :
  process_pair scenario_backend plain_file (fun n => n) blank_proposal_pair []
    (mkState 0%nat [])
  = (Returned [],
     mkState 1%nat
       [sections_request (lit "--- RFP File: " ++ rfp_text ++ lit " ---"
                          ++ nl ++ rfp_text)]).
Proof.
  apply (empty_proposal_adds_nothing scenario_backend plain_file (fun n => n)
           blank_proposal_pair []
           [{| name := rfp_text; content := rfp_text |}]
           {| name := []; content := [] |}
           [JStr rfp_text]);
    vm_compute; reflexivity.
Defined.

(* ================================================================== *)
(** * Properties of the editing of the document pairs *)

Section PairFacts.

Context {File : Type}.

Lemma removePair_app (removed : Z) (l1 l2 : list (DocumentPair File)) :
  removePair removed (l1 ++ l2) = removePair removed l1 ++ removePair removed l2.
Proof. apply filter_app. Qed.

End PairFacts.

(** X18. Choosing files for a pair changes only the pairs that carry its
    id: the pairs keep their number, their order and their ids, and once the
    pairs of that id are removed nothing of the change is left. *)
Theorem handlePairChange_local
    {File : Type} (changed : Z) (type : pair_field)
    (files : option (list File)) (pairs : list (DocumentPair File)) :
  map id (handlePairChange changed type files pairs) = map id pairs
  /\ removePair changed (handlePairChange changed type files pairs)
     = removePair changed pairs.
Proof.
  induction pairs as [|p pairs [IHid IHremove]]; [split; reflexivity|].
  unfold handlePairChange in *. cbn [map]. split.
  - rewrite IHid. f_equal.
    destruct (id p =? changed)%Z; [destruct type|]; reflexivity.
  - unfold removePair in *. cbn [filter].
    destruct (id p =? changed)%Z eqn:Hid.
    + destruct type; cbn [id negb]; rewrite Hid; exact IHremove.
    + rewrite Hid. cbn [negb]. rewrite IHremove. reflexivity.
Qed.

(** X19. After one RFP file or more and a proposal file have been chosen for
    a pair, in either order, every pair of that id is complete; the two
    choices commute. *)
Theorem handlePairChange_completes
    {File : Type} (changed : Z) (rfpFile proposalFile : File)
    (rfpFiles proposalFiles : list File) (pairs : list (DocumentPair File)) :
  handlePairChange changed proposal_field (Some (proposalFile :: proposalFiles))
    (handlePairChange changed rfp_field (Some (rfpFile :: rfpFiles)) pairs)
  = handlePairChange changed rfp_field (Some (rfpFile :: rfpFiles))
      (handlePairChange changed proposal_field
         (Some (proposalFile :: proposalFiles)) pairs)
  /\ Forall (fun p => id p = changed -> is_complete p = true)
       (handlePairChange changed proposal_field
          (Some (proposalFile :: proposalFiles))
          (handlePairChange changed rfp_field (Some (rfpFile :: rfpFiles))
             pairs)).
Proof.
  unfold handlePairChange. rewrite !map_map. split.
  - apply map_ext. intros p.
    destruct (id p =? changed)%Z eqn:Hid; cbn [id]; rewrite Hid; reflexivity.
  - apply Forall_forall. intros q Hq.
    apply in_map_iff in Hq as (p & <- & _).
    destruct (id p =? changed)%Z eqn:Hid; cbn [id]; rewrite Hid.
    + intros _. reflexivity.
    + intros Hq. apply Z.eqb_neq in Hid. contradiction.
Qed.

(** X20. A pair that was added and not yet given files changes nothing of a
    run: the run on the pairs with a fresh pair at their end is the run on
    the pairs. *)
Theorem addPair_keeps_run
    {World : Type} (fetch : World -> OllamaRequest -> Outcome Response * World)
    {File : Type} (readFileContent : File -> Outcome FileContent)
    (NumberToString : jsstring -> jsstring)
    (now : Z) (pairs : list (DocumentPair File)) (st : State World) :
  completedPairs (addPair now pairs) = completedPairs pairs
  /\ handleGenerateJsonl fetch readFileContent NumberToString
       (addPair now pairs) st
     = handleGenerateJsonl fetch readFileContent NumberToString pairs st.
Proof.
  assert (H : completedPairs (addPair now pairs) = completedPairs pairs).
  { unfold completedPairs, addPair. rewrite filter_app. simpl.
    apply app_nil_r. }
  split; [exact H|]. unfold handleGenerateJsonl. rewrite H. reflexivity.
Qed.

(** X21. [removePair] removes every pair that carries the id, also when
    several pairs were added within one millisecond and share it, and keeps
    the other pairs in their order: no pair of that id is left, removing a
    pair that was just added gives the pairs without that id, and pairs that
    do not hold the id are left as they are. *)
Theorem removePair_removes_all
    {File : Type} (removed : Z) (pairs : list (DocumentPair File)) :
  Forall (fun p => id p <> removed) (removePair removed pairs)
  /\ removePair removed (addPair removed (addPair removed pairs))
     = removePair removed pairs
  /\ (Forall (fun p => id p <> removed) pairs ->
      removePair removed pairs = pairs).
Proof.
  split; [|split].
  - apply Forall_forall. intros p Hp. unfold removePair in Hp.
    apply filter_In in Hp as [_ Hp]. apply negb_true_iff, Z.eqb_neq in Hp.
    exact Hp.
  - unfold addPair. rewrite !removePair_app.
    unfold removePair at 2 3. cbn [filter id]. rewrite Z.eqb_refl.
    cbn [negb]. rewrite !app_nil_r. reflexivity.
  - intros Hall. induction Hall as [|p pairs Hp _ IH]; [reflexivity|].
    unfold removePair in *. cbn [filter].
    apply Z.eqb_neq in Hp. rewrite Hp. cbn [negb]. rewrite IH. reflexivity.
Qed.

Lemma removePair_removes_all_witness :
  removePair 2 [complete_pair; pair_without_proposal] = [complete_pair]
  /\ removePair 3 [complete_pair; pair_without_proposal]
     = [complete_pair; pair_without_proposal].
Proof.
  split.
  - reflexivity.
  - apply (proj2 (proj2 (removePair_removes_all 3
                           [complete_pair; pair_without_proposal]))).
    repeat constructor; discriminate.
Defined.

(* ================================================================== *)
(** * Further properties of the response parser *)

Section LooseFences.

Lemma all_white_space_app (a b : jsstring) :
  all_white_space a = true -> all_white_space b = true ->
  all_white_space (a ++ b) = true.
Proof.
  unfold all_white_space. rewrite forallb_app. intros -> ->. reflexivity.
Qed.

Lemma trimEnd_app (rest s : jsstring) :
  trimEnd s <> [] -> trimEnd (rest ++ s) = rest ++ trimEnd s.
Proof.
  unfold trimEnd. intros H. rewrite rev_app_distr, trimStart_app.
  - rewrite rev_app_distr, rev_involutive. reflexivity.
  - intros E. apply H. rewrite E. reflexivity.
Qed.

Lemma JSON_parse_not_empty (text : jsstring) v :
  JSON_parse text = Some v -> text <> [].
Proof. intros H ->. discriminate. Qed.

(** A text that begins with a JSON text has no opening fence to remove. *)
Lemma keep_opening (x rest : jsstring) v :
  JSON_parse x = Some v ->
  replace_prefix_ws fence (replace_prefix_ws fence_json (x ++ rest)) = x ++ rest.
Proof.
  intros H.
  assert (Hjson : replace_prefix_ws fence_json (x ++ rest) = x ++ rest).
  { unfold replace_prefix_ws, fence_json.
    change (lit "```json") with (96%N :: lit "``json").
    rewrite (JSON_parse_not_startsWith_backquote _ _ _ _ H). reflexivity. }
  rewrite Hjson. unfold replace_prefix_ws, fence.
  change (lit "```") with (96%N :: lit "``").
  rewrite (JSON_parse_not_startsWith_backquote _ _ _ _ H). reflexivity.
Qed.

(** An opening fence goes with the white space that follows it. *)
Lemma strip_opening (opener ws1 x rest : jsstring) v :
  opener = fence \/ opener = fence_json ->
  all_white_space ws1 = true ->
  JSON_parse x = Some v ->
  replace_prefix_ws fence
    (replace_prefix_ws fence_json (opener ++ ws1 ++ x ++ rest))
  = trimStart x ++ rest.
Proof.
  intros Hopener H1 Hx.
  pose proof (JSON_parse_trimStart _ _ Hx) as Hb.
  assert (Hrest : trimStart (ws1 ++ x ++ rest) = trimStart x ++ rest).
  { rewrite trimStart_app_white_space by assumption.
    apply trimStart_app, (JSON_parse_not_empty _ _ Hb). }
  assert (Hlater : replace_prefix_ws fence (trimStart x ++ rest)
                   = trimStart x ++ rest).
  { unfold replace_prefix_ws, fence.
    change (lit "```") with (96%N :: lit "``").
    rewrite (JSON_parse_not_startsWith_backquote _ _ _ _ Hb). reflexivity. }
  destruct Hopener as [-> | ->].
  - assert (Hnot : startsWith (fence ++ ws1 ++ x ++ rest) fence_json = false).
    { change (startsWith (ws1 ++ x ++ rest) (lit "json") = false).
      destruct ws1 as [|c ws1].
      - destruct x as [|c x]; [discriminate|].
        simpl. destruct (N.eqb_spec c 106) as [-> |]; [|reflexivity].
        rewrite JSON_parse_head_not_j in Hx. discriminate.
      - simpl in H1. apply andb_true_iff in H1 as [Hc _].
        simpl. destruct (N.eqb_spec c 106) as [-> |];
          [discriminate | reflexivity]. }
    unfold replace_prefix_ws at 2. rewrite Hnot.
    unfold replace_prefix_ws at 1.
    change (startsWith (fence ++ ws1 ++ x ++ rest) fence) with true.
    cbv iota.
    change (skipn (length fence) (fence ++ ws1 ++ x ++ rest))
      with (ws1 ++ x ++ rest).
    exact Hrest.
  - unfold replace_prefix_ws at 2.
    change (startsWith (fence_json ++ ws1 ++ x ++ rest) fence_json) with true.
    cbv iota.
    change (skipn (length fence_json) (fence_json ++ ws1 ++ x ++ rest))
      with (ws1 ++ x ++ rest).
    rewrite Hrest. exact Hlater.
Qed.

(** A closing fence goes with the white space before it. *)
Lemma strip_closing (x ws2 : jsstring) :
  all_white_space ws2 = true ->
  replace_ws_suffix fence (x ++ ws2 ++ fence) = trimEnd x.
Proof.
  intros H2. unfold replace_ws_suffix.
  assert (Hends : endsWith (x ++ ws2 ++ fence) fence = true).
  { unfold endsWith. rewrite !app_assoc, rev_app_distr. reflexivity. }
  rewrite Hends.
  replace (firstn (length (x ++ ws2 ++ fence) - length fence)
             (x ++ ws2 ++ fence))
    with (x ++ ws2).
  - apply trimEnd_app_white_space, H2.
  - rewrite !app_assoc, length_app, Nat.add_sub.
    rewrite firstn_app, firstn_all, Nat.sub_diag. simpl.
    rewrite app_nil_r. reflexivity.
Qed.

(** A JSON text has no closing fence to remove. *)
Lemma keep_closing (x : jsstring) v :
  JSON_parse x = Some v -> replace_ws_suffix fence x = x.
Proof.
  intros H. unfold replace_ws_suffix, fence.
  change (lit "```") with (lit "``" ++ [96%N]).
  rewrite (JSON_parse_not_endsWith_backquote _ _ _ H). reflexivity.
Qed.

(** X22. A fence is missing at one end or at both: a reply cut short after the
    JSON text, or one that only opens or only closes a code block.
    [safeJsonParse] removes whichever fence is there, with the white space
    around it, and returns the value of the JSON text; the three
    replacements are independent of each other. *)
Theorem safeJsonParse_loose_fences
    (opener closer ws0 ws1 body ws2 ws3 : jsstring) (v : JSON) :
  opener = [] \/ opener = fence \/ opener = fence_json ->
  closer = [] \/ closer = fence ->
  all_white_space ws0 = true -> all_white_space ws1 = true ->
  all_white_space ws2 = true -> all_white_space ws3 = true ->
  JSON_parse body = Some v ->
  safeJsonParse (loosely_fenced opener closer ws0 ws1 body ws2 ws3) = v.
Proof.
  intros Hopener Hcloser H0 H1 H2 H3 Hbody.
  pose proof (JSON_parse_trimStart _ _ Hbody) as Hstart.
  pose proof (JSON_parse_trimEnd _ _ Hbody) as Hend.
  pose proof (JSON_parse_trim _ _ Hbody) as Htrim.
  assert (Hfence_end : forall x, trimEnd (x ++ fence) = x ++ fence).
  { intros x. change fence with (lit "``" ++ [96%N]).
    rewrite app_assoc. apply trimEnd_snoc. reflexivity. }
  unfold safeJsonParse.
  destruct Hopener as [-> | Hopener]; destruct Hcloser as [-> | ->].
  - (* no fence at all *)
    assert (E : sanitize (loosely_fenced [] [] ws0 ws1 body ws2 ws3)
                = trim body).
    { unfold sanitize, loosely_fenced. cbn [app].
      assert (T : trim (ws0 ++ ws1 ++ body ++ ws2 ++ ws3) = trim body).
      { unfold trim. rewrite !trimStart_app_white_space by assumption.
        rewrite trimStart_app by apply (JSON_parse_not_empty _ _ Hstart).
        apply trimEnd_app_white_space, all_white_space_app; assumption. }
      rewrite T. rewrite <- (app_nil_r (trim body)) at 1.
      rewrite (keep_opening _ _ _ Htrim), app_nil_r.
      apply (keep_closing _ _ Htrim). }
    rewrite E, Htrim. reflexivity.
  - (* a closing fence only *)
    assert (E : sanitize (loosely_fenced [] fence ws0 ws1 body ws2 ws3)
                = trim body).
    { unfold sanitize, loosely_fenced. cbn [app].
      assert (T : trim (ws0 ++ ws1 ++ body ++ ws2 ++ fence ++ ws3)
                  = trimStart body ++ ws2 ++ fence).
      { unfold trim. rewrite !trimStart_app_white_space by assumption.
        rewrite trimStart_app by apply (JSON_parse_not_empty _ _ Hstart).
        replace (trimStart body ++ ws2 ++ fence ++ ws3)
          with ((trimStart body ++ ws2 ++ fence) ++ ws3)
          by (rewrite <- !app_assoc; reflexivity).
        rewrite trimEnd_app_white_space by assumption.
        rewrite !app_assoc. apply Hfence_end. }
      rewrite T, (keep_opening _ _ _ Hstart).
      apply strip_closing, H2. }
    rewrite E, Htrim. reflexivity.
  - (* an opening fence only *)
    assert (E : sanitize (loosely_fenced opener [] ws0 ws1 body ws2 ws3)
                = trimStart (trimEnd body)).
    { unfold sanitize, loosely_fenced. cbn [app].
      assert (T : trim (ws0 ++ opener ++ ws1 ++ body ++ ws2 ++ ws3)
                  = opener ++ ws1 ++ trimEnd body ++ []).
      { unfold trim. rewrite trimStart_app_white_space by assumption.
        assert (Hkeep : forall rest, trimStart (opener ++ rest) = opener ++ rest)
          by (intros rest; destruct Hopener as [-> | ->]; reflexivity).
        rewrite Hkeep.
        replace (opener ++ ws1 ++ body ++ ws2 ++ ws3)
          with (((opener ++ ws1) ++ body) ++ (ws2 ++ ws3))
          by (rewrite <- !app_assoc; reflexivity).
        rewrite trimEnd_app_white_space
          by (apply all_white_space_app; assumption).
        rewrite trimEnd_app by apply (JSON_parse_not_empty _ _ Hend).
        rewrite app_nil_r, <- app_assoc. reflexivity. }
      rewrite T, (strip_opening _ _ _ _ _ Hopener H1 Hend), app_nil_r.
      apply (keep_closing _ v), JSON_parse_trimStart, Hend. }
    rewrite E, (JSON_parse_trimStart _ _ Hend). reflexivity.
  - (* both fences *)
    change (loosely_fenced opener fence ws0 ws1 body ws2 ws3)
      with (fenced opener ws0 ws1 body ws2 ws3).
    rewrite (sanitize_fenced _ _ _ _ _ _ _ Hopener H0 H1 H2 H3 Hbody), Htrim.
    reflexivity.
Qed.

Lemma safeJsonParse_loose_fences_witness :
  safeJsonParse
    (loosely_fenced fence_json [] [] (lit " ") (lit "[true]") (lit " ") [])
  = JArr [JBool true].
Proof.
  apply safeJsonParse_loose_fences;
    try reflexivity; [right; right; reflexivity | left; reflexivity].
Defined.

End LooseFences.

(* ================================================================== *)
(** * The number of requests and runs without sections *)

Section RequestCounts.

Context {World : Type}.
Variable fetch : World -> OllamaRequest -> Outcome Response * World.
Context {File : Type}.
Variable readFileContent : File -> Outcome FileContent.
Variable NumberToString : jsstring -> jsstring.

(** One relevance request per page, and one extraction request more when
    some page was relevant; an answer needs the extraction request. *)
Lemma findMatchingSection_cost rfpSection proposalPages
      (st st' : State World) answer :
  findMatchingSection fetch NumberToString rfpSection proposalPages st
  = (Returned answer, st') ->
  exists k,
    (k <= 1)%nat
    /\ length (calls st')
       = (length (calls st) + length proposalPages + k)%nat
    /\ (answer <> None -> k = 1%nat).
Proof.
  unfold findMatchingSection, bind at 1.
  destruct (relevance_loop fetch NumberToString rfpSection proposalPages [] st)
    as [[relevantPages | e] st1] eqn:Hloop; [|discriminate].
  apply relevance_loop_calls in Hloop.
  assert (Hlen : length (calls st1)
                 = (length (calls st) + length proposalPages)%nat)
    by (rewrite Hloop, length_app, length_map; reflexivity).
  destruct (length relevantPages =? 0)%nat.
  - intros H. injection H as <- <-. exists 0%nat.
    split; [lia|]. split; [lia | congruence].
  - unfold try_catch, bind.
    destruct (callOllama fetch _ false st1) as [[responseText | e] st2] eqn:Hcall;
      apply callOllama_calls in Hcall.
    + intros H. injection H as _ <-. exists 1%nat.
      split; [lia|]. split; [|reflexivity].
      rewrite Hcall, length_app. simpl. lia.
    + destruct (is_connection_error e); [discriminate|].
      intros H. injection H as _ <-. exists 1%nat.
      split; [lia|]. split; [|reflexivity].
      rewrite Hcall, length_app. simpl. lia.
Qed.

(** When no page yields a section the loop over the pages returns what it
    was given. *)
Lemma extract_loop_nothing pages :
  (forall page (st0 : State World),
      exists st1, extract_page fetch page [] st0 = (Returned [], st1)) ->
  forall acc (st : State World),
  exists st', extract_loop fetch pages acc st = (Returned acc, st')
              /\ calls st' = calls st ++ map sections_request pages.
Proof.
  intros Hnone. induction pages as [|page pages IH]; intros acc st.
  - exists st. split; [reflexivity|]. rewrite app_nil_r. reflexivity.
  - destruct (Hnone page st) as [st1 Hpage].
    destruct (IH acc st1) as (st' & Hloop & Hlog).
    exists st'. simpl. unfold bind.
    rewrite (extract_page_acc fetch page acc), Hpage, app_nil_r, Hloop.
    split; [reflexivity|].
    rewrite Hlog.
    assert (Hone : calls st1 = calls st ++ [sections_request page]).
    { apply (extract_page_outcome fetch page [] st st1 (Returned [])) in Hpage.
      apply Hpage. }
    rewrite Hone, <- app_assoc. reflexivity.
Qed.

Lemma process_pairs_nothing pairs :
  (forall page (st0 : State World),
      exists st1, extract_page fetch page [] st0 = (Returned [], st1)) ->
  forallb (reads_fine readFileContent) pairs = true ->
  forall chunks (st : State World),
  exists st' pages,
    process_pairs fetch readFileContent NumberToString pairs chunks st
    = (Returned chunks, st')
    /\ calls st' = calls st ++ map sections_request pages.
Proof.
  intros Hnone. induction pairs as [|p pairs IH]; intros Hread chunks st.
  - exists st, []. split; [reflexivity|]. rewrite app_nil_r. reflexivity.
  - simpl in Hread. apply andb_true_iff in Hread as [Hp Hread].
    unfold reads_fine in Hp.
    destruct (read_all readFileContent (rfp p)) as [rfpContents|] eqn:Hrfp;
      [|discriminate].
    destruct (read_proposal readFileContent (proposal p))
      as [proposalContent|] eqn:Hproposal; [|discriminate].
    destruct (extract_loop_nothing
                (pages_of (join (nl ++ nl) (map rfp_file_text rfpContents)))
                Hnone [] st) as (st1 & Hloop & Hlog1).
    destruct (IH Hread chunks st1) as (st' & pages & Hrest & Hlog).
    exists st',
      (pages_of (join (nl ++ nl) (map rfp_file_text rfpContents)) ++ pages).
    simpl. unfold bind at 1.
    unfold process_pair, bind, lift. rewrite Hrfp, Hproposal.
    unfold extractSectionsFromDocument. rewrite Hloop.
    cbn [length Nat.eqb]. unfold ret. rewrite Hrest.
    split; [reflexivity|].
    rewrite Hlog, Hlog1, map_app, <- app_assoc. reflexivity.
Qed.

End RequestCounts.

(** X23. The requests of the loop over the sections of a pair: one relevance
    request per section and proposal page, and at most one extraction
    request per section; every record added has cost one extraction
    request. *)
Theorem match_sections_cost
    {World : Type} (fetch : World -> OllamaRequest -> Outcome Response * World)
    (NumberToString : jsstring -> jsstring)
    (rfpSections : list JSON) (proposalPages : list jsstring)
    (allFinalChunks result : list Chunk) (st st' : State World) :
  match_sections fetch NumberToString rfpSections proposalPages
    allFinalChunks st = (Returned result, st') ->
  exists extractions,
    length (calls st')
    = (length (calls st) + length rfpSections * length proposalPages
       + extractions)%nat
    /\ (length result <= length allFinalChunks + extractions)%nat
    /\ (extractions <= length rfpSections)%nat.
Proof.
  revert allFinalChunks st.
  induction rfpSections as [|rfpSection rest IH]; intros chunks st H.
  - simpl in H. injection H as <- <-. exists 0%nat. simpl. lia.
  - simpl in H. unfold bind in H.
    destruct (findMatchingSection fetch NumberToString rfpSection
                proposalPages st) as [[answer | e] st1] eqn:Hfind;
      [|discriminate].
    apply findMatchingSection_cost in Hfind as (k & Hk & Hlen & Hanswer).
    destruct answer as [answer|].
    + assert (k = 1%nat) by (apply Hanswer; discriminate). subst k.
      destruct (is_nil answer);
        apply IH in H as (n & Hcalls & Hresult & Hn);
        exists (S n); rewrite ?length_app in Hresult; simpl in *; lia.
    + apply IH in H as (n & Hcalls & Hresult & Hn).
      exists (k + n)%nat. simpl. lia.
Qed.

Lemma match_sections_cost_witness :
  exists extractions,
    length (calls (mkState 3%nat
                     [relevance_request (fun n => n) (JStr (lit "a")) (lit "p");
                      extraction_request (fun n => n) (JStr (lit "a")) [lit "p"];
                      relevance_request (fun n => n) (JStr (lit "b")) (lit "p")]))
    = (length (calls (mkState 0%nat []))
       + length [JStr (lit "a"); JStr (lit "b")] * length [lit "p"]
       + extractions)%nat
    /\ (length [mkChunk (JStr (lit "a")) (lit "no")]
        <= length (@nil Chunk) + extractions)%nat
    /\ (extractions <= length [JStr (lit "a"); JStr (lit "b")])%nat.
Proof.
  apply (match_sections_cost yes_no_answer (fun n => n)
           [JStr (lit "a"); JStr (lit "b")] [lit "p"] []
           [mkChunk (JStr (lit "a")) (lit "no")]
           (mkState 0%nat [])).
  vm_compute. reflexivity.
Defined.


